(** * The lease lock and replica synchronisation of [core/db_manager.py]

    A shallow embedding of [DatabaseManager]: the lease lock kept in a blob
    of the object store, the download and upload of the SQLite file, and
    [with_session], which sequences them around a caller's function.

    The program talks to three things outside itself: the bucket, the local
    file system and the clock.  They are the fields of [World].  Every
    request to the bucket may fail and takes time; what the next requests
    do is read from [oracle], so that a run is a function of the initial
    state.  Times are integers, in microseconds since the epoch (the
    resolution of [datetime]); [time.time()] and [datetime.utcnow()] read
    the same clock, and the float arithmetic of the source is exact
    arithmetic here.  Printing, rollback and close do not fail;
    [session.commit()] and the creation of the SQLite file may. *)

From Stdlib Require Import ZArith String Ascii List Lia Bool.
From stdpp Require Import base option list strings gmap fin_maps pretty.

Open Scope Z_scope.

(** ** Values read from the lock blob *)

#[local] Set Warnings "-register-all".

(** What [json.loads] returns. *)
Inductive json :=
| JNull
| JBool (b : bool)
| JNum (n : Z)
| JStr (s : string)
| JArr (items : list json)
| JObj (fields : list (string * json)).

Inductive lock_failure :=
| AfterSeconds (timeout : Z)
    (* f"Failed to acquire database lock after {timeout} seconds" *)
| AfterAttempts (attempt : nat) (owner : json).
    (* f"Failed to acquire database lock after {attempt} attempts. "
       f"Currently held by: {owner}" *)

Inductive exn :=
| DatabaseLockException (why : lock_failure)
| NotFound                      (* google.cloud.exceptions.NotFound *)
| StoreError                    (* any other failure of a bucket request *)
| TypeError
| AttributeError
| KeyError
| ValueError
| CallerError (tag : string).   (* whatever the caller's function or SQLAlchemy
                                   raises, by its name *)

(** The third outcome marks a loop model that ran out of fuel; the source
    has one loop, in [acquire_lock], and [acquire_lock_terminates] shows
    that its model never ends there. *)
Inductive outcome (A : Type) :=
| Ok (a : A)
| Raise (e : exn)
| OutOfFuel.
Arguments Ok {A} a.
Arguments Raise {A} e.
Arguments OutOfFuel {A}.

(** ** The world *)

Inductive store_op :=
| OpExists (key : string)                   (* blob.exists() *)
| OpRead (key : string)                     (* blob.download_as_text() *)
| OpFetch (key path : string)               (* blob.download_to_filename(path) *)
| OpWrite (key content : string)            (* blob.upload_from_string / _from_filename *)
| OpDelete (key : string).                  (* blob.delete() *)

(** One line per [print] of the source. *)
Inductive message :=
| ErrorCheckingForLock (e : exn)
| ErrorGettingLockInfo (e : exn)
| ErrorCheckingLockExpiration (e : exn)
| CreatedDatabaseLock (id : string)
| ErrorCreatingLock (e : exn)
| NotReleasingLockOwnedByAnother
| ReleasedDatabaseLock (id : string)
| ErrorReleasingLock (e : exn)
| ForceReleasedDatabaseLock
| ErrorForceReleasingLock (e : exn)
| FoundExpiredLock
| DatabaseLockedWaiting (attempt : nat)
| DownloadedDatabase
| NoExistingDatabase
| ErrorDownloadingDatabase (e : exn)
| SkippingUpload
| UploadedDatabase
| CreatedBackup (timestamp : string)
| ErrorUploadingDatabase (e : exn)
| ErrorInDatabaseOperation (e : exn).

Inductive event :=
| Request (op : store_op) (ok : bool)   (* a bucket request and whether it went through *)
| Print (m : message)
| Sleep (seconds : Z)
| Commit
| Rollback
| Close.

(** What the next bucket request does: whether it fails, the time it takes,
    and, for a download to a file that fails, what it leaves at the path
    ([None]: the file system is as before). *)
Record step := { fails : bool; latency : Z; leaves : option string }.

Record World := {
  blobs : gmap string string;     (* the bucket: key -> content *)
  files : gmap string string;     (* the local file system: path -> content *)
  clock : Z;                      (* microseconds since the epoch *)
  oracle : list step;             (* the coming bucket requests, in order *)
  hostname : string;              (* socket.gethostname() *)
  pid : Z;                        (* os.getpid() *)
  uuids : list string;            (* the coming str(uuid.uuid4())[:8] *)
  trace : list event              (* what happened, latest first *)
}.

(** The attributes of a [DatabaseManager] that the lock and the
    synchronisation use.  [bucket] is [None] in local-only mode. *)
Record Manager := {
  bucket : option string;
  db_filename : string;
  local_path : string;
  engine : bool;                  (* self.engine is not None *)
  lock_timeout : Z;               (* seconds *)
  lock_id : option string;
  pending : option string         (* what the session of self.Session holds
                                     uncommitted: the content the file would get *)
}.

Record State := { self : Manager; env : World }.

(** ** Library functions

    The code calls [json], [datetime] and SQLAlchemy; what they compute is
    no part of this repository and is left open. *)
Class Library := {
  json_loads : string -> option json;       (* None: json.loads raises *)
  json_dumps : json -> string;
  fromisoformat : string -> option Z;       (* None: datetime.fromisoformat raises,
                                               or the value is not a naive datetime *)
  isoformat : Z -> string;
  strftime_compact : Z -> string;           (* strftime("%Y%m%d%H%M%S") *)
  new_store : option string -> string;      (* the file left by models.initialize_db
                                               where it found the given file *)
  create_error : string -> option string -> option (exn * option string);
                                            (* the failure of models.initialize_db, if
                                               any, at the path where it found the given
                                               file: what it raises and what it leaves
                                               at the path (None: the file system is as
                                               before) *)
  commit_error : string -> string -> option exn
                                            (* the failure of session.commit(), if any,
                                               from the file and the pending content *)
}.

(** ** Constants of the module *)

Definition MAX_LOCK_AGE : Z := 300.
Definition LOCK_RETRY_ATTEMPTS : nat := 5.
Definition LOCK_RETRY_DELAY : Z := 2.

Definition seconds (n : Z) : Z := n * 1000000.

(** ** The monad of the embedding: state and exceptions *)

Definition M (A : Type) : Type := State -> outcome A * State.

#[global] Instance M_ret : MRet M := fun A a st => (Ok a, st).
#[global] Instance M_bind : MBind M := fun A B k c st =>
  match c st with
  | (Ok a, st') => k a st'
  | (Raise e, st') => (Raise e, st')
  | (OutOfFuel, st') => (OutOfFuel, st')
  end.

Definition raise {A} (e : exn) : M A := fun st => (Raise e, st).
Definition out_of_fuel {A} : M A := fun st => (OutOfFuel, st).

(** [try: body / except Exception as e: handler e] *)
Definition try_except {A} (body : M A) (handler : exn -> M A) : M A := fun st =>
  match body st with
  | (Raise e, st') => handler e st'
  | r => r
  end.

(** [try: body / finally: cleanup]: an exception of [cleanup] replaces the
    outcome of [body]. *)
Definition try_finally {A} (body : M A) (cleanup : M unit) : M A := fun st =>
  match body st with
  | (OutOfFuel, st') => (OutOfFuel, st')
  | (r, st') =>
      match cleanup st' with
      | (Ok _, st'') => (r, st'')
      | (Raise e, st'') => (Raise e, st'')
      | (OutOfFuel, st'') => (OutOfFuel, st'')
      end
  end.

Definition get_self : M Manager := fun st => (Ok (self st), st).
Definition get_env : M World := fun st => (Ok (env st), st).
Definition set_self (f : Manager -> Manager) : M unit := fun st =>
  (Ok tt, {| self := f (self st); env := env st |}).
Definition set_env (f : World -> World) : M unit := fun st =>
  (Ok tt, {| self := self st; env := f (env st) |}).

Definition with_lock_id (v : option string) (m : Manager) : Manager :=
  {| bucket := bucket m; db_filename := db_filename m; local_path := local_path m;
     engine := engine m; lock_timeout := lock_timeout m; lock_id := v;
     pending := pending m |}.

Definition with_engine (m : Manager) : Manager :=
  {| bucket := bucket m; db_filename := db_filename m; local_path := local_path m;
     engine := true; lock_timeout := lock_timeout m; lock_id := lock_id m;
     pending := pending m |}.

Definition with_pending (v : option string) (m : Manager) : Manager :=
  {| bucket := bucket m; db_filename := db_filename m; local_path := local_path m;
     engine := engine m; lock_timeout := lock_timeout m; lock_id := lock_id m;
     pending := v |}.

Definition log (ev : event) (w : World) : World :=
  {| blobs := blobs w; files := files w; clock := clock w; oracle := oracle w;
     hostname := hostname w; pid := pid w; uuids := uuids w;
     trace := ev :: trace w |}.

Definition with_blobs (b : gmap string string) (w : World) : World :=
  {| blobs := b; files := files w; clock := clock w; oracle := oracle w;
     hostname := hostname w; pid := pid w; uuids := uuids w; trace := trace w |}.

Definition with_files (f : gmap string string) (w : World) : World :=
  {| blobs := blobs w; files := f; clock := clock w; oracle := oracle w;
     hostname := hostname w; pid := pid w; uuids := uuids w; trace := trace w |}.

Definition print (m : message) : M unit := set_env (log (Print m)).

(** ** The clock *)

Definition now : M Z := w ← get_env; mret (clock w).

Definition advance (d : Z) (w : World) : World :=
  {| blobs := blobs w; files := files w; clock := clock w + d; oracle := oracle w;
     hostname := hostname w; pid := pid w; uuids := uuids w; trace := trace w |}.

(** [time.sleep(n)] *)
Definition sleep (n : Z) : M unit :=
  set_env (fun w => log (Sleep n) (advance (seconds n) w)).

(** ** Requests to the bucket *)

(** A request that the oracle says nothing about goes through at once. *)
Definition unremarkable : step := {| fails := false; latency := 0; leaves := None |}.

Definition next_step (w : World) : step * World :=
  (hd unremarkable (oracle w),
   {| blobs := blobs w; files := files w; clock := clock w; oracle := tl (oracle w);
      hostname := hostname w; pid := pid w; uuids := uuids w; trace := trace w |}).

(** A request takes its time, and then either fails, leaving the bucket as
    it was, or is carried out by [effect]. *)
Definition request_leaving {A} (op : store_op) (effect : World -> outcome A * World)
    (debris : step -> World -> World) : M A :=
  fun st =>
    let (s, w) := next_step (env st) in
    let w := advance (latency s) w in
    if fails s
    then (Raise StoreError,
          {| self := self st; env := debris s (log (Request op false) w) |})
    else
      let (r, w') := effect (log (Request op true) w) in
      (r, {| self := self st; env := w' |}).

Definition request {A} (op : store_op) (effect : World -> outcome A * World) : M A :=
  request_leaving op effect (fun _ w => w).

Definition blob_exists (key : string) : M bool :=
  request (OpExists key) (fun w => (Ok (bool_decide (is_Some (blobs w !! key))), w)).

Definition blob_download_as_text (key : string) : M string :=
  request (OpRead key) (fun w =>
    match blobs w !! key with
    | Some content => (Ok content, w)
    | None => (Raise NotFound, w)
    end).

Definition blob_upload (key content : string) : M unit :=
  request (OpWrite key content) (fun w =>
    (Ok tt, with_blobs (<[key := content]> (blobs w)) w)).

Definition blob_delete (key : string) : M unit :=
  request (OpDelete key) (fun w =>
    match blobs w !! key with
    | Some _ => (Ok tt, with_blobs (delete key (blobs w)) w)
    | None => (Raise NotFound, w)
    end).

Definition blob_download_to_filename (key path : string) : M unit :=
  request_leaving (OpFetch key path)
    (fun w =>
       match blobs w !! key with
       | Some content => (Ok tt, with_files (<[path := content]> (files w)) w)
       | None => (Raise NotFound, w)
       end)
    (fun s w =>
       match leaves s with
       | Some junk => with_files (<[path := junk]> (files w)) w
       | None => w
       end).

(** [blob.upload_from_filename(path)] *)
Definition blob_upload_from_filename (key path : string) : M unit := fun st =>
  match files (env st) !! path with
  | Some content => blob_upload key content st
  | None => (Raise NotFound, st)     (* FileNotFoundError, before any request *)
  end.

Definition path_exists (path : string) : M bool :=
  w ← get_env; mret (bool_decide (is_Some (files w !! path))).

(** ** The Python operations applied to what [json.loads] returned *)

Module Py.

(** [bool(v)] *)
Definition truthy (v : json) : bool :=
  match v with
  | JNull => false
  | JBool b => b
  | JNum n => negb (n =? 0)
  | JStr s => negb (String.eqb s EmptyString)
  | JArr items => negb (bool_decide (items = []))
  | JObj fields => negb (bool_decide (fields = []))
  end.

Definition is_str (s : string) (v : json) : bool :=
  match v with JStr s' => String.eqb s' s | _ => false end.

Fixpoint field (key : string) (fields : list (string * json)) : option json :=
  match fields with
  | [] => None
  | (k, v) :: rest => if String.eqb k key then Some v else field key rest
  end.

Fixpoint is_infix (s t : string) : bool :=
  String.prefix s t || match t with EmptyString => false | String _ t' => is_infix s t' end.

(** [key in v] *)
Definition contains (key : string) (v : json) : outcome bool :=
  match v with
  | JObj fields => Ok (bool_decide (is_Some (field key fields)))
  | JArr items => Ok (existsb (is_str key) items)
  | JStr s => Ok (is_infix key s)
  | JNull | JBool _ | JNum _ => Raise TypeError
  end.

(** [v[key]] *)
Definition getitem (key : string) (v : json) : outcome json :=
  match v with
  | JObj fields =>
      match field key fields with Some x => Ok x | None => Raise KeyError end
  | _ => Raise TypeError
  end.

(** [v.get(key)] *)
Definition get (key : string) (v : json) : outcome (option json) :=
  match v with
  | JObj fields => Ok (field key fields)
  | _ => Raise AttributeError
  end.

(** [x != s] for [x] the result of [.get] and [s] a [str] *)
Definition differs (x : option json) (s : string) : bool :=
  match x with
  | Some v => negb (is_str s v)
  | None => true
  end.

(** [bool(self.lock_id)] *)
Definition held (id : option string) : bool :=
  match id with
  | Some s => negb (String.eqb s EmptyString)
  | None => false
  end.

End Py.

Definition lift {A} (r : outcome A) : M A := fun st => (r, st).

(** [if b: c] *)
Definition when_ (b : bool) (c : M unit) : M unit := if b then c else mret tt.

(** ** The lease lock *)

Section Lock.
Context {lib : Library}.

Definition _generate_lock_id : M string :=
  w ← get_env;
  let unique_id := hd EmptyString (uuids w) in
  set_env (fun w =>
    {| blobs := blobs w; files := files w; clock := clock w; oracle := oracle w;
       hostname := hostname w; pid := pid w; uuids := tl (uuids w);
       trace := trace w |});;
  t ← now;
  let timestamp := strftime_compact t in
  mret (hostname w +:+ "-" +:+ pretty (pid w) +:+ "-" +:+ unique_id
          +:+ "-" +:+ timestamp).

Definition _get_lock_blob_name (m : Manager) : string :=
  db_filename m +:+ ".lock".

Definition _lock_exists : M bool :=
  m ← get_self;
  match bucket m with
  | None => mret false
  | Some _ =>
      try_except
        (blob_exists (_get_lock_blob_name m))
        (fun e => print (ErrorCheckingForLock e);; mret false)
  end.

Definition _get_lock_info : M json :=
  m ← get_self;
  match bucket m with
  | None => mret (JObj [])
  | Some _ =>
      try_except
        (ex ← blob_exists (_get_lock_blob_name m);
         if negb ex then mret (JObj [])
         else
           lock_data ← blob_download_as_text (_get_lock_blob_name m);
           match json_loads lock_data with
           | Some lock_info => mret lock_info
           | None => raise ValueError        (* json.JSONDecodeError *)
           end)
        (fun e => print (ErrorGettingLockInfo e);; mret (JObj []))
  end.

Definition _is_lock_expired (lock_info : json) : M bool :=
  if negb (Py.truthy lock_info) then mret true
  else
    present ← lift (Py.contains "timestamp" lock_info);
    if negb present then mret true
    else
      try_except
        (stamp ← lift (Py.getitem "timestamp" lock_info);
         lock_time ← match stamp with
                     | JStr s =>
                         match fromisoformat s with
                         | Some t => mret t
                         | None => raise ValueError
                         end
                     | _ => raise TypeError
                     end;
         current_time ← now;
         m ← get_self;
         let lock_age := current_time - lock_time in
         mret (seconds (lock_timeout m) <? lock_age))
        (fun e => print (ErrorCheckingLockExpiration e);; mret true).

Definition _create_lock : M bool :=
  m ← get_self;
  match bucket m with
  | None => mret true
  | Some _ =>
      try_except
        (id ← _generate_lock_id;
         set_self (with_lock_id (Some id));;
         t ← now;
         w ← get_env;
         let lock_info :=
           JObj [("lock_id", JStr id); ("timestamp", JStr (isoformat t));
                 ("hostname", JStr (hostname w)); ("pid", JNum (pid w))] in
         blob_upload (_get_lock_blob_name m) (json_dumps lock_info);;
         print (CreatedDatabaseLock id);;
         mret true)
        (fun e =>
           print (ErrorCreatingLock e);;
           set_self (with_lock_id None);;
           mret false)
  end.

Definition _release_lock : M bool :=
  m ← get_self;
  if bool_decide (bucket m = None) || negb (Py.held (lock_id m))
  then set_self (with_lock_id None);; mret true
  else
    let id := default EmptyString (lock_id m) in
    try_except
      (lock_info ← _get_lock_info;
       stored ← lift (Py.get "lock_id" lock_info);
       if Py.differs stored id
       then
         print NotReleasingLockOwnedByAnother;;
         set_self (with_lock_id None);;
         mret false
       else
         blob_delete (_get_lock_blob_name m);;
         print (ReleasedDatabaseLock id);;
         set_self (with_lock_id None);;
         mret true)
      (fun e =>
         match e with
         | NotFound => set_self (with_lock_id None);; mret true
         | _ =>
             print (ErrorReleasingLock e);;
             set_self (with_lock_id None);;
             mret false
         end).

Definition _force_release_lock : M bool :=
  m ← get_self;
  match bucket m with
  | None => mret true
  | Some _ =>
      try_except
        (ex ← blob_exists (_get_lock_blob_name m);
         when_ ex
           (blob_delete (_get_lock_blob_name m);; print ForceReleasedDatabaseLock);;
         mret true)
        (fun e => print (ErrorForceReleasingLock e);; mret false)
  end.

(** The body of the loop of [acquire_lock] between the timeout check and
    the attempt counter: [true] when the lock was acquired. *)
Definition try_acquire : M bool :=
  ex ← _lock_exists;
  if negb ex
  then _create_lock
  else
    lock_info ← _get_lock_info;
    expired ← _is_lock_expired lock_info;
    if expired : bool
    then
      print FoundExpiredLock;;
      _force_release_lock;;
      _create_lock
    else mret false.

Fixpoint acquire_loop (fuel : nat) (timeout start_time : Z) (attempt : nat) : M bool :=
  match fuel with
  | O => out_of_fuel
  | S fuel' =>
      t ← now;
      if seconds timeout <? t - start_time
      then raise (DatabaseLockException (AfterSeconds timeout))
      else
        acquired ← try_acquire;
        if acquired : bool then mret true
        else
          let attempt := S attempt in
          if (LOCK_RETRY_ATTEMPTS <? attempt)%nat
          then
            lock_info ← _get_lock_info;
            owner ← lift (Py.get "lock_id" lock_info);
            raise (DatabaseLockException
                     (AfterAttempts attempt (default (JStr "unknown") owner)))
          else
            print (DatabaseLockedWaiting attempt);;
            sleep LOCK_RETRY_DELAY;;
            acquire_loop fuel' timeout start_time attempt
  end.

Definition acquire_lock (timeout : Z) : M bool :=
  m ← get_self;
  match bucket m with
  | None => mret true
  | Some _ =>
      start_time ← now;
      acquire_loop (S LOCK_RETRY_ATTEMPTS) timeout start_time 0
  end.

Definition release_lock : M unit :=
  m ← get_self;
  if Py.held (lock_id m) then _release_lock;; mret tt else mret tt.

End Lock.

(** ** The local replica and the transaction *)

(** The caller's function, seen from the file: from the content it finds
    to what it returns or raises and the content its session then holds. *)
Inductive result (R : Type) :=
| Returns (r : R)
| Raises (e : exn).
Arguments Returns {R} r.
Arguments Raises {R} e.

Definition Transform (R : Type) : Type := string -> result R * string.

Section Sync.
Context {lib : Library}.

(** [self.engine = initialize_db(self.local_path)]: where
    [models.initialize_db] raises, the engine is not set. *)
Definition initialize_db : M unit :=
  m ← get_self;
  w ← get_env;
  match create_error (local_path m) (files w !! local_path m) with
  | Some (e, debris) =>
      set_env (fun w =>
        match debris with
        | Some junk => with_files (<[local_path m := junk]> (files w)) w
        | None => w
        end);;
      raise e
  | None =>
      set_env (fun w =>
        with_files (<[local_path m := new_store (files w !! local_path m)]> (files w)) w);;
      set_self with_engine
  end.

Definition download_db : M string :=
  m ← get_self;
  match bucket m with
  | Some _ =>
      try_except
        (ex ← blob_exists (db_filename m);
         if ex : bool
         then
           blob_download_to_filename (db_filename m) (local_path m);;
           print DownloadedDatabase
         else
           print NoExistingDatabase;;
           initialize_db)
        (fun e =>
           print (ErrorDownloadingDatabase e);;
           present ← path_exists (local_path m);
           when_ (negb present) initialize_db)
  | None =>
      present ← path_exists (local_path m);
      when_ (negb present) initialize_db
  end;;
  mret (local_path m).

Definition backup_name (m : Manager) (timestamp : string) : string :=
  "backups/" +:+ db_filename m +:+ "." +:+ timestamp.

Definition upload_db : M unit :=
  m ← get_self;
  match bucket m with
  | None => print SkippingUpload
  | Some _ =>
      try_except
        (blob_upload_from_filename (db_filename m) (local_path m);;
         t ← now;
         let timestamp := strftime_compact t in
         blob_upload_from_filename (backup_name m timestamp) (local_path m);;
         print UploadedDatabase;;
         print (CreatedBackup timestamp))
        (fun e => print (ErrorUploadingDatabase e))
  end.

Definition get_session : M unit :=
  m ← get_self;
  when_ (negb (engine m)) (download_db;; set_self with_engine).

(** [func(session, *args, **kwargs)].  The session reads through the
    engine: what the function finds is taken to be the file at
    [local_path] (or what the session still holds).  That is what an
    engine made in this call serves.  An engine cached from an earlier
    session may go on serving what it read then, whatever file was
    downloaded since: a statement about the content that a function finds
    is made for an instance without an engine, or for every content. *)
Definition call {R} (func : Transform R) : M R := fun st =>
  let m := self st in
  let found := default (default EmptyString (files (env st) !! local_path m)) (pending m) in
  let (r, content) := func found in
  (match r with Returns x => Ok x | Raises e => Raise e end,
   {| self := with_pending (Some content) m; env := env st |}).

Definition session_commit : M unit :=
  m ← get_self;
  w ← get_env;
  match pending m with
  | None => set_env (log Commit)
  | Some content =>
      match commit_error (default EmptyString (files w !! local_path m)) content with
      | Some e => raise e
      | None =>
          set_env (fun w => log Commit (with_files (<[local_path m := content]> (files w)) w));;
          set_self (with_pending None)
      end
  end.

Definition session_rollback : M unit :=
  set_self (with_pending None);; set_env (log Rollback).

Definition session_close : M unit :=
  set_self (with_pending None);; set_env (log Close).

(** What [with_session] does while it holds the lock. *)
Definition in_session {R} (func : Transform R) : M R :=
  download_db;;
  get_session;;
  try_finally
    (try_except
       (result ← call func;
        session_commit;;
        upload_db;;
        mret result)
       (fun e =>
          session_rollback;;
          print (ErrorInDatabaseOperation e);;
          raise e))
    session_close.

Definition with_session {R} (func : Transform R) : M R :=
  acquire_lock 60;;
  try_finally (in_session func) release_lock.

End Sync.

(** ** The context manager [DatabaseLock] *)

Section ContextManager.
Context {lib : Library}.

(** [DatabaseLock.__enter__], for a lock made with [timeout] *)
Definition __enter__ (timeout : Z) : M unit :=
  acquire_lock timeout;; mret tt.

(** [DatabaseLock.__exit__]: it returns [None], so that an exception of the
    block is raised again once the lock is released. *)
Definition __exit__ : M unit := release_lock.

(** [with DatabaseLock(db_manager, timeout): body] *)
Definition with_DatabaseLock {A} (timeout : Z) (body : M A) : M A :=
  __enter__ timeout;;
  try_finally body __exit__.

End ContextManager.

(** ** What a run left behind *)

(** The events of [st'] that [st] did not have yet, latest first. *)
Definition since (st st' : State) : list event :=
  take (length (trace (env st')) - length (trace (env st))) (trace (env st')).

Definition is_write (key : string) (ev : event) : bool :=
  match ev with
  | Request (OpWrite k _) true => String.eqb k key
  | _ => false
  end.

Definition is_write_attempt (key : string) (ev : event) : bool :=
  match ev with
  | Request (OpWrite k _) _ => String.eqb k key
  | _ => false
  end.

Definition is_delete (key : string) (ev : event) : bool :=
  match ev with
  | Request (OpDelete k) true => String.eqb k key
  | _ => false
  end.

Definition is_sleep (ev : event) : bool :=
  match ev with Sleep _ => true | _ => false end.

Definition count (p : event -> bool) (l : list event) : nat :=
  length (List.filter p l).

(** The bucket after the requests of a trace. *)
Definition apply_event (ev : event) (b : gmap string string) : gmap string string :=
  match ev with
  | Request (OpWrite k content) true => <[k := content]> b
  | Request (OpDelete k) true => delete k b
  | _ => b
  end.

Definition replay (new : list event) (b : gmap string string) : gmap string string :=
  foldr apply_event b new.

Definition same_config (m m' : Manager) : Prop :=
  bucket m' = bucket m /\ db_filename m' = db_filename m /\
  local_path m' = local_path m /\ lock_timeout m' = lock_timeout m.

(** [st'] comes after [st]: the configuration is the same, the trace has
    grown by events that all satisfy [P], and the bucket changed by
    exactly the requests among them. *)
Definition grows (P : string -> event -> Prop) (st st' : State) : Prop :=
  same_config (self st) (self st') /\
  exists new,
    trace (env st') = new ++ trace (env st) /\
    Forall (P (db_filename (self st))) new /\
    blobs (env st') = replay new (blobs (env st)).

Definition keeps (P : string -> event -> Prop) {A} (c : M A) (st : State) : Prop :=
  grows P st (c st).2.

(** Events that leave the data alone: the only blob they write or delete
    is the lock, and they are no step of a transaction; [quiet] events are
    no wait either. *)
Definition quiet (db : string) (ev : event) : Prop :=
  match ev with
  | Request (OpWrite k _) _ | Request (OpDelete k) _ => k = db +:+ ".lock"
  | Request _ _ | Print _ => True
  | Sleep _ | Commit | Rollback | Close => False
  end.

(** Events that change nothing in the bucket. *)
Definition read_only (db : string) (ev : event) : Prop :=
  match ev with
  | Request (OpWrite _ _) _ | Request (OpDelete _) _ => False
  | Request _ _ | Print _ => True
  | Sleep _ | Commit | Rollback | Close => False
  end.

Definition lock_only (db : string) (ev : event) : Prop :=
  match ev with
  | Sleep _ => True
  | _ => quiet db ev
  end.

(** [st] after it printed [msgs], the latest first. *)
Definition said (msgs : list message) (st : State) : State :=
  {| self := self st;
     env := {| blobs := blobs (env st); files := files (env st); clock := clock (env st);
               oracle := oracle (env st); hostname := hostname (env st);
               pid := pid (env st); uuids := uuids (env st);
               trace := map Print msgs ++ trace (env st) |} |}.



(** ** The paths through [with_session] *)

(** What the caller's function finds when it is called in [st]. *)
Definition found_by (st : State) : string :=
  default (default EmptyString (files (env st) !! local_path (self st)))
    (pending (self st)).


(** [st] after [session.rollback()], the message and [session.close()]. *)
Definition rolled_back (e : exn) (st : State) : State :=
  {| self := with_pending None (self st);
     env := log Close (log (Print (ErrorInDatabaseOperation e)) (log Rollback (env st))) |}.

(** [st] after a [session.commit()] that wrote [content]. *)
Definition committed (content : string) (st : State) : State :=
  {| self := with_pending None (self st);
     env := log Commit
              (with_files (<[local_path (self st) := content]> (files (env st)))
                 (env st)) |}.

(** [st] after [session.close()]. *)
Definition closed (st : State) : State :=
  {| self := with_pending None (self st); env := log Close (env st) |}.

(** The five ways through [with_session]: the outcome and the final state
    of each, from the states in between. *)
Inductive session_path {lib : Library} {R : Type} (func : Transform R) (st : State) :
    outcome R -> State -> Prop :=
| lock_not_acquired e st1 :
    acquire_lock 60 st = (Raise e, st1) ->
    session_path func st (Raise e) st1
| store_not_made b st1 e st2 st' :
    acquire_lock 60 st = (Ok b, st1) ->
    download_db st1 = (Raise e, st2) ->
    release_lock st2 = (Ok tt, st') ->
    session_path func st (Raise e) st'
| transform_failed b st1 p st2 st3 e content st' :
    acquire_lock 60 st = (Ok b, st1) ->
    download_db st1 = (Ok p, st2) ->
    get_session st2 = (Ok tt, st3) ->
    func (found_by st3) = (Raises e, content) ->
    release_lock (rolled_back e st3) = (Ok tt, st') ->
    session_path func st (Raise e) st'
| commit_failed b st1 p st2 st3 r content e st' :
    acquire_lock 60 st = (Ok b, st1) ->
    download_db st1 = (Ok p, st2) ->
    get_session st2 = (Ok tt, st3) ->
    func (found_by st3) = (Returns r, content) ->
    commit_error (default EmptyString (files (env st3) !! local_path (self st3))) content
      = Some e ->
    release_lock (rolled_back e st3) = (Ok tt, st') ->
    session_path func st (Raise e) st'
| transaction_uploaded b st1 p st2 st3 r content st4 st' :
    acquire_lock 60 st = (Ok b, st1) ->
    download_db st1 = (Ok p, st2) ->
    get_session st2 = (Ok tt, st3) ->
    func (found_by st3) = (Returns r, content) ->
    commit_error (default EmptyString (files (env st3) !! local_path (self st3))) content
      = None ->
    upload_db (committed content st3) = (Ok tt, st4) ->
    release_lock (closed st4) = (Ok tt, st') ->
    session_path func st (Ok r) st'.

(** The oracle's word on the [n]-th coming request. *)
Definition coming (w : World) (n : nat) : step := nth n (oracle w) unremarkable.

(** What [models.initialize_db] does at [path] where it finds [found]: the
    exception it raises, if any, and the file that is at the path
    afterwards. *)
Definition bootstrap {lib : Library} (path : string) (found : option string)
    : option exn * option string :=
  match create_error path found with
  | Some (e, debris) =>
      (Some e, match debris with Some junk => Some junk | None => found end)
  | None => (None, Some (new_store found))
  end.

Definition keep_or_new {lib : Library} (found : option string) : string :=
  match found with
  | Some content => content
  | None => new_store None
  end.

(** How [download_db] ends, with the exception it raises, if any, and the
    file it leaves at [local_path], case by case:
    - without a bucket, or when the request that looks for the blob fails,
      the file that is there is kept, and a new store is made where none is;
    - when there is no blob, [models.initialize_db] is run on what is there;
      where that fails, the failure is caught, the file that is then there
      is kept, and a new store is made where none is;
    - when the blob is there and the download goes through, its content;
    - when the download fails, the file that is then there is kept (the one
      from before, or what the failed download left), and a new store is
      made where none is.
    The making of a store where none is stands outside the [try]: its
    exception is the one [download_db] raises. *)
Definition after_download {lib : Library} (st : State) : option exn * option string :=
  let m := self st in
  let w := env st in
  let found := files w !! local_path m in
  let recover := fun now : option string =>
    match now with
    | Some content => (None, Some content)
    | None => bootstrap (local_path m) None
    end in
  match bucket m with
  | None => recover found
  | Some _ =>
      if fails (coming w 0) then recover found
      else
        match blobs w !! db_filename m with
        | None =>
            match bootstrap (local_path m) found with
            | (Some _, now) => recover now
            | made => made
            end
        | Some content =>
            if fails (coming w 1)
            then recover (match leaves (coming w 1) with
                          | Some junk => Some junk
                          | None => found
                          end)
            else (None, Some content)
        end
  end.

(** The file at [local_path] where [download_db] returned. *)
Definition replica_after_download {lib : Library} (st : State) : string :=
  default EmptyString (after_download st).2.

(** The same file as the specification words it: the blob when it is
    there and the download goes through, and a brand-new store otherwise. *)
Definition replica_as_specified {lib : Library} (st : State) : string :=
  let m := self st in
  let w := env st in
  match blobs w !! db_filename m with
  | Some content =>
      if fails (coming w 0) || fails (coming w 1) then new_store None else content
  | None => new_store None
  end.

(** What a [DatabaseLockException] of the loop of [acquire_lock] tells:
    [st] is the state in which the loop was entered, [start] the time the
    wait began, [st'] the state in which the exception was raised, and
    [waits] the number of times the loop slept in between. *)
Definition lock_failure_explained {lib : Library} (timeout start : Z) (waits : nat)
    (st st' : State) (why : lock_failure) : Prop :=
  match why with
  | AfterSeconds t => t = timeout /\ seconds timeout < clock (env st') - start
  | AfterAttempts n owner =>
      n = S LOCK_RETRY_ATTEMPTS /\
      count is_sleep (since st st') = waits /\
      exists st_read info stored,
        _get_lock_info st_read = (Ok info, st') /\
        Py.get "lock_id" info = Ok stored /\
        owner = default (JStr "unknown") stored
  end.




(** A computation that leaves the manager alone and comes to an end. *)
Definition calm {A} (c : M A) : Prop :=
  forall st, self (c st).2 = self st /\ (c st).1 <> OutOfFuel.

(** ** Requests that go through *)

(** The world once its next request, [op], went through, before the
    request took effect. *)
Definition served (op : store_op) (w : World) : World :=
  log (Request op true) (advance (latency (coming w 0)) (next_step w).2).

(** Every request still to come goes through, and takes [d] at most. *)
Definition smooth (d : Z) (w : World) : bool :=
  forallb (fun s => negb (fails s) && (0 <=? latency s) && (latency s <=? d)) (oracle w).

(** Events of a wait: requests that change nothing, messages and sleeps. *)
Definition waiting (db : string) (ev : event) : Prop :=
  match ev with
  | Sleep _ => True
  | _ => read_only db ev
  end.

(** [st'] is [st] after a wait of [bound] at most: the manager, the bucket
    and the files are the same. *)
Definition lingers (bound : Z) (st st' : State) : Prop :=
  self st' = self st /\
  blobs (env st') = blobs (env st) /\ files (env st') = files (env st) /\
  clock (env st) <= clock (env st') <= clock (env st) + bound /\
  (forall d, smooth d (env st) = true -> smooth d (env st') = true) /\
  exists new,
    trace (env st') = new ++ trace (env st) /\
    Forall (waiting (db_filename (self st))) new.

(** Events of a release: the only blob they delete is the lock, and they
    write none. *)
Definition releasing (db : string) (ev : event) : Prop :=
  match ev with
  | Request (OpWrite _ _) _ => False
  | Request (OpDelete k) _ => k = db +:+ ".lock"
  | Request _ _ | Print _ => True
  | Sleep _ | Commit | Rollback | Close => False
  end.

(** Events of the loop of [acquire_lock]: those of its turns, and sleeps of
    [LOCK_RETRY_DELAY] seconds. *)
Definition retrying (db : string) (ev : event) : Prop :=
  match ev with
  | Sleep n => n = LOCK_RETRY_DELAY
  | _ => quiet db ev
  end.

Definition is_fetch (key : string) (ev : event) : bool :=
  match ev with
  | Request (OpFetch k _) true => String.eqb k key
  | _ => false
  end.

(** The [lock_id] that [_generate_lock_id] makes in the world [w], and the
    lease that [_create_lock] then writes. *)
Definition lock_id_at {lib : Library} (w : World) : string :=
  hostname w +:+ "-" +:+ pretty (pid w) +:+ "-" +:+ hd EmptyString (uuids w)
    +:+ "-" +:+ strftime_compact (clock w).

Definition lease_at {lib : Library} (w : World) : json :=
  JObj [("lock_id", JStr (lock_id_at w)); ("timestamp", JStr (isoformat (clock w)));
        ("hostname", JStr (hostname w)); ("pid", JNum (pid w))].

(** * The models and the operations of the manager on them

    The classes of [models.py], with the columns that their methods and
    the operations of [DatabaseManager] read or write; the columns that
    the database fills when a row is inserted ([created_at], [timestamp])
    are left out.  A table is the list of its rows, the oldest first. *)

(** [sep.join(parts)] *)
Fixpoint str_join (sep : string) (parts : list string) : string :=
  match parts with
  | [] => EmptyString
  | p :: rest =>
      match rest with
      | [] => p
      | _ :: _ => p +:+ sep +:+ str_join sep rest
      end
  end.

(** [s.split(sep)], for a separator of one character *)
Fixpoint str_split (sep : ascii) (s : string) : list string :=
  match s with
  | EmptyString => [EmptyString]
  | String c rest =>
      if Ascii.eqb c sep then EmptyString :: str_split sep rest
      else
        match str_split sep rest with
        | piece :: pieces => String c piece :: pieces
        | [] => [String c EmptyString]
        end
  end.

Definition comma : ascii := ","%char.

Fixpoint has_char (c : ascii) (s : string) : bool :=
  match s with
  | EmptyString => false
  | String c' rest => Ascii.eqb c' c || has_char c rest
  end.

(** A plugin name that the list of a secret can hold as it is: not empty
    and without a comma. *)
Definition plain (p : string) : bool :=
  negb (String.eqb p EmptyString) && negb (has_char comma p).

(** [bool(s)] for an [Optional[str]] *)
Definition str_truthy (s : option string) : bool :=
  match s with
  | Some s => negb (String.eqb s EmptyString)
  | None => false
  end.

(** [x in xs] for a list of [str] *)
Definition str_in (x : string) (xs : list string) : bool := existsb (String.eqb x) xs.

Module User.

Record t := { id : string; name : option string; email : option string }.

(** [User(id=user_id)] *)
Definition of_id (user_id : string) : t :=
  {| id := user_id; name := None; email := None |}.

End User.

Module CheckIn.

Record t := {
  id : string;
  user_id : string;
  raw_input : string;
  structured_data : option string      (* a JSON text *)
}.

Section Json.
Context {lib : Library}.

Definition create (uuid user_id raw_input : string) (structured_data : json) : t :=
  {| id := uuid; user_id := user_id; raw_input := raw_input;
     structured_data := Some (json_dumps structured_data) |}.

(** The property [parsed_data]; [None] where [json.loads] raises. *)
Definition parsed_data (c : t) : option json :=
  if str_truthy (structured_data c)
  then json_loads (default EmptyString (structured_data c))
  else Some (JObj []).

End Json.

End CheckIn.

Module Goal.

Record t := {
  id : string;
  user_id : string;
  name : string;
  description : option string;
  achieved_at : option Z
}.

Definition create (uuid user_id name : string) (description : option string) : t :=
  {| id := uuid; user_id := user_id; name := name; description := description;
     achieved_at := None |}.

(** [mark_achieved], at the time [now] *)
Definition mark_achieved (now : Z) (g : t) : t :=
  {| id := id g; user_id := user_id g; name := name g; description := description g;
     achieved_at := Some now |}.

Definition is_achieved (g : t) : bool := bool_decide (achieved_at g <> None).

End Goal.

Module PersonaVersion.

Record t := {
  id : string;
  name : string;
  system_prompt : string;
  user_behavior_summary : option string;
  is_active : bool
}.

Definition create (uuid name system_prompt : string)
    (user_behavior_summary : option string) (is_active : bool) : t :=
  {| id := uuid; name := name; system_prompt := system_prompt;
     user_behavior_summary := user_behavior_summary; is_active := is_active |}.

Definition set_is_active (v : bool) (p : t) : t :=
  {| id := id p; name := name p; system_prompt := system_prompt p;
     user_behavior_summary := user_behavior_summary p; is_active := v |}.

End PersonaVersion.

Module PluginRegistry.

Record t := {
  plugin_id : string;
  version : string;
  description : option string;
  last_updated : option Z       (* [None]: left to the database *)
}.

Definition create (plugin_id version : string) (description : option string) : t :=
  {| plugin_id := plugin_id; version := version; description := description;
     last_updated := None |}.

End PluginRegistry.

Module Secret.

Record t := {
  name : string;
  status : string;                (* "missing" or "present" *)
  used_by : option string         (* the plugin names, with commas between *)
}.

Definition create (name : string) (used_by : option (list string)) : t :=
  let used_by_str :=
    match used_by with
    | Some (p :: ps) => str_join "," (p :: ps)
    | _ => EmptyString
    end in
  {| name := name; status := "missing"; used_by := Some used_by_str |}.

Definition mark_present (s : t) : t :=
  {| name := name s; status := "present"; used_by := used_by s |}.

Definition plugin_ids (s : t) : list string :=
  if negb (str_truthy (used_by s)) then []
  else str_split comma (default EmptyString (used_by s)).

Definition add_plugin (plugin_id : string) (s : t) : t :=
  let plugin_ids := plugin_ids s in
  if negb (str_in plugin_id plugin_ids)
  then {| name := name s; status := status s;
          used_by := Some (str_join "," (plugin_ids ++ [plugin_id])) |}
  else s.

End Secret.

(** What a session sees of the database: one list of rows for each table.
    A row that [session.add] puts in comes last. *)
Record Session := {
  users : list User.t;
  checkins : list CheckIn.t;
  goals : list Goal.t;
  persona_versions : list PersonaVersion.t;
  plugin_registry : list PluginRegistry.t;
  secrets : list Secret.t
}.

Definition with_users (v : list User.t) (s : Session) : Session :=
  {| users := v; checkins := checkins s; goals := goals s;
     persona_versions := persona_versions s; plugin_registry := plugin_registry s;
     secrets := secrets s |}.

Definition with_checkins (v : list CheckIn.t) (s : Session) : Session :=
  {| users := users s; checkins := v; goals := goals s;
     persona_versions := persona_versions s; plugin_registry := plugin_registry s;
     secrets := secrets s |}.

Definition with_goals (v : list Goal.t) (s : Session) : Session :=
  {| users := users s; checkins := checkins s; goals := v;
     persona_versions := persona_versions s; plugin_registry := plugin_registry s;
     secrets := secrets s |}.

Definition with_persona_versions (v : list PersonaVersion.t) (s : Session) : Session :=
  {| users := users s; checkins := checkins s; goals := goals s;
     persona_versions := v; plugin_registry := plugin_registry s;
     secrets := secrets s |}.

Definition with_plugin_registry (v : list PluginRegistry.t) (s : Session) : Session :=
  {| users := users s; checkins := checkins s; goals := goals s;
     persona_versions := persona_versions s; plugin_registry := v;
     secrets := secrets s |}.

Definition with_secrets (v : list Secret.t) (s : Session) : Session :=
  {| users := users s; checkins := checkins s; goals := goals s;
     persona_versions := persona_versions s; plugin_registry := plugin_registry s;
     secrets := v |}.

(** [query.filter(p).first()] *)
Definition first {A} (p : A -> bool) (rows : list A) : option A := List.find p rows.

(** The table once the object that [first p] found was changed by [f]. *)
Fixpoint amend {A} (p : A -> bool) (f : A -> A) (rows : list A) : list A :=
  match rows with
  | [] => []
  | row :: rest => if p row then f row :: rest else row :: amend p f rest
  end.

Module models.

(** [initialize_db], from the session it opens once the engine is made and
    the tables are there: the first persona is added unless an active one
    is found.  [uuid] is the UUID that [PersonaVersion.create] draws. *)
Definition initialize_db (uuid : string) (s : Session) : Session :=
  match first PersonaVersion.is_active (persona_versions s) with
  | Some _ => s
  | None =>
      let initial_persona :=
        PersonaVersion.create uuid "Friendly Wellness Guide"
          "You are a friendly wellness assistant who helps users maintain their wellbeing through thoughtful check-ins and guidance."
          None true in
      with_persona_versions (persona_versions s ++ [initial_persona]) s
  end.

End models.

(** The functions that the operations of [DatabaseManager] pass to
    [with_session], each in a module with the name of its operation; the
    UUID that a [create] draws and the time that [datetime.utcnow()] gives
    are arguments. *)

Module store_checkin.
Section Json.
Context {lib : Library}.
Definition _store (uuid user_id raw_input : string) (structured_data : json)
    (s : Session) : CheckIn.t * Session :=
  let s :=
    match first (fun u => String.eqb (User.id u) user_id) (users s) with
    | Some _ => s
    | None => with_users (users s ++ [User.of_id user_id]) s
    end in
  let checkin := CheckIn.create uuid user_id raw_input structured_data in
  (checkin, with_checkins (checkins s ++ [checkin]) s).
End Json.
End store_checkin.

Module create_goal.
Definition _create (uuid user_id name : string) (description : option string)
    (s : Session) : Goal.t * Session :=
  let s :=
    match first (fun u => String.eqb (User.id u) user_id) (users s) with
    | Some _ => s
    | None => with_users (users s ++ [User.of_id user_id]) s
    end in
  let goal := Goal.create uuid user_id name description in
  (goal, with_goals (goals s ++ [goal]) s).
End create_goal.

Module mark_goal_achieved.
Definition _update (now : Z) (goal_id : string) (s : Session) : option Goal.t * Session :=
  let found := fun g => String.eqb (Goal.id g) goal_id in
  match first found (goals s) with
  | Some goal =>
      (Some (Goal.mark_achieved now goal),
       with_goals (amend found (Goal.mark_achieved now) (goals s)) s)
  | None => (None, s)
  end.
End mark_goal_achieved.

Module create_persona_version.
Definition _create (uuid name system_prompt : string)
    (user_behavior_summary : option string) (is_active : bool) (s : Session)
    : PersonaVersion.t * Session :=
  let existing :=
    if is_active
    then map (fun p => if PersonaVersion.is_active p
                       then PersonaVersion.set_is_active false p else p)
           (persona_versions s)
    else persona_versions s in
  let persona :=
    PersonaVersion.create uuid name system_prompt user_behavior_summary is_active in
  (persona, with_persona_versions (existing ++ [persona]) s).
End create_persona_version.

Module register_plugin.
Definition _register (now : Z) (plugin_id version : string) (description : option string)
    (s : Session) : PluginRegistry.t * Session :=
  let found := fun p => String.eqb (PluginRegistry.plugin_id p) plugin_id in
  match first found (plugin_registry s) with
  | Some plugin =>
      let change := fun p =>
        {| PluginRegistry.plugin_id := PluginRegistry.plugin_id p;
           PluginRegistry.version := version;
           PluginRegistry.description :=
             if str_truthy description then description else PluginRegistry.description p;
           PluginRegistry.last_updated := Some now |} in
      (change plugin, with_plugin_registry (amend found change (plugin_registry s)) s)
  | None =>
      let plugin := PluginRegistry.create plugin_id version description in
      (plugin, with_plugin_registry (plugin_registry s ++ [plugin]) s)
  end.
End register_plugin.

Module get_plugin_registry.
(** [{plugin.plugin_id: plugin for plugin in plugins}] *)
Definition _query (s : Session) : gmap string PluginRegistry.t * Session :=
  (foldl (fun d p => <[PluginRegistry.plugin_id p := p]> d) ∅ (plugin_registry s), s).
End get_plugin_registry.

Module track_secret.
Definition _track (name : string) (used_by : option (list string)) (s : Session)
    : Secret.t * Session :=
  let found := fun x => String.eqb (Secret.name x) name in
  match first found (secrets s) with
  | Some secret =>
      let change := fun x =>
        match used_by with
        | Some (p :: ps) => foldl (fun x plugin_id => Secret.add_plugin plugin_id x) x (p :: ps)
        | _ => x
        end in
      (change secret, with_secrets (amend found change (secrets s)) s)
  | None =>
      let secret := Secret.create name used_by in
      (secret, with_secrets (secrets s ++ [secret]) s)
  end.
End track_secret.

Module mark_secret_present.
Definition _update (name : string) (s : Session) : option Secret.t * Session :=
  let found := fun x => String.eqb (Secret.name x) name in
  match first found (secrets s) with
  | Some secret =>
      (Some (Secret.mark_present secret),
       with_secrets (amend found Secret.mark_present (secrets s)) s)
  | None => (None, s)
  end.
End mark_secret_present.

Module get_missing_secrets.
Definition _query (s : Session) : list Secret.t * Session :=
  (List.filter (fun x => String.eqb (Secret.status x) "missing") (secrets s), s).
End get_missing_secrets.

(** ** An instance of the library, for the examples

    Serialisation is written out, for strings without characters to
    escape. *)

Module Fixture.

Definition quote : string := String (ascii_of_nat 34) EmptyString.

Definition join (sep : string) (parts : list string) : string :=
  match parts with
  | [] => EmptyString
  | p :: rest => fold_left (fun acc x => acc +:+ sep +:+ x) rest p
  end.

Fixpoint dumps (v : json) : string :=
  match v with
  | JNull => "null"
  | JBool true => "true"
  | JBool false => "false"
  | JNum n => pretty n
  | JStr s => quote +:+ s +:+ quote
  | JArr items => "[" +:+ join ", " (map dumps items) +:+ "]"
  | JObj fields =>
      "{" +:+ join ", " (map (fun kv => quote +:+ kv.1 +:+ quote +:+ ": " +:+ dumps kv.2)
                           fields) +:+ "}"
  end.

(** Days since 1970-01-01 to year, month, day. *)
Definition civil (days : Z) : Z * Z * Z :=
  let z := days + 719468 in
  let era := z / 146097 in
  let doe := z - era * 146097 in
  let yoe := (doe - doe / 1460 + doe / 36524 - doe / 146096) / 365 in
  let doy := doe - (365 * yoe + yoe / 4 - yoe / 100) in
  let mp := (5 * doy + 2) / 153 in
  let d := doy - (153 * mp + 2) / 5 + 1 in
  let m := if mp <? 10 then mp + 3 else mp - 9 in
  (if m <=? 2 then yoe + era * 400 + 1 else yoe + era * 400, m, d).

Definition digits (width : nat) (n : Z) : string :=
  let s := pretty n in
  String.concat EmptyString (repeat "0"%string (width - String.length s)) +:+ s.

Definition clock_parts (t : Z) : Z * Z * Z * (Z * Z * Z) * Z :=
  let secs := t / 1000000 in
  let sod := secs mod 86400 in
  (civil (secs / 86400), (sod / 3600, sod mod 3600 / 60, sod mod 60), t mod 1000000).

Definition iso (t : Z) : string :=
  let '(y, mo, d, (h, mi, sec), us) := clock_parts t in
  digits 4 y +:+ "-" +:+ digits 2 mo +:+ "-" +:+ digits 2 d +:+ "T" +:+
  digits 2 h +:+ ":" +:+ digits 2 mi +:+ ":" +:+ digits 2 sec +:+
  (if us =? 0 then EmptyString else "." +:+ digits 6 us).

Definition compact (t : Z) : string :=
  let '(y, mo, d, (h, mi, sec), _) := clock_parts t in
  digits 4 y +:+ digits 2 mo +:+ digits 2 d +:+ digits 2 h +:+ digits 2 mi +:+ digits 2 sec.

(** The parsers read the texts that [dumps] and [iso] write: an object of
    strings and integers, and a date and time, with any character where
    [iso] writes the T.  What they accept, Python's accept and read the
    same; they refuse other texts that Python's read (JSON spaced
    otherwise, a date alone, an offset from UTC). *)
Fixpoint until_quote (s : string) : option (string * string) :=
  match s with
  | EmptyString => None
  | String c rest =>
      if Ascii.eqb c (ascii_of_nat 34) then Some (EmptyString, rest)
      else match until_quote rest with
           | Some (before, after) => Some (String c before, after)
           | None => None
           end
  end.

Definition is_digit (c : ascii) : bool :=
  (48 <=? nat_of_ascii c)%nat && (nat_of_ascii c <=? 57)%nat.

Fixpoint leading_digits (s : string) : string * string :=
  match s with
  | String c rest =>
      if is_digit c
      then let (ds, after) := leading_digits rest in (String c ds, after)
      else (EmptyString, s)
  | EmptyString => (EmptyString, EmptyString)
  end.

Fixpoint number_from (acc : Z) (ds : string) : Z :=
  match ds with
  | String c rest => number_from (10 * acc + Z.of_nat (nat_of_ascii c - 48)) rest
  | EmptyString => acc
  end.

Definition number (ds : string) : option Z :=
  match leading_digits ds with
  | (String c more, EmptyString) => Some (number_from 0 (String c more))
  | _ => None
  end.

Definition value (s : string) : option (json * string) :=
  match s with
  | String c rest =>
      if Ascii.eqb c (ascii_of_nat 34)
      then match until_quote rest with
           | Some (text, after) => Some (JStr text, after)
           | None => None
           end
      else match leading_digits s with
           | (String d ds, after) => Some (JNum (number_from 0 (String d ds)), after)
           | _ => None
           end
  | EmptyString => None
  end.

Definition after_prefix (p s : string) : option string :=
  if String.prefix p s
  then Some (String.substring (String.length p) (String.length s - String.length p) s)
  else None.

Fixpoint fields_from (fuel : nat) (s : string) : option (list (string * json)) :=
  match fuel with
  | O => None
  | S fuel' =>
      match after_prefix quote s with
      | None => None
      | Some s1 =>
          match until_quote s1 with
          | None => None
          | Some (key, s2) =>
              match after_prefix ": " s2 with
              | None => None
              | Some s3 =>
                  match value s3 with
                  | None => None
                  | Some (v, s4) =>
                      if String.eqb s4 "}" then Some [(key, v)]
                      else match after_prefix ", " s4 with
                           | None => None
                           | Some s5 =>
                               match fields_from fuel' s5 with
                               | Some more => Some ((key, v) :: more)
                               | None => None
                               end
                           end
                  end
              end
          end
      end
  end.

Definition loads (text : string) : option json :=
  match after_prefix "{" text with
  | None => None
  | Some rest =>
      let read := if String.eqb rest "}" then Some []
                  else fields_from (String.length text) rest in
      match read with
      | Some fields => if String.eqb (dumps (JObj fields)) text then Some (JObj fields)
                       else None
      | None => None
      end
  end.

(** Year, month, day to days since 1970-01-01. *)
Definition days_from_civil (y m d : Z) : Z :=
  let y := if m <=? 2 then y - 1 else y in
  let era := y / 400 in
  let yoe := y - era * 400 in
  let mp := (m + 9) mod 12 in
  let doy := (153 * mp + 2) / 5 + d - 1 in
  let doe := yoe * 365 + yoe / 4 - yoe / 100 + doy in
  era * 146097 + doe - 719468.

Definition part (from len : nat) (s : string) : option Z :=
  number (String.substring from len s).

(** [text] with a T between the date and the time, where
    [datetime.fromisoformat] lets any one character stand. *)
Definition with_T (text : string) : string :=
  String.substring 0 10 text +:+ "T" +:+
  String.substring 11 (String.length text - 11) text.

Definition parse_time (text : string) : option Z :=
  match part 0 4 text, part 5 2 text, part 8 2 text,
        part 11 2 text, part 14 2 text, part 17 2 text with
  | Some y, Some mo, Some d, Some h, Some mi, Some sec =>
      let us := if (String.length text =? 26)%nat
                then default 0 (part 20 6 text) else 0 in
      let t := ((days_from_civil y mo d * 86400 + h * 3600 + mi * 60 + sec) * 1000000
                + us) in
      if String.eqb (iso t) (with_T text) then Some t else None
  | _, _, _, _, _, _ => None
  end.

(** 2024-01-01T00:00:00 *)
Definition new_year : Z := 1704067200000000.

Definition lease_fields (id : string) (t : Z) (host : string) (p : Z) :
    list (string * json) :=
  [("lock_id", JStr id); ("timestamp", JStr (iso t));
   ("hostname", JStr host); ("pid", JNum p)].

Definition lease (id : string) (t : Z) (host : string) (p : Z) : json :=
  JObj (lease_fields id t host p).

Definition lease_a : json := lease "worker-a-17-0a1b2c3d-20240101000000" new_year "worker-a" 17.

Definition lease_b : json :=
  lease "worker-b-23-9f8e7d6c-20240101000640" (new_year + seconds 400) "worker-b" 23.

Definition empty_store : string := "schema, one persona".

Definition library : Library :=
  {| json_loads := loads;
     json_dumps := dumps;
     fromisoformat := parse_time;
     isoformat := iso;
     strftime_compact := compact;
     new_store := fun found => default empty_store found;
     create_error := fun _ _ => None;
     commit_error := fun _ _ => None |}.

Definition manager (b : option string) (id : option string) : Manager :=
  {| bucket := b; db_filename := "lifegoal.db"; local_path := "/tmp/lifegoal.db";
     engine := false; lock_timeout := MAX_LOCK_AGE; lock_id := id; pending := None |}.

Definition world (b f : gmap string string) (t : Z) (o : list step) : World :=
  {| blobs := b; files := f; clock := t; oracle := o; hostname := "worker-b"; pid := 23;
     uuids := ["9f8e7d6c"; "5b4a3f2e"; "c0ffee11"; "7a6b5c4d"; "0d1e2f3a"; "b1b2b3b4"];
     trace := [] |}.

Definition works : step := {| fails := false; latency := 0; leaves := None |}.
Definition breaks : step := {| fails := true; latency := 0; leaves := None |}.

Definition lock_key : string := "lifegoal.db.lock".
Definition data_key : string := "lifegoal.db".
Definition path : string := "/tmp/lifegoal.db".

Definition state (b id : option string) (bl fl : gmap string string) (t : Z)
    (o : list step) : State :=
  {| self := manager b id; env := world bl fl t o |}.

(** The bucket holds the data and no lease; every request goes through. *)
Definition free : State :=
  state (Some "bucket") None {[ data_key := "remote replica" ]} ∅ (new_year + seconds 400) [].

(** The same without a bucket, and with a file. *)
Definition local_only : State :=
  state None None ∅ {[ path := "local replica" ]} (new_year + seconds 400) [].

(** The lease of worker a, five minutes and one second old; six turns of
    the loop have waited already. *)
Definition stale_lease : State :=
  state (Some "bucket") None {[ lock_key := dumps lease_a ]} ∅
    (new_year + seconds 301) [works; works; works; works; works; works].


(** The lease of worker a, ten seconds old. *)
Definition live_lease : State :=
  state (Some "bucket") None {[ lock_key := dumps lease_a ]} ∅ (new_year + seconds 10) [].

(** This instance took the lock before, and the lease of worker a has
    replaced its own since. *)
Definition overtaken : State :=
  state (Some "bucket") (Some "worker-b-23-9f8e7d6c-20231231235000")
    {[ lock_key := dumps lease_a ]} ∅ (new_year + seconds 10) [].

(** This instance holds the lock, taken through [DatabaseLock] five seconds
    ago, when it calls [with_session]. *)
Definition holding : State :=
  state (Some "bucket") (Some "worker-b-23-9f8e7d6c-20240101000640")
    {[ lock_key := dumps lease_b; data_key := "remote replica" ]} ∅
    (new_year + seconds 405) [].


(** [free], where the seventh request, the write of the canonical blob,
    fails; and where the eighth, the write of the backup, does. *)
Definition canonical_write_fails : State :=
  state (Some "bucket") None {[ data_key := "remote replica" ]} ∅ (new_year + seconds 400)
    [works; works; works; works; works; works; breaks].

Definition backup_write_fails : State :=
  state (Some "bucket") None {[ data_key := "remote replica" ]} ∅ (new_year + seconds 400)
    [works; works; works; works; works; works; works; breaks].

(** A download that fails once [blob.download_to_filename] has opened the
    file for writing: what it leaves is an empty file. *)
Definition cut_off : step := {| fails := true; latency := 0; leaves := Some EmptyString |}.

(** A file is at [local_path] and the download of the blob fails. *)
Definition fetch_fails : State :=
  state (Some "bucket") None {[ data_key := "remote replica" ]}
    {[ path := "stale replica" ]} (new_year + seconds 400) [works; cut_off].

(** No file is at [local_path] and the look for the blob fails. *)
Definition blob_out_of_reach : State :=
  state (Some "bucket") None {[ data_key := "remote replica" ]} ∅
    (new_year + seconds 400) [breaks].

(** A library with which no store can be made: [models.initialize_db]
    raises, and leaves nothing at the path. *)
Definition no_disk_library : Library :=
  {| json_loads := loads;
     json_dumps := dumps;
     fromisoformat := parse_time;
     isoformat := iso;
     strftime_compact := compact;
     new_store := fun found => default empty_store found;
     create_error := fun _ _ => Some (CallerError "OperationalError", None);
     commit_error := fun _ _ => None |}.

Definition add_a_row : Transform nat := fun found => (Returns 7%nat, found +:+ ", one row").


(** A lock blob that holds a number. *)
Definition scalar_lease : State :=
  state (Some "bucket") None {[ lock_key := "7" ]} ∅ (new_year + seconds 10) [].

(** [loads], which reads a whole number as well, and the library with it. *)
Definition loads_number (text : string) : option json :=
  match number text with
  | Some n => if String.eqb (pretty n) text then Some (JNum n) else None
  | None => loads text
  end.

Definition number_library : Library :=
  {| json_loads := loads_number;
     json_dumps := dumps;
     fromisoformat := parse_time;
     isoformat := iso;
     strftime_compact := compact;
     new_store := fun found => default empty_store found;
     create_error := fun _ _ => None;
     commit_error := fun _ _ => None |}.

(** The lease of worker a, ten seconds old, where the look for the lock
    fails and the write that follows goes through. *)
Definition look_fails : State :=
  state (Some "bucket") None {[ lock_key := dumps lease_a ]} ∅ (new_year + seconds 10)
    [breaks; works].

(** [holding], where the delete of the lock blob fails. *)
Definition delete_fails : State :=
  state (Some "bucket") (Some "worker-b-23-9f8e7d6c-20240101000640")
    {[ lock_key := dumps lease_b; data_key := "remote replica" ]} ∅
    (new_year + seconds 405) [works; works; breaks].

(** Another instance on the same bucket, with a file of its own. *)
Definition other_instance : Manager :=
  {| bucket := Some "bucket"; db_filename := "lifegoal.db"; local_path := "/tmp/other.db";
     engine := false; lock_timeout := MAX_LOCK_AGE; lock_id := None; pending := None |}.



(** A secret that two plugins use, a registered plugin, two personas of
    which one is active, and a user. *)
Definition api_key : Secret.t :=
  {| Secret.name := "API_KEY"; Secret.status := "missing";
     Secret.used_by := Some "calendar,weather" |}.

Definition calendar : PluginRegistry.t :=
  {| PluginRegistry.plugin_id := "calendar"; PluginRegistry.version := "v1.py";
     PluginRegistry.description := Some "Calendar integration";
     PluginRegistry.last_updated := None |}.

Definition guide : PersonaVersion.t :=
  {| PersonaVersion.id := "p-1"; PersonaVersion.name := "Guide";
     PersonaVersion.system_prompt := "Be kind."; PersonaVersion.user_behavior_summary := None;
     PersonaVersion.is_active := true |}.

Definition coach : PersonaVersion.t :=
  {| PersonaVersion.id := "p-2"; PersonaVersion.name := "Coach";
     PersonaVersion.system_prompt := "Be firm."; PersonaVersion.user_behavior_summary := None;
     PersonaVersion.is_active := false |}.

Definition tables : Session :=
  {| users := [{| User.id := "U1"; User.name := Some "Ada"; User.email := None |}];
     checkins := []; goals := [];
     persona_versions := [guide; coach];
     plugin_registry := [calendar];
     secrets := [api_key] |}.

End Fixture.

(** * Properties *)

(** ** Running the monad *)

Lemma bind_run {A B} (c : M A) (k : A -> M B) st :
  (c ≫= k) st =
  match c st with
  | (Ok a, st') => k a st'
  | (Raise e, st') => (Raise e, st')
  | (OutOfFuel, st') => (OutOfFuel, st')
  end.
Proof. reflexivity. Qed.

Lemma bind_ok {A B} (c : M A) (k : A -> M B) st a st' :
  c st = (Ok a, st') -> (c ≫= k) st = k a st'.
Proof. intros H. rewrite bind_run, H. reflexivity. Qed.

Lemma bind_raise {A B} (c : M A) (k : A -> M B) st e st' :
  c st = (Raise e, st') -> (c ≫= k) st = (Raise e, st').
Proof. intros H. rewrite bind_run, H. reflexivity. Qed.

Lemma since_app st st' new :
  trace (env st') = new ++ trace (env st) -> since st st' = new.
Proof.
  intros H. unfold since. rewrite H, length_app.
  replace (length new + length (trace (env st)) - length (trace (env st)))%nat
    with (length new) by lia.
  apply take_app_length.
Qed.

Lemma replay_app new1 new2 b : replay (new1 ++ new2) b = replay new1 (replay new2 b).
Proof. unfold replay. apply foldr_app. Qed.

(** ** Composing what a computation leaves behind *)

Section Grows.
Variable P : string -> event -> Prop.

Lemma same_config_refl m : same_config m m.
Proof. repeat split. Qed.

Lemma same_config_trans m1 m2 m3 :
  same_config m1 m2 -> same_config m2 m3 -> same_config m1 m3.
Proof. unfold same_config. intuition congruence. Qed.

Lemma grows_refl st : grows P st st.
Proof.
  split; [apply same_config_refl|]. exists []. repeat split. constructor.
Qed.

Lemma grows_trans st1 st2 st3 : grows P st1 st2 -> grows P st2 st3 -> grows P st1 st3.
Proof.
  intros [C1 (n1 & T1 & F1 & B1)] [C2 (n2 & T2 & F2 & B2)].
  split; [eapply same_config_trans; eauto|].
  exists (n2 ++ n1). rewrite T2, T1, B2, B1, replay_app, app_assoc.
  repeat split. apply Forall_app. split; [|assumption].
  destruct C1 as (_ & <- & _). assumption.
Qed.

Lemma grows_event st ev :
  P (db_filename (self st)) ev ->
  match ev with Request (OpWrite _ _) true | Request (OpDelete _) true => False
           | _ => True end ->
  grows P st {| self := self st; env := log ev (env st) |}.
Proof.
  intros HP Hev. split; [apply same_config_refl|]. exists [ev]. cbn.
  repeat split; [by constructor|].
  destruct ev as [[] []| | | | |]; cbn; tauto.
Qed.

Lemma keeps_ret {A} (a : A) st : keeps P (mret a) st.
Proof. apply grows_refl. Qed.

Lemma keeps_raise {A} e st : keeps P (@raise A e) st.
Proof. apply grows_refl. Qed.

Lemma keeps_lift {A} (r : outcome A) st : keeps P (lift r) st.
Proof. apply grows_refl. Qed.

Lemma keeps_out_of_fuel {A} st : keeps P (@out_of_fuel A) st.
Proof. apply grows_refl. Qed.

Lemma keeps_bind {A B} (c : M A) (k : A -> M B) st :
  keeps P c st ->
  (forall a st', c st = (Ok a, st') -> grows P st st' -> keeps P (k a) st') ->
  keeps P (c ≫= k) st.
Proof.
  unfold keeps. intros Hc Hk. rewrite bind_run.
  destruct (c st) as [[a|e|] st'] eqn:E; cbn in *; [|assumption..].
  eapply grows_trans; [exact Hc|]. by apply Hk.
Qed.

Lemma keeps_get_self {B} (k : Manager -> M B) st :
  keeps P (k (self st)) st -> keeps P (get_self ≫= k) st.
Proof. exact id. Qed.

Lemma keeps_get_env {B} (k : World -> M B) st :
  keeps P (k (env st)) st -> keeps P (get_env ≫= k) st.
Proof. exact id. Qed.

Lemma keeps_try_except {A} (body : M A) handler st :
  keeps P body st ->
  (forall e st', body st = (Raise e, st') -> grows P st st' -> keeps P (handler e) st') ->
  keeps P (try_except body handler) st.
Proof.
  unfold keeps, try_except. intros Hb Hh.
  destruct (body st) as [[a|e|] st'] eqn:E; cbn in *; [assumption| |assumption].
  eapply grows_trans; [exact Hb|]. by apply Hh.
Qed.

Lemma keeps_try_finally {A} (body : M A) cleanup st :
  keeps P body st ->
  (forall r st', body st = (r, st') -> grows P st st' -> keeps P cleanup st') ->
  keeps P (try_finally body cleanup) st.
Proof.
  unfold keeps, try_finally. intros Hb Hc.
  destruct (body st) as [[a|e|] st'] eqn:E; cbn in *; [| |assumption].
  - specialize (Hc _ _ eq_refl Hb).
    destruct (cleanup st') as [[[]|e'|] st'']; cbn in *; eapply grows_trans; eauto.
  - specialize (Hc _ _ eq_refl Hb).
    destruct (cleanup st') as [[[]|e'|] st'']; cbn in *; eapply grows_trans; eauto.
Qed.

Lemma keeps_when b c st : keeps P c st -> keeps P (when_ b c) st.
Proof. destruct b; [exact id|]. intros _. apply grows_refl. Qed.

Lemma keeps_set_self f st :
  same_config (self st) (f (self st)) -> keeps P (set_self f) st.
Proof.
  intros H. split; [exact H|]. exists []. repeat split. constructor.
Qed.

Lemma keeps_print m st :
  P (db_filename (self st)) (Print m) -> keeps P (print m) st.
Proof. intros H. by apply grows_event. Qed.

Lemma keeps_sleep n st :
  P (db_filename (self st)) (Sleep n) -> keeps P (sleep n) st.
Proof.
  intros H. split; [apply same_config_refl|]. exists [Sleep n].
  repeat split. by constructor.
Qed.

Lemma keeps_now st : keeps P now st.
Proof. apply grows_refl. Qed.

Lemma keeps_path_exists path st : keeps P (path_exists path) st.
Proof. apply grows_refl. Qed.

(** A request that only reads the bucket. *)
Lemma keeps_request_read {A} op (effect : World -> outcome A * World) debris st :
  (forall ok, P (db_filename (self st)) (Request op ok)) ->
  match op with OpWrite _ _ | OpDelete _ => False | _ => True end ->
  (forall w, trace (effect w).2 = trace w /\ blobs (effect w).2 = blobs w) ->
  (forall s w, trace (debris s w) = trace w /\ blobs (debris s w) = blobs w) ->
  keeps P (request_leaving op effect debris) st.
Proof.
  intros HP Hop Heff Hdeb. unfold keeps, request_leaving.
  destruct (next_step (env st)) as [s w] eqn:E.
  assert (Hw : trace w = trace (env st) /\ blobs w = blobs (env st)).
  { unfold next_step in E. destruct (oracle (env st)); inversion E; subst; by cbn. }
  destruct Hw as [Ht Hb].
  split; [destruct (fails s); [|destruct (effect _)]; apply same_config_refl|].
  destruct (fails s); cbn.
  - exists [Request op false].
    destruct (Hdeb s (log (Request op false) (advance (latency s) w))) as [-> ->].
    cbn. rewrite Ht, Hb.
    repeat split; [by constructor|]. by destruct op.
  - destruct (effect _) as [r w'] eqn:E'. cbn.
    specialize (Heff (log (Request op true) (advance (latency s) w))).
    rewrite E' in Heff. cbn in Heff. destruct Heff as [-> ->].
    exists [Request op true]. rewrite Ht, Hb. cbn.
    repeat split; [by constructor|]. by destruct op.
Qed.

Lemma keeps_blob_exists key st :
  (forall ok, P (db_filename (self st)) (Request (OpExists key) ok)) ->
  keeps P (blob_exists key) st.
Proof. intros H. by apply keeps_request_read. Qed.

Lemma keeps_blob_download_as_text key st :
  (forall ok, P (db_filename (self st)) (Request (OpRead key) ok)) ->
  keeps P (blob_download_as_text key) st.
Proof.
  intros H. apply keeps_request_read; [done..| |done].
  intros w. by destruct (blobs w !! key).
Qed.

Lemma keeps_blob_download_to_filename key path st :
  (forall ok, P (db_filename (self st)) (Request (OpFetch key path) ok)) ->
  keeps P (blob_download_to_filename key path) st.
Proof.
  intros H. apply keeps_request_read; [done..| |].
  - intros w. by destruct (blobs w !! key).
  - intros s w. by destruct (leaves s).
Qed.

Lemma keeps_blob_upload key content st :
  (forall ok, P (db_filename (self st)) (Request (OpWrite key content) ok)) ->
  keeps P (blob_upload key content) st.
Proof.
  intros HP. unfold keeps, blob_upload, request, request_leaving.
  destruct (next_step (env st)) as [s w] eqn:E.
  assert (Hw : trace w = trace (env st) /\ blobs w = blobs (env st)).
  { unfold next_step in E. destruct (oracle (env st)); inversion E; subst; by cbn. }
  destruct Hw as [Ht Hb].
  split; [destruct (fails s); apply same_config_refl|].
  destruct (fails s); cbn.
  - exists [Request (OpWrite key content) false]. cbn. rewrite Ht, Hb.
    repeat split. by constructor.
  - exists [Request (OpWrite key content) true]. cbn. rewrite Ht, Hb.
    repeat split. by constructor.
Qed.

Lemma keeps_blob_delete key st :
  (forall ok, P (db_filename (self st)) (Request (OpDelete key) ok)) ->
  keeps P (blob_delete key) st.
Proof.
  intros HP. unfold keeps, blob_delete, request, request_leaving.
  destruct (next_step (env st)) as [s w] eqn:E.
  assert (Hw : trace w = trace (env st) /\ blobs w = blobs (env st)).
  { unfold next_step in E. destruct (oracle (env st)); inversion E; subst; by cbn. }
  destruct Hw as [Ht Hb].
  split; [destruct (fails s); [|cbn; destruct (blobs w !! key)]; apply same_config_refl|].
  destruct (fails s); cbn.
  - exists [Request (OpDelete key) false]. cbn. rewrite Ht, Hb.
    repeat split. by constructor.
  - destruct (blobs w !! key) eqn:L; cbn;
      exists [Request (OpDelete key) true]; cbn; rewrite Ht, <- Hb.
    + repeat split. by constructor.
    + repeat split; [by constructor|]. by rewrite delete_id.
Qed.

End Grows.

Lemma grows_weaken (P Q : string -> event -> Prop) st st' :
  (forall db ev, P db ev -> Q db ev) -> grows P st st' -> grows Q st st'.
Proof.
  intros H [C (new & T & F & B)]. split; [exact C|]. exists new.
  repeat split; try assumption. eapply Forall_impl; [exact F|]. apply H.
Qed.

Lemma quiet_lock_only db ev : quiet db ev -> lock_only db ev.
Proof. by destruct ev. Qed.

Lemma replay_read_only db new b : Forall (read_only db) new -> replay new b = b.
Proof.
  unfold replay. induction 1 as [|ev new H _ IH]; [done|]. cbn. rewrite IH.
  by destruct ev as [[] []| | | | |].
Qed.

(** What a read-only computation leaves: the bucket as it was. *)
Lemma read_only_blobs st st' :
  grows read_only st st' ->
  blobs (env st') = blobs (env st) /\
  exists new, trace (env st') = new ++ trace (env st) /\
              Forall (read_only (db_filename (self st))) new.
Proof.
  intros [_ (new & T & F & B)]. split; [|eauto].
  rewrite B. eapply replay_read_only, F.
Qed.

Lemma next_step_blobs w : blobs (next_step w).2 = blobs w.
Proof. reflexivity. Qed.

Lemma blob_exists_value key st b st' :
  blob_exists key st = (Ok b, st') -> b = bool_decide (is_Some (blobs (env st) !! key)).
Proof.
  unfold blob_exists, request, request_leaving.
  pose proof (next_step_blobs (env st)) as H.
  destruct (next_step (env st)) as [s w]. destruct (fails s); cbn; [done|].
  intros [= <- _]. cbn in H. by rewrite H.
Qed.

Lemma blob_download_as_text_value key st text st' :
  blob_download_as_text key st = (Ok text, st') -> blobs (env st) !! key = Some text.
Proof.
  unfold blob_download_as_text, request, request_leaving.
  pose proof (next_step_blobs (env st)) as H.
  destruct (next_step (env st)) as [s w]. destruct (fails s); cbn; [done|].
  cbn in H. rewrite H. destruct (blobs (env st) !! key); [|done]. by intros [= <- _].
Qed.

(** ** The lock and the download leave the data alone *)

Ltac config_facts :=
  repeat match goal with
         | H : grows _ _ _ |- _ => destruct H as [(? & ? & ? & ?) _]
         end.

Ltac lock_only_side :=
  try intros ?; unfold lock_only, quiet, read_only, _get_lock_blob_name; cbn; config_facts;
  first [exact I | congruence | apply same_config_refl | (repeat split; cbn; congruence)].

Ltac keeps_step :=
  lazymatch goal with
  | |- keeps _ (get_self ≫= _) _ => apply keeps_get_self; cbv beta
  | |- keeps _ (get_env ≫= _) _ => apply keeps_get_env; cbv beta
  | |- keeps _ (now ≫= _) _ => apply keeps_bind; [apply keeps_now|intros ? ? ? ?]
  | |- keeps _ (_ ≫= _) _ => apply keeps_bind; [|intros ? ? ? ?]
  | |- keeps _ (try_except _ _) _ => apply keeps_try_except; [|intros ? ? ? ?]
  | |- keeps _ (try_finally _ _) _ => apply keeps_try_finally; [|intros ? ? ? ?]
  | |- keeps _ (mret _) _ => apply keeps_ret
  | |- keeps _ (raise _) _ => apply keeps_raise
  | |- keeps _ (lift _) _ => apply keeps_lift
  | |- keeps _ out_of_fuel _ => apply keeps_out_of_fuel
  | |- keeps _ now _ => apply keeps_now
  | |- keeps _ (when_ _ _) _ => apply keeps_when
  | |- keeps _ (print _) _ => apply keeps_print; lock_only_side
  | |- keeps _ (sleep _) _ => apply keeps_sleep; lock_only_side
  | |- keeps _ (set_self _) _ => apply keeps_set_self; lock_only_side
  | |- keeps _ (path_exists _) _ => apply keeps_path_exists
  | |- keeps _ (blob_exists _) _ => apply keeps_blob_exists; lock_only_side
  | |- keeps _ (blob_download_as_text _) _ =>
      apply keeps_blob_download_as_text; lock_only_side
  | |- keeps _ (blob_download_to_filename _ _) _ =>
      apply keeps_blob_download_to_filename; lock_only_side
  | |- keeps _ (blob_upload _ _) _ => apply keeps_blob_upload; lock_only_side
  | |- keeps _ (blob_delete _) _ => apply keeps_blob_delete; lock_only_side
  | |- keeps _ (match ?x with _ => _ end) _ => destruct x
  end.

Section LockOnly.
Context {lib : Library}.

Lemma keeps_generate_lock_id st : keeps quiet _generate_lock_id st.
Proof.
  unfold _generate_lock_id. keeps_step. keeps_step; [|repeat keeps_step].
  split; [apply same_config_refl|]. exists []. repeat split. constructor.
Qed.

Lemma keeps_lock_exists st : keeps quiet _lock_exists st.
Proof. unfold _lock_exists. repeat keeps_step. Qed.

Lemma keeps_get_lock_info st : keeps quiet _get_lock_info st.
Proof. unfold _get_lock_info. repeat keeps_step. Qed.

Lemma keeps_is_lock_expired info st : keeps quiet (_is_lock_expired info) st.
Proof. unfold _is_lock_expired. repeat keeps_step. Qed.


Lemma reads_get_lock_info st : keeps read_only _get_lock_info st.
Proof. unfold _get_lock_info. repeat keeps_step. Qed.


Lemma keeps_create_lock st : keeps quiet _create_lock st.
Proof.
  unfold _create_lock. do 3 keeps_step; [|repeat keeps_step].
  keeps_step; [apply keeps_generate_lock_id|]. repeat keeps_step.
Qed.

Lemma keeps_force_release_lock st : keeps quiet _force_release_lock st.
Proof. unfold _force_release_lock. repeat keeps_step. Qed.

Lemma keeps_release_lock' st : keeps quiet _release_lock st.
Proof.
  unfold _release_lock. do 2 keeps_step; [repeat keeps_step|].
  keeps_step; [|repeat keeps_step].
  keeps_step; [apply keeps_get_lock_info|]. repeat keeps_step.
Qed.

Lemma keeps_release_lock st : keeps quiet release_lock st.
Proof.
  unfold release_lock. do 2 keeps_step; [|keeps_step].
  keeps_step; [apply keeps_release_lock'|]. keeps_step.
Qed.

Lemma keeps_try_acquire st : keeps quiet try_acquire st.
Proof.
  unfold try_acquire. keeps_step; [apply keeps_lock_exists|].
  keeps_step; [apply keeps_create_lock|].
  keeps_step; [apply keeps_get_lock_info|].
  keeps_step; [apply keeps_is_lock_expired|].
  keeps_step; [|keeps_step].
  keeps_step; [keeps_step|].
  keeps_step; [apply keeps_force_release_lock|]. apply keeps_create_lock.
Qed.

Lemma keeps_acquire_loop fuel timeout start attempt st :
  keeps lock_only (acquire_loop fuel timeout start attempt) st.
Proof.
  revert attempt st. induction fuel as [|fuel IH]; intros attempt st; cbn [acquire_loop].
  - keeps_step.
  - keeps_step. keeps_step; [keeps_step|].
    keeps_step; [eapply grows_weaken; [apply quiet_lock_only|apply keeps_try_acquire]|].
    keeps_step; [keeps_step|].
    keeps_step.
    + keeps_step;
        [eapply grows_weaken; [apply quiet_lock_only|apply keeps_get_lock_info]|].
      repeat keeps_step.
    + do 2 (keeps_step; [keeps_step|]). apply IH.
Qed.

Lemma keeps_acquire_lock timeout st : keeps lock_only (acquire_lock timeout) st.
Proof.
  unfold acquire_lock. do 2 keeps_step; [|keeps_step].
  keeps_step. apply keeps_acquire_loop.
Qed.

Lemma keeps_initialize_db st : keeps quiet initialize_db st.
Proof.
  unfold keeps, initialize_db, mbind, M_bind, get_self, get_env, set_env, set_self, raise.
  cbn. destruct (create_error _ _) as [[e [junk|]]|]; cbn;
    (split; [by repeat split|]); exists []; repeat split; constructor.
Qed.

Lemma keeps_download_db st : keeps quiet download_db st.
Proof.
  unfold download_db. keeps_step. keeps_step; [|keeps_step].
  keeps_step.
  - keeps_step.
    + keeps_step; [keeps_step|]. keeps_step.
      * keeps_step; keeps_step.
      * keeps_step; [keeps_step|]. apply keeps_initialize_db.
    + keeps_step; [keeps_step|]. keeps_step; [keeps_step|].
      keeps_step. apply keeps_initialize_db.
  - keeps_step; [keeps_step|]. keeps_step. apply keeps_initialize_db.
Qed.

Lemma reads_initialize_db st : keeps read_only initialize_db st.
Proof.
  unfold keeps, initialize_db, mbind, M_bind, get_self, get_env, set_env, set_self, raise.
  cbn. destruct (create_error _ _) as [[e [junk|]]|]; cbn;
    (split; [by repeat split|]); exists []; repeat split; constructor.
Qed.

Lemma reads_download_db st : keeps read_only download_db st.
Proof.
  unfold download_db. keeps_step. keeps_step; [|keeps_step].
  keeps_step.
  - keeps_step.
    + keeps_step; [keeps_step|]. keeps_step.
      * keeps_step; keeps_step.
      * keeps_step; [keeps_step|]. apply reads_initialize_db.
    + keeps_step; [keeps_step|]. keeps_step; [keeps_step|].
      keeps_step. apply reads_initialize_db.
  - keeps_step; [keeps_step|]. keeps_step. apply reads_initialize_db.
Qed.

Lemma keeps_get_session st : keeps quiet get_session st.
Proof.
  unfold get_session. do 2 keeps_step.
  keeps_step; [apply keeps_download_db|]. keeps_step.
Qed.

End LockOnly.

(** ** Outcomes *)

Lemma calm_run {A} (c : M A) st :
  calm c ->
  (exists a st', c st = (Ok a, st') /\ self st' = self st) \/
  (exists e st', c st = (Raise e, st') /\ self st' = self st).
Proof.
  intros H. destruct (H st) as [Hs Hf]. destruct (c st) as [[a|e|] st']; cbn in *.
  - left. eauto.
  - right. eauto.
  - congruence.
Qed.

Lemma calm_request {A} op (effect : World -> outcome A * World) debris :
  (forall w, (effect w).1 <> OutOfFuel) -> calm (request_leaving op effect debris).
Proof.
  intros H st. unfold request_leaving.
  destruct (next_step (env st)) as [s w]. destruct (fails s); cbn; [done|].
  specialize (H (log (Request op true) (advance (latency s) w))).
  destruct (effect _) as [r w']. by cbn in *.
Qed.

Lemma calm_blob_exists key : calm (blob_exists key).
Proof. by apply calm_request. Qed.

Lemma calm_blob_download_as_text key : calm (blob_download_as_text key).
Proof. apply calm_request. intros w. by destruct (blobs w !! key). Qed.

Lemma calm_blob_download_to_filename key path : calm (blob_download_to_filename key path).
Proof. apply calm_request. intros w. by destruct (blobs w !! key). Qed.

Lemma calm_blob_upload key content : calm (blob_upload key content).
Proof. by apply calm_request. Qed.

Lemma calm_blob_delete key : calm (blob_delete key).
Proof. apply calm_request. intros w. by destruct (blobs w !! key). Qed.

Lemma calm_blob_upload_from_filename key path : calm (blob_upload_from_filename key path).
Proof.
  intros st. unfold blob_upload_from_filename.
  destruct (files (env st) !! path); [apply calm_blob_upload | by cbn].
Qed.

#[global] Arguments blob_exists : simpl never.
#[global] Arguments blob_download_as_text : simpl never.
#[global] Arguments blob_download_to_filename : simpl never.
#[global] Arguments blob_upload : simpl never.
#[global] Arguments blob_delete : simpl never.
#[global] Arguments blob_upload_from_filename : simpl never.
#[global] Arguments _get_lock_blob_name : simpl never.
#[global] Arguments backup_name : simpl never.
#[global] Arguments _generate_lock_id : simpl never.
#[global] Arguments _lock_exists : simpl never.
#[global] Arguments _get_lock_info : simpl never.
#[global] Arguments _is_lock_expired : simpl never.
#[global] Arguments _create_lock : simpl never.
#[global] Arguments _release_lock : simpl never.
#[global] Arguments _force_release_lock : simpl never.
#[global] Arguments try_acquire : simpl never.
#[global] Arguments acquire_lock : simpl never.
#[global] Arguments release_lock : simpl never.
#[global] Arguments initialize_db : simpl never.
#[global] Arguments download_db : simpl never.
#[global] Arguments upload_db : simpl never.
#[global] Arguments get_session : simpl never.
#[global] Arguments in_session : simpl never.
#[global] Arguments with_session : simpl never.
#[global] Arguments seconds : simpl never.

(** Unfolds the glue of the monad, and stops at the calls. *)
Ltac mred :=
  repeat (progress (unfold mbind, M_bind, mret, M_ret, get_self, get_env, set_self,
                      set_env, print, raise, lift, when_, try_except, try_finally,
                      now, sleep, out_of_fuel, path_exists; cbn)).

(** [run_calm H st a st' E] splits on the outcome at [st] of a computation
    that [H] shows calm. *)
Ltac run_calm H st a st' E :=
  let S := fresh "S" in
  destruct (calm_run _ st H) as [(a & st' & E & S) | (a & st' & E & S)];
  rewrite E; mred; try rewrite !S.

Ltac done_ok := do 2 eexists; split; [reflexivity|cbn; congruence].

Section Outcomes.
Context {lib : Library}.

Lemma lock_exists_ok st :
  exists b st', _lock_exists st = (Ok b, st') /\ self st' = self st.
Proof.
  unfold _lock_exists. mred. destruct (bucket (self st)); mred; [|done_ok].
  run_calm (calm_blob_exists (_get_lock_blob_name (self st))) st b st1 E; done_ok.
Qed.

Lemma get_lock_info_ok st :
  exists info st', _get_lock_info st = (Ok info, st') /\ self st' = self st.
Proof.
  unfold _get_lock_info. mred. destruct (bucket (self st)); mred; [|done_ok].
  run_calm (calm_blob_exists (_get_lock_blob_name (self st))) st b st1 E; [|done_ok].
  destruct b; mred; [|done_ok].
  run_calm (calm_blob_download_as_text (_get_lock_blob_name (self st))) st1 text st2 E2;
    [|done_ok].
  destruct (json_loads text); mred; done_ok.
Qed.

Lemma is_lock_expired_outcome info st :
  (exists b st', _is_lock_expired info st = (Ok b, st') /\ self st' = self st) \/
  _is_lock_expired info st = (Raise TypeError, st).
Proof.
  unfold _is_lock_expired. destruct (Py.truthy info); mred; [|left; done_ok].
  destruct info as [|b|n|s|items|fields]; mred; try (by right).
  - destruct (Py.is_infix "timestamp" s); mred; left; done_ok.
  - destruct (existsb _ items); mred; left; done_ok.
  - destruct (bool_decide _); mred; [|left; done_ok].
    destruct (Py.field "timestamp" fields) as [[| | |s| |]|]; mred; try (left; done_ok).
    destruct (fromisoformat s); mred; left; done_ok.
Qed.

Lemma generate_lock_id_run st :
  exists id st',
    _generate_lock_id st = (Ok id, st') /\ self st' = self st /\ Py.held (Some id) = true.
Proof.
  unfold _generate_lock_id. mred. do 2 eexists. split; [reflexivity|]. split; [done|].
  by destruct (hostname (env st)).
Qed.

Lemma create_lock_local st :
  bucket (self st) = None -> _create_lock st = (Ok true, st).
Proof. intros H. unfold _create_lock. mred. by rewrite H. Qed.

Lemma create_lock_outcome st :
  exists b st',
    _create_lock st = (Ok b, st') /\ same_config (self st) (self st') /\
    (b = false -> lock_id (self st') = None) /\
    (b = true -> bucket (self st) <> None -> Py.held (lock_id (self st')) = true).
Proof.
  unfold _create_lock. mred. destruct (bucket (self st)) eqn:Hb; mred.
  2: { do 2 eexists. split; [reflexivity|]. split; [apply same_config_refl|]. done. }
  destruct (generate_lock_id_run st) as (id & st1 & E & S & Hid). rewrite E. mred.
  match goal with |- context [blob_upload ?k ?c ?s] =>
    destruct (calm_run _ s (calm_blob_upload k c)) as [(a & st2 & E2 & S2)|(e & st2 & E2 & S2)];
    rewrite E2; mred
  end.
  - do 2 eexists. split; [reflexivity|]. cbn in S2. rewrite S2, S. cbn.
    repeat split; try done.
  - do 2 eexists. split; [reflexivity|]. cbn in S2. rewrite S2, S. cbn.
    repeat split; try done.
Qed.

Lemma force_release_lock_ok st :
  exists b st', _force_release_lock st = (Ok b, st') /\ self st' = self st.
Proof.
  unfold _force_release_lock. mred. destruct (bucket (self st)); mred; [|done_ok].
  run_calm (calm_blob_exists (_get_lock_blob_name (self st))) st b st1 E; [|done_ok].
  destruct b; mred; [|done_ok].
  run_calm (calm_blob_delete (_get_lock_blob_name (self st))) st1 u st2 E2; done_ok.
Qed.

Lemma try_acquire_outcome st :
  (exists b st',
      try_acquire st = (Ok b, st') /\ same_config (self st) (self st') /\
      (b = false -> lock_id (self st') = lock_id (self st) \/ lock_id (self st') = None) /\
      (b = true -> bucket (self st) <> None -> Py.held (lock_id (self st')) = true)) \/
  (exists st', try_acquire st = (Raise TypeError, st') /\ self st' = self st).
Proof.
  unfold try_acquire. mred.
  destruct (lock_exists_ok st) as (ex & st1 & E1 & S1). rewrite E1.
  destruct ex; cbn.
  - destruct (get_lock_info_ok st1) as (info & st2 & E2 & S2). rewrite E2.
    destruct (is_lock_expired_outcome info st2) as [(b & st3 & E3 & S3)|E3]; rewrite E3.
    + destruct b; mred.
      * destruct (force_release_lock_ok {| self := self st3; env := log (Print FoundExpiredLock) (env st3) |})
          as (b4 & st4 & E4 & S4). rewrite E4.
        destruct (create_lock_outcome st4) as (b5 & st5 & E5 & C5 & F5 & T5). rewrite E5.
        left. do 2 eexists. split; [reflexivity|]. cbn in S4.
        rewrite S4, S3, S2, S1 in C5, T5. repeat split; try apply C5; auto.
      * left. do 2 eexists. split; [reflexivity|]. rewrite S3, S2, S1.
        split; [apply same_config_refl|]. split; [auto|done].
    + right. eexists. split; [reflexivity|]. congruence.
  - destruct (create_lock_outcome st1) as (b5 & st5 & E5 & C5 & F5 & T5). rewrite E5.
    left. do 2 eexists. split; [reflexivity|]. rewrite S1 in C5, T5.
    repeat split; try apply C5; auto.
Qed.

Lemma release_lock_inner_outcome st :
  exists b st',
    _release_lock st = (Ok b, st') /\ same_config (self st) (self st') /\
    lock_id (self st') = None /\ pending (self st') = pending (self st).
Proof.
  unfold _release_lock. mred.
  destruct (bool_decide _ || negb _); mred.
  { do 2 eexists. split; [reflexivity|]. by repeat split. }
  destruct (get_lock_info_ok st) as (info & st1 & E1 & S1). rewrite E1.
  destruct (Py.get "lock_id" info) as [stored|e|] eqn:G; mred.
  - destruct (Py.differs stored _); mred.
    + do 2 eexists. split; [reflexivity|]. rewrite S1. by repeat split.
    + run_calm (calm_blob_delete (_get_lock_blob_name (self st))) st1 u st2 E2.
      * do 2 eexists. split; [reflexivity|]. rewrite S1. by repeat split.
      * destruct u; mred; do 2 eexists; (split; [reflexivity|]); rewrite ?S, S1;
          by repeat split.
  - destruct e; mred; do 2 eexists; (split; [reflexivity|]); rewrite S1; by repeat split.
  - destruct info; discriminate.
Qed.

Lemma release_lock_outcome st :
  exists st',
    release_lock st = (Ok tt, st') /\ same_config (self st) (self st') /\
    Py.held (lock_id (self st')) = false /\ pending (self st') = pending (self st).
Proof.
  unfold release_lock. mred. destruct (Py.held (lock_id (self st))) eqn:H; mred.
  - destruct (release_lock_inner_outcome st) as (b & st' & E & C & L & Hp). rewrite E.
    eexists. split; [reflexivity|]. split; [exact C|]. by rewrite L.
  - eexists. split; [reflexivity|]. split; [apply same_config_refl|by split].
Qed.

Lemma release_lock_not_held st :
  Py.held (lock_id (self st)) = false -> release_lock st = (Ok tt, st).
Proof. intros H. unfold release_lock. mred. by rewrite H. Qed.

End Outcomes.

(** ** Reading the lease *)

Section Lease.
Context {lib : Library}.

Lemma get_lock_info_value st info st' :
  _get_lock_info st = (Ok info, st') ->
  info = JObj [] \/
  exists text,
    blobs (env st) !! _get_lock_blob_name (self st) = Some text /\
    json_loads text = Some info.
Proof.
  unfold _get_lock_info. mred. destruct (bucket (self st)); mred; [|intros [= <- _]; by left].
  destruct (blob_exists _ st) as [[b|e|] st1] eqn:E1; mred;
    [|intros [= <- _]; by left|done].
  destruct b; mred; [|intros [= <- _]; by left].
  pose proof (blob_exists_value _ _ _ _ E1) as Hb.
  destruct (blob_download_as_text _ st1) as [[text|e|] st2] eqn:E2; mred;
    [|intros [= <- _]; by left|done].
  apply blob_download_as_text_value in E2.
  assert (Hsame : blobs (env st1) = blobs (env st)).
  { pose proof (keeps_blob_exists read_only (_get_lock_blob_name (self st)) st) as K.
    unfold keeps in K. rewrite E1 in K. apply read_only_blobs, K. by intros ok. }
  rewrite Hsame in E2.
  destruct (json_loads text) eqn:J; mred; intros [= <- _]; [right; eauto|by left].
Qed.

Lemma get_lock_info_spec st :
  exists info st',
    _get_lock_info st = (Ok info, st') /\ self st' = self st /\
    blobs (env st') = blobs (env st) /\
    (exists new, trace (env st') = new ++ trace (env st) /\
                 Forall (read_only (db_filename (self st))) new) /\
    (info = JObj [] \/
     exists text,
       blobs (env st) !! _get_lock_blob_name (self st) = Some text /\
       json_loads text = Some info).
Proof.
  destruct (get_lock_info_ok st) as (info & st' & E & S).
  exists info, st'. split; [exact E|]. split; [exact S|].
  pose proof (reads_get_lock_info st) as K. unfold keeps in K. rewrite E in K.
  apply read_only_blobs in K. destruct K as [B T].
  repeat split; try assumption. eapply get_lock_info_value, E.
Qed.

End Lease.

(** ** The verdict on a lease *)

Ltac unfold_requests :=
  unfold blob_exists, blob_delete, blob_upload, blob_download_as_text,
    blob_download_to_filename, blob_upload_from_filename, request, request_leaving.

Lemma said_nil st : said [] st = st.
Proof. by destruct st as [m []]. Qed.

Section Verdict.
Context {lib : Library}.




Lemma verdict_on_timestamp fields s t st :
  Py.field "timestamp" fields = Some (JStr s) -> fromisoformat s = Some t ->
  _is_lock_expired (JObj fields) st =
    (Ok (seconds (lock_timeout (self st)) <? clock (env st) - t), st).
Proof.
  intros F P. unfold _is_lock_expired. cbn.
  destruct (bool_decide (fields = [])) eqn:E; mred.
  { apply bool_decide_eq_true in E. subst. discriminate. }
  rewrite F. mred. by rewrite P.
Qed.

(** An attempt that finds a lease it judges expired deletes it and writes
    its own, when the requests it makes to do so go through. *)
Lemma try_acquire_takes_over st b text s1 s2 s3 s4 s5 s6 rest info :
  bucket (self st) = Some b ->
  blobs (env st) !! _get_lock_blob_name (self st) = Some text ->
  oracle (env st) = s1 :: s2 :: s3 :: s4 :: s5 :: s6 :: rest ->
  fails s1 = false -> fails s2 = false ->
  fails s4 = false -> fails s5 = false -> fails s6 = false ->
  info = (if fails s3 then JObj [] else default (JObj []) (json_loads text)) ->
  (forall st3,
      self st3 = self st ->
      clock (env st3) = clock (env st) + latency s1 + latency s2 + latency s3 ->
      exists msgs, _is_lock_expired info st3 = (Ok true, said msgs st3)) ->
  exists id content earlier st',
    try_acquire st = (Ok true, st') /\
    trace (env st') =
      [Print (CreatedDatabaseLock id);
       Request (OpWrite (_get_lock_blob_name (self st)) content) true;
       Print ForceReleasedDatabaseLock;
       Request (OpDelete (_get_lock_blob_name (self st))) true;
       Request (OpExists (_get_lock_blob_name (self st))) true;
       Print FoundExpiredLock] ++ earlier ++ trace (env st) /\
    Forall (read_only (db_filename (self st))) earlier /\
    blobs (env st') !! _get_lock_blob_name (self st) = Some content /\
    content = json_dumps (JObj [("lock_id", JStr id);
                                ("timestamp", JStr (isoformat (clock (env st')
                                                                 - latency s6)));
                                ("hostname", JStr (hostname (env st)));
                                ("pid", JNum (pid (env st)))]) /\
    lock_id (self st') = Some id.
Proof.
  intros Hb Hblob Ho F1 F2 F4 F5 F6 Hinfo Hexp.
  destruct st as [m w]. destruct w as [bl fl cl orc hn pd uu tr]. cbn in *. subst orc.
  unfold try_acquire, _lock_exists, _get_lock_info. unfold_requests.
  repeat (progress (mred; rewrite ?Hb, ?F1, ?F2, ?Hblob)).
  assert (Hprints : forall msgs : list message,
             Forall (read_only (db_filename m)) (map Print msgs)).
  { intros msgs. apply Forall_forall. intros ev Hin.
    apply list_elem_of_In, in_map_iff in Hin. by destruct Hin as (? & <- & _). }
  assert (Hfin : forall (w3 : World) (evs : list event),
             blobs w3 = bl -> oracle w3 = s4 :: s5 :: s6 :: rest ->
             clock w3 = cl + latency s1 + latency s2 + latency s3 ->
             hostname w3 = hn -> pid w3 = pd ->
             trace w3 = evs ++ tr -> Forall (read_only (db_filename m)) evs ->
             exists id content earlier st',
               (let (o0, st'1) := _is_lock_expired info {| self := m; env := w3 |} in
                match o0 with
                | Ok a0 =>
                    (if a0
                     then
                       λ st : State,
                         let (o1, st'2) :=
                           _force_release_lock
                             {| self := self st;
                                env := log (Print FoundExpiredLock) (env st) |} in
                         match o1 with
                         | Ok _ => _create_lock st'2
                         | Raise e => (Raise e, st'2)
                         | OutOfFuel => (OutOfFuel, st'2)
                         end
                     else λ st : State, (Ok false, st)) st'1
                | Raise e => (Raise e, st'1)
                | OutOfFuel => (OutOfFuel, st'1)
                end) = (Ok true, st') /\
               trace (env st') =
                 [Print (CreatedDatabaseLock id); Request (OpWrite (_get_lock_blob_name m) content) true;
                  Print ForceReleasedDatabaseLock; Request (OpDelete (_get_lock_blob_name m)) true;
                  Request (OpExists (_get_lock_blob_name m)) true; Print FoundExpiredLock] ++ earlier ++ tr /\
               Forall (read_only (db_filename m)) earlier /\
               blobs (env st') !! _get_lock_blob_name m = Some content /\
               content = json_dumps (JObj [("lock_id", JStr id);
                                           ("timestamp", JStr (isoformat (clock (env st')
                                                                 - latency s6)));
                                           ("hostname", JStr hn); ("pid", JNum pd)]) /\
               lock_id (self st') = Some id).
  { intros w3 evs Hbl Hor Hcl Hhn Hpd Htr Hro.
    destruct (Hexp {| self := m; env := w3 |} eq_refl Hcl) as (msgs & E).
    rewrite E. unfold said. cbn [self env].
    unfold _force_release_lock, _create_lock, _generate_lock_id. unfold_requests.
    repeat (progress (mred; rewrite ?Hb, ?Hbl, ?Hor, ?F4, ?F5, ?F6, ?Hblob, ?Hhn, ?Hpd)).
    eexists _, _, (map Print msgs ++ evs), _. split; [reflexivity|]. cbn.
    rewrite Htr, lookup_insert_eq, <- app_assoc.
    split; [reflexivity|]. split; [by apply Forall_app|]. split; [reflexivity|].
    split; [|reflexivity]. do 7 f_equal. lia. }
  destruct (fails s3) eqn:F3; mred; [|destruct (json_loads text) as [j|] eqn:J; mred];
    subst info; cbn in Hfin.
  - eapply (Hfin _ [_; _; _; _]); try reflexivity. repeat constructor.
  - eapply (Hfin _ [_; _; _]); try reflexivity. repeat constructor.
  - eapply (Hfin _ [_; _; _; _]); try reflexivity. repeat constructor.
Qed.

End Verdict.

(** ** The loop *)

Lemma count_app p l1 l2 : count p (l1 ++ l2) = (count p l1 + count p l2)%nat.
Proof. unfold count. by rewrite List.filter_app, length_app. Qed.

Lemma count_sleep_quiet db evs : Forall (quiet db) evs -> count is_sleep evs = 0%nat.
Proof.
  induction 1 as [|ev evs H _ IH]; [done|]. unfold count in *. cbn.
  destruct ev; cbn in *; try done.
Qed.

Lemma grows_since P st st' :
  grows P st st' ->
  trace (env st') = since st st' ++ trace (env st) /\
  Forall (P (db_filename (self st))) (since st st').
Proof. intros [_ (new & T & F & _)]. by rewrite (since_app _ _ _ T). Qed.

Section Loop.
Context {lib : Library}.

Lemma acquire_loop_acquires fuel timeout start attempt st st' :
  clock (env st) - start <= seconds timeout ->
  try_acquire st = (Ok true, st') ->
  acquire_loop (S fuel) timeout start attempt st = (Ok true, st').
Proof.
  intros Ht E. cbn [acquire_loop]. mred.
  destruct (Z.ltb_spec (seconds timeout) (clock (env st) - start)); [lia|].
  mred. by rewrite E.
Qed.

Lemma acquire_loop_spec fuel timeout start attempt st :
  (attempt <= LOCK_RETRY_ATTEMPTS < fuel + attempt)%nat ->
  exists r st',
    acquire_loop fuel timeout start attempt st = (r, st') /\
    same_config (self st) (self st') /\
    match r with
    | Ok b => b = true /\ (bucket (self st) <> None -> Py.held (lock_id (self st')) = true)
    | Raise e =>
        (lock_id (self st') = lock_id (self st) \/ lock_id (self st') = None) /\
        match e with
        | DatabaseLockException why =>
            lock_failure_explained timeout start (LOCK_RETRY_ATTEMPTS - attempt) st st' why
        | TypeError | AttributeError => True
        | _ => False
        end
    | OutOfFuel => False
    end.
Proof.
  revert attempt st. induction fuel as [|fuel IH]; intros attempt st Hfuel; [lia|].
  cbn [acquire_loop].
  remember (LOCK_RETRY_ATTEMPTS <? S attempt)%nat as last eqn:Hcmp. symmetry in Hcmp.
  mred.
  destruct (Z.ltb_spec (seconds timeout) (clock (env st) - start)) as [Hlate|Hearly]; mred.
  { do 2 eexists. split; [reflexivity|]. split; [apply same_config_refl|].
    split; [by left|]. by split. }
  pose proof (keeps_try_acquire st) as Kt. unfold keeps in Kt.
  destruct (try_acquire_outcome st) as [(b & st1 & E & C & Lf & Lt)|(st1 & E & S)];
    rewrite E in Kt |- *; cbn in Kt.
  2: { do 2 eexists. split; [reflexivity|]. rewrite S.
       split; [apply same_config_refl|]. split; [by left|done]. }
  destruct b; mred.
  { do 2 eexists. split; [reflexivity|]. split; [exact C|]. split; [done|exact (Lt eq_refl)]. }
  specialize (Lf eq_refl).
  apply grows_since in Kt. destruct Kt as [T1 Q1].
  unfold LOCK_RETRY_ATTEMPTS in *.
  destruct last; [apply Nat.ltb_lt in Hcmp|apply Nat.ltb_ge in Hcmp]; mred.
  - pose proof (reads_get_lock_info st1) as Kg. unfold keeps in Kg.
    destruct (get_lock_info_ok st1) as (info & st2 & E2 & S2). rewrite E2 in Kg |- *.
    cbn in Kg. apply grows_since in Kg. destruct Kg as [T2 Q2].
    assert (Hquiet : count is_sleep (since st st2) = 0%nat).
    { rewrite (since_app st st2 (since st1 st2 ++ since st st1)).
      - rewrite count_app.
        rewrite (count_sleep_quiet (db_filename (self st)) (since st st1)) by exact Q1.
        rewrite (count_sleep_quiet (db_filename (self st1)) (since st1 st2)); [done|].
        eapply Forall_impl; [exact Q2|]. by intros [[] ?| | | | |].
      - rewrite T2, T1. by rewrite app_assoc. }
    destruct (Py.get "lock_id" info) as [stored|e|] eqn:G; mred.
    + do 2 eexists. split; [reflexivity|]. rewrite S2. split; [exact C|].
      split; [exact Lf|]. unfold lock_failure_explained, LOCK_RETRY_ATTEMPTS.
      split; [lia|]. split; [rewrite Hquiet; lia|].
      exists st1, info, stored. by repeat split.
    + do 2 eexists. split; [reflexivity|]. rewrite S2. split; [exact C|].
      split; [exact Lf|]. destruct info; cbn in G; by inversion G.
    + destruct info; discriminate.
  - set (st1' := {| self := self st1;
                    env := log (Sleep LOCK_RETRY_DELAY)
                             (advance (seconds LOCK_RETRY_DELAY)
                                (log (Print (DatabaseLockedWaiting (S attempt)))
                                   (env st1))) |}).
    destruct (IH (S attempt) st1') as (r & st' & Er & Cr & Hr); [lia|].
    pose proof (keeps_acquire_loop fuel timeout start (S attempt) st1') as Kl.
    unfold keeps in Kl. rewrite Er in Kl. cbn in Kl.
    apply grows_since in Kl. destruct Kl as [T3 _].
    exists r, st'. split; [exact Er|].
    split; [eapply same_config_trans; [exact C|exact Cr]|].
    destruct r as [b|e|]; [| |done].
    + destruct Hr as [-> Hh]. split; [done|]. intros Hb. apply Hh.
      subst st1'. cbn. destruct C as (HC & _). by rewrite HC.
    + destruct Hr as [Hl He]. split.
      { destruct Hl as [Hl|Hl]; [|by right]. cbn in Hl. rewrite Hl. exact Lf. }
      destruct e as [why| | | | | | |]; try done.
      destruct why as [t|n owner]; [exact He|].
      unfold lock_failure_explained, LOCK_RETRY_ATTEMPTS in *.
      destruct He as (Hn & Hc & Hread). split; [exact Hn|]. split; [|exact Hread].
      rewrite (since_app st st'
                 (since st1' st' ++ [Sleep LOCK_RETRY_DELAY;
                                     Print (DatabaseLockedWaiting (S attempt))]
                    ++ since st st1)).
      * rewrite !count_app, Hc.
        rewrite (count_sleep_quiet (db_filename (self st)) (since st st1)) by exact Q1.
        cbn. lia.
      * rewrite T3. cbn. rewrite T1. by rewrite <- app_assoc.
Qed.

Lemma acquire_lock_local timeout st :
  bucket (self st) = None -> acquire_lock timeout st = (Ok true, st).
Proof. intros H. unfold acquire_lock. mred. by rewrite H. Qed.

Lemma acquire_lock_run timeout st b :
  bucket (self st) = Some b ->
  acquire_lock timeout st =
    acquire_loop (S LOCK_RETRY_ATTEMPTS) timeout (clock (env st)) 0 st.
Proof.
  intros H. unfold acquire_lock, mbind, M_bind, get_self, now, get_env, mret, M_ret.
  by rewrite H.
Qed.

(** The loop comes to an end: the model never runs out of fuel. *)
Lemma acquire_lock_terminates timeout st : (acquire_lock timeout st).1 <> OutOfFuel.
Proof.
  destruct (bucket (self st)) as [b|] eqn:Hb; [|by rewrite acquire_lock_local].
  rewrite (acquire_lock_run _ _ b Hb).
  destruct (acquire_loop_spec (S LOCK_RETRY_ATTEMPTS) timeout (clock (env st)) 0 st)
    as (r & st' & E & _ & H); [lia|].
  rewrite E. cbn. by destruct r.
Qed.

Lemma no_sleep_in_read_only db evs :
  Forall (read_only db) evs -> Forall (fun ev => is_sleep ev = false) evs.
Proof. intros H. eapply Forall_impl; [exact H|]. by intros []. Qed.

End Loop.

(** ** The turns that did not get the lock *)

Section Turns.
Context {lib : Library}.





End Turns.

(** ** The keys are apart *)

Lemma string_length_app (s t : string) :
  String.length (s +:+ t) = (String.length s + String.length t)%nat.
Proof. induction s as [|c s IH]; [done|]. cbn. rewrite <- IH. reflexivity. Qed.

Lemma lock_name_not_db (m : Manager) : _get_lock_blob_name m <> db_filename m.
Proof.
  unfold _get_lock_blob_name. intros H. apply (f_equal String.length) in H.
  rewrite string_length_app in H. cbn in H. lia.
Qed.

Lemma backup_name_not_db (m : Manager) ts : backup_name m ts <> db_filename m.
Proof.
  unfold backup_name. intros H. apply (f_equal String.length) in H.
  rewrite !string_length_app in H. cbn in H. lia.
Qed.

Lemma backup_name_not_lock (m : Manager) ts : backup_name m ts <> _get_lock_blob_name m.
Proof.
  unfold backup_name, _get_lock_blob_name. intros H. apply (f_equal String.length) in H.
  rewrite !string_length_app in H. cbn in H. lia.
Qed.

(** ** The ways of an upload *)

Section Upload.
Context {lib : Library}.

Lemma upload_db_local st :
  bucket (self st) = None -> upload_db st = (Ok tt, said [SkippingUpload] st).
Proof. intros H. unfold upload_db. mred. rewrite H. by destruct st as [m []]. Qed.

(** With a bucket, an upload goes one of four ways. *)
Lemma upload_db_cases st b :
  bucket (self st) = Some b ->
  exists st',
    upload_db st = (Ok tt, st') /\ self st' = self st /\ files (env st') = files (env st) /\
    ((files (env st) !! local_path (self st) = None /\
      trace (env st') = [Print (ErrorUploadingDatabase NotFound)] ++ trace (env st) /\
      blobs (env st') = blobs (env st)) \/
     exists content,
       files (env st) !! local_path (self st) = Some content /\
       ((trace (env st') =
           [Print (ErrorUploadingDatabase StoreError);
            Request (OpWrite (db_filename (self st)) content) false] ++ trace (env st) /\
         blobs (env st') = blobs (env st)) \/
        (exists ts,
            ts = strftime_compact (clock (env st) + latency (coming (env st) 0)) /\
            trace (env st') =
              [Print (ErrorUploadingDatabase StoreError);
               Request (OpWrite (backup_name (self st) ts) content) false;
               Request (OpWrite (db_filename (self st)) content) true] ++ trace (env st) /\
            blobs (env st') = <[db_filename (self st) := content]> (blobs (env st))) \/
        (exists ts,
            ts = strftime_compact (clock (env st) + latency (coming (env st) 0)) /\
            trace (env st') =
              [Print (CreatedBackup ts); Print UploadedDatabase;
               Request (OpWrite (backup_name (self st) ts) content) true;
               Request (OpWrite (db_filename (self st)) content) true] ++ trace (env st) /\
            blobs (env st') =
              <[backup_name (self st) ts := content]>
                (<[db_filename (self st) := content]> (blobs (env st)))))).
Proof.
  intros Hb. destruct st as [m w]. destruct w as [bl fl cl orc hn pd uu tr]. cbn in *.
  unfold upload_db. unfold_requests. mred. rewrite Hb. mred.
  destruct (fl !! local_path m) as [content|] eqn:Hf; mred.
  2: { eexists. split; [reflexivity|]. cbn. repeat split. by left. }
  destruct orc as [|[[] l1 v1] [|[[] l2 v2] orc]];
    repeat (progress (unfold_requests; mred; rewrite ?Hf));
    (eexists; split; [reflexivity|]; cbn; repeat split; right; exists content;
     split; [done|]).
  - right. right. eexists. by repeat split.
  - by left.
  - by left.
  - by left.
  - right. right. eexists. by repeat split.
  - right. left. eexists. by repeat split.
  - right. right. eexists. by repeat split.
Qed.

End Upload.

(** ** The ways of a download *)

(** Unfolds the monad and rewrites with what is known of the files, the
    blobs and the making of a store. *)
Ltac known :=
  repeat (progress (mred;
                    repeat match goal with
                           | H : _ !! _ = _ |- _ => rewrite H
                           | H : create_error _ _ = _ |- _ => rewrite H
                           end;
                    rewrite ?lookup_insert_eq)).

Section Download.
Context {lib : Library}.

Lemma download_db_spec st :
  exists st',
    download_db st =
      (match (after_download st).1 with
       | Some e => Raise e
       | None => Ok (local_path (self st))
       end, st') /\
    files (env st') !! local_path (self st) = (after_download st).2 /\
    lock_id (self st') = lock_id (self st) /\
    pending (self st') = pending (self st).
Proof.
  destruct st as [m w]. destruct w as [bl fl cl orc hn pd uu tr].
  unfold after_download, bootstrap, coming, download_db, initialize_db.
  cbn [self env oracle blobs files].
  unfold_requests. mred.
  destruct (bucket m) as [b|]; mred.
  - destruct orc as [|[[] l1 v1] orc]; mred.
    + destruct (bl !! db_filename m) as [content|] eqn:Hbl; known.
      * eexists. split; [reflexivity|]. cbn. by rewrite lookup_insert_eq.
      * destruct (create_error (local_path m) (fl !! local_path m)) as [[e [junk|]]|] eqn:Hc;
          known; try by (eexists; split; [reflexivity|]; cbn; rewrite ?lookup_insert_eq).
        destruct (fl !! local_path m) as [found|] eqn:Hfl; known;
          eexists; (split; [reflexivity|]); by cbn.
    + destruct (fl !! local_path m) as [found|] eqn:Hfl; known.
      * eexists. split; [reflexivity|]. by cbn.
      * destruct (create_error (local_path m) None) as [[e [junk|]]|] eqn:Hc; known;
          eexists; (split; [reflexivity|]); cbn; by rewrite ?lookup_insert_eq.
    + destruct (bl !! db_filename m) as [content|] eqn:Hbl; known.
      * destruct orc as [|[[] l2 [junk|]] orc]; known;
          try by (eexists; split; [reflexivity|]; cbn; rewrite ?lookup_insert_eq).
        destruct (fl !! local_path m) as [found|] eqn:Hfl; known.
        -- eexists. split; [reflexivity|]. by cbn.
        -- destruct (create_error (local_path m) None) as [[e [junk|]]|] eqn:Hc; known;
             eexists; (split; [reflexivity|]); cbn; by rewrite ?lookup_insert_eq.
      * destruct (create_error (local_path m) (fl !! local_path m)) as [[e [junk|]]|] eqn:Hc;
          known; try by (eexists; split; [reflexivity|]; cbn; rewrite ?lookup_insert_eq).
        destruct (fl !! local_path m) as [found|] eqn:Hfl; known;
          eexists; (split; [reflexivity|]); by cbn.
  - destruct (fl !! local_path m) as [found|] eqn:Hfl; known.
    + eexists. split; [reflexivity|]. by cbn.
    + destruct (create_error (local_path m) None) as [[e [junk|]]|] eqn:Hc; known;
        eexists; (split; [reflexivity|]); cbn; by rewrite ?lookup_insert_eq.
Qed.

(** Where a file is at [local_path], [download_db] returns, and it never
    returns without a file there. *)
Lemma after_download_kept st :
  is_Some (files (env st) !! local_path (self st)) -> (after_download st).1 = None.
Proof.
  intros [found Hf]. unfold after_download, bootstrap. rewrite Hf.
  destruct (bucket (self st)); [|done].
  destruct (fails (coming (env st) 0)); [done|].
  destruct (blobs (env st) !! db_filename (self st)).
  - destruct (fails (coming (env st) 1)); [|done]. by destruct (leaves _).
  - by destruct (create_error _ _) as [[e [junk|]]|].
Qed.

Lemma after_download_file st :
  (after_download st).1 = None -> is_Some (after_download st).2.
Proof.
  unfold after_download, bootstrap.
  assert (Hrecover : forall now : option string,
             (match now with
              | Some content => (None, Some content)
              | None => match create_error (local_path (self st)) None with
                        | Some (e, debris) =>
                            (Some e, match debris with Some junk => Some junk | None => None end)
                        | None => (None, Some (new_store None))
                        end
              end).1 = None ->
             is_Some (match now with
                      | Some content => (None : option exn, Some content)
                      | None => match create_error (local_path (self st)) None with
                                | Some (e, debris) =>
                                    (Some e,
                                     match debris with Some junk => Some junk | None => None end)
                                | None => (None, Some (new_store None))
                                end
                      end).2).
  { intros [content|]; cbn; [eauto|].
    destruct (create_error _ None) as [[e debris]|]; cbn; [done|eauto]. }
  destruct (bucket (self st)); [|apply Hrecover].
  destruct (fails (coming (env st) 0)); [apply Hrecover|].
  destruct (blobs (env st) !! db_filename (self st)).
  - destruct (fails (coming (env st) 1)); [apply Hrecover|]. cbn. eauto.
  - destruct (create_error _ (files (env st) !! local_path (self st))) as [[e debris]|];
      [apply Hrecover|]. cbn. eauto.
Qed.

Lemma download_db_returns st p st' :
  download_db st = (Ok p, st') ->
  p = local_path (self st) /\
  files (env st') !! local_path (self st) = Some (replica_after_download st) /\
  lock_id (self st') = lock_id (self st) /\ pending (self st') = pending (self st).
Proof.
  intros E. destruct (download_db_spec st) as (st0 & E0 & F & L & P).
  rewrite E in E0. unfold replica_after_download.
  destruct ((after_download st).1) eqn:H; [discriminate|].
  injection E0 as -> <-. split; [done|]. split; [|done].
  destruct (after_download_file st H) as [c Hc]. by rewrite F, Hc.
Qed.

Lemma download_db_kept st :
  is_Some (files (env st) !! local_path (self st)) ->
  exists st',
    download_db st = (Ok (local_path (self st)), st') /\
    is_Some (files (env st') !! local_path (self st)) /\
    lock_id (self st') = lock_id (self st) /\ pending (self st') = pending (self st).
Proof.
  intros Hf. destruct (download_db_spec st) as (st' & E & F & L & P).
  pose proof (after_download_kept st Hf) as H. rewrite H in E.
  exists st'. split; [exact E|]. split; [|done].
  rewrite F. by apply after_download_file.
Qed.

(** Once [download_db] returned, [get_session] returns. *)
Lemma get_session_ok st :
  is_Some (files (env st) !! local_path (self st)) ->
  exists st', get_session st = (Ok tt, st') /\ lock_id (self st') = lock_id (self st).
Proof.
  intros Hf. unfold get_session. mred. destruct (engine (self st)); mred; [eauto|].
  destruct (download_db_kept st Hf) as (st' & E & _ & L & _). rewrite E. eauto.
Qed.

Lemma get_session_after_download st p st' :
  download_db st = (Ok p, st') ->
  exists st'', get_session st' = (Ok tt, st'') /\ lock_id (self st'') = lock_id (self st').
Proof.
  intros E. apply get_session_ok.
  pose proof (keeps_download_db st) as K. unfold keeps in K. rewrite E in K.
  destruct K as [(_ & _ & Hp & _) _]. cbn in Hp. rewrite Hp.
  apply download_db_returns in E. destruct E as (_ & F & _). rewrite F. eauto.
Qed.

End Download.

(** ** Every run of [with_session] takes one of the five paths *)

Section Paths.
Context {lib : Library}.

Lemma upload_db_ok st : exists st', upload_db st = (Ok tt, st').
Proof.
  destruct (bucket (self st)) as [b|] eqn:Hb.
  - destruct (upload_db_cases st b Hb) as (st' & E & _). eauto.
  - rewrite upload_db_local by done. eauto.
Qed.

Lemma with_pending_twice v v' m : with_pending v (with_pending v' m) = with_pending v m.
Proof. reflexivity. Qed.

Lemma with_session_run {R} (func : Transform R) st :
  exists r st', with_session func st = (r, st') /\ session_path func st r st'.
Proof.
  unfold with_session. rewrite bind_run.
  pose proof (acquire_lock_terminates 60 st) as Hterm.
  destruct (acquire_lock 60 st) as [[b|e|] st1] eqn:Ea; [| |done].
  2: { do 2 eexists. split; [reflexivity|]. by apply lock_not_acquired. }
  unfold in_session, try_finally at 1. rewrite bind_run.
  destruct (download_db st1) as [[p|e|] st2] eqn:Ed.
  3: { destruct (download_db_spec st1) as (? & Ed' & _). rewrite Ed in Ed'.
       by destruct (after_download st1).1. }
  2: { destruct (release_lock_outcome st2) as (st' & Er & _). rewrite Er.
       do 2 eexists. split; [reflexivity|]. eapply store_not_made; eauto. }
  rewrite bind_run.
  destruct (get_session_after_download _ _ _ Ed) as (st3 & Eg & _). rewrite Eg.
  unfold try_finally, try_except. rewrite bind_run.
  unfold call at 1. fold (found_by st3).
  destruct (func (found_by st3)) as [[r|e] content] eqn:Ef.
  - unfold session_commit, session_rollback, session_close. mred.
    destruct (commit_error _ content) as [e|] eqn:Ec; mred; rewrite !with_pending_twice.
    + destruct (release_lock_outcome (rolled_back e st3)) as (st' & Er & _).
      unfold rolled_back in Er. cbn in Er. rewrite Er.
      do 2 eexists. split; [reflexivity|]. eapply commit_failed; eauto.
    + destruct (upload_db_ok (committed content st3)) as (st4 & Eu).
      unfold committed in Eu. cbn in Eu. rewrite Eu. cbn.
      destruct (release_lock_outcome (closed st4)) as (st' & Er & _).
      unfold closed in Er. rewrite Er.
      do 2 eexists. split; [reflexivity|]. eapply transaction_uploaded; eauto.
  - unfold session_rollback, session_close. mred. rewrite !with_pending_twice.
    destruct (release_lock_outcome (rolled_back e st3)) as (st' & Er & _).
    unfold rolled_back in Er. cbn in Er. rewrite Er.
    do 2 eexists. split; [reflexivity|]. eapply transform_failed; eauto.
Qed.

Lemma with_session_path {R} (func : Transform R) st r st' :
  with_session func st = (r, st') -> session_path func st r st'.
Proof.
  intros E. destruct (with_session_run func st) as (r0 & st0 & E0 & P).
  rewrite E0 in E. by injection E as <- <-.
Qed.

End Paths.

(** ** What the paths leave behind *)

Lemma replay_lock_only db new b k :
  Forall (lock_only db) new -> k <> db +:+ ".lock" -> replay new b !! k = b !! k.
Proof.
  intros F Hk. unfold replay. induction F as [|ev new H _ IH]; [done|]. cbn.
  destruct ev as [[| | |k' c|k'] []| | | | |]; cbn in *; try exact IH.
  - rewrite lookup_insert_ne; [exact IH|congruence].
  - rewrite lookup_delete_ne; [exact IH|congruence].
Qed.

Lemma lock_only_write db ev k c ok :
  lock_only db ev -> ev = Request (OpWrite k c) ok -> k = db +:+ ".lock".
Proof. by intros H ->. Qed.

Lemma lock_only_not_step db evs :
  Forall (lock_only db) evs -> ~ In Commit evs /\ ~ In Rollback evs /\ ~ In Close evs.
Proof.
  intros F. rewrite Forall_forall in F.
  repeat split; intros Hin; apply list_elem_of_In in Hin; by apply F in Hin.
Qed.

Lemma count_write_lock_only db evs k :
  Forall (lock_only db) evs -> k <> db +:+ ".lock" ->
  count (is_write k) evs = 0%nat /\ count (is_write_attempt k) evs = 0%nat.
Proof.
  intros F Hk. unfold count. induction F as [|ev evs H _ [IH1 IH2]]; [done|]. cbn.
  destruct ev as [[| | |k' c|k'] []| | | | |]; cbn in *; try done;
    destruct (String.eqb_spec k' k); cbn; try done; congruence.
Qed.

Section Frames.
Context {lib : Library}.

Lemma prelude_frame st b st1 p st2 st3 :
  acquire_lock 60 st = (Ok b, st1) ->
  download_db st1 = (Ok p, st2) ->
  get_session st2 = (Ok tt, st3) ->
  grows lock_only st st3.
Proof.
  intros Ea Ed Eg.
  pose proof (keeps_acquire_lock 60 st) as Ka. unfold keeps in Ka. rewrite Ea in Ka.
  pose proof (keeps_download_db st1) as Kd. unfold keeps in Kd. rewrite Ed in Kd.
  pose proof (keeps_get_session st2) as Kg. unfold keeps in Kg. rewrite Eg in Kg.
  eapply grows_trans; [exact Ka|].
  eapply grows_weaken; [apply quiet_lock_only|].
  eapply grows_trans; [exact Kd|exact Kg].
Qed.

Lemma release_frame st st' :
  release_lock st = (Ok tt, st') -> grows lock_only st st'.
Proof.
  intros E. pose proof (keeps_release_lock st) as K. unfold keeps in K. rewrite E in K.
  eapply grows_weaken; [apply quiet_lock_only|exact K].
Qed.

(** A session whose store could not be made: nothing but the lock was
    touched, and no session was opened. *)
Lemma unmade_path st b st1 e st2 st' :
  acquire_lock 60 st = (Ok b, st1) ->
  download_db st1 = (Raise e, st2) ->
  release_lock st2 = (Ok tt, st') ->
  grows lock_only st st' /\
  pending (self st2) = pending (self st1) /\ lock_id (self st2) = lock_id (self st1).
Proof.
  intros Ea Ed Er.
  pose proof (keeps_acquire_lock 60 st) as Ka. unfold keeps in Ka. rewrite Ea in Ka.
  pose proof (keeps_download_db st1) as Kd. unfold keeps in Kd. rewrite Ed in Kd.
  split.
  - eapply grows_trans; [exact Ka|].
    eapply grows_trans; [eapply grows_weaken; [apply quiet_lock_only|exact Kd]|].
    by apply release_frame.
  - destruct (download_db_spec st1) as (? & Ed' & _ & L & P). rewrite Ed in Ed'.
    injection Ed' as _ <-. by split.
Qed.

(** A transaction that failed: the trace and the bucket at its end. *)
Lemma failed_path st b st1 p st2 st3 e st' :
  acquire_lock 60 st = (Ok b, st1) ->
  download_db st1 = (Ok p, st2) ->
  get_session st2 = (Ok tt, st3) ->
  release_lock (rolled_back e st3) = (Ok tt, st') ->
  exists before after,
    since st st' =
      after ++ [Close; Print (ErrorInDatabaseOperation e); Rollback] ++ before /\
    Forall (lock_only (db_filename (self st))) before /\
    Forall (lock_only (db_filename (self st))) after /\
    blobs (env st') = replay after (replay before (blobs (env st))) /\
    same_config (self st) (self st').
Proof.
  intros Ea Ed Eg Er.
  destruct (prelude_frame _ _ _ _ _ _ Ea Ed Eg) as [C1 (before & T1 & F1 & B1)].
  destruct (release_frame _ _ Er) as [C2 (after & T2 & F2 & B2)].
  cbn in T2, B2, F2, C2.
  assert (Hdb : db_filename (self st3) = db_filename (self st)) by apply C1.
  rewrite Hdb in F2.
  exists before, after. split; [|split; [exact F1|split; [exact F2|split]]].
  - apply since_app. rewrite T2, T1. by rewrite <- !app_assoc.
  - by rewrite B2, B1.
  - eapply same_config_trans; [exact C1|]. exact C2.
Qed.

(** A transaction that was committed, with a bucket: the trace and the
    bucket at its end, for each of the three ways the upload can go. *)
Lemma uploaded_path st bk b st1 p st2 st3 content st4 st' :
  bucket (self st) = Some bk ->
  acquire_lock 60 st = (Ok b, st1) ->
  download_db st1 = (Ok p, st2) ->
  get_session st2 = (Ok tt, st3) ->
  upload_db (committed content st3) = (Ok tt, st4) ->
  release_lock (closed st4) = (Ok tt, st') ->
  let db := db_filename (self st) in
  exists before up after,
    since st st' = after ++ [Close] ++ up ++ [Commit] ++ before /\
    Forall (lock_only db) before /\ Forall (lock_only db) after /\
    ((up = [Print (ErrorUploadingDatabase StoreError);
            Request (OpWrite db content) false] /\
      blobs (env st') !! db = blobs (env st) !! db) \/
     (exists t,
         up = [Print (ErrorUploadingDatabase StoreError);
               Request (OpWrite (backup_name (self st) (strftime_compact t)) content) false;
               Request (OpWrite db content) true] /\
         blobs (env st') !! db = Some content) \/
     (exists t,
         up = [Print (CreatedBackup (strftime_compact t)); Print UploadedDatabase;
               Request (OpWrite (backup_name (self st) (strftime_compact t)) content) true;
               Request (OpWrite db content) true] /\
         blobs (env st') !! db = Some content /\
         blobs (env st') !! backup_name (self st) (strftime_compact t) = Some content)).
Proof.
  intros Hb Ea Ed Eg Eu Er db.
  destruct (prelude_frame _ _ _ _ _ _ Ea Ed Eg) as [C1 (before & T1 & F1 & B1)].
  destruct (release_frame _ _ Er) as [C2 (after & T2 & F2 & B2)].
  cbn in T2, B2, F2, C2.
  assert (Hb3 : bucket (self (committed content st3)) = Some bk).
  { cbn. destruct C1 as (-> & _). exact Hb. }
  destruct (upload_db_cases _ bk Hb3) as (st4' & Eu' & S4 & _ & Hcases).
  rewrite Eu in Eu'. injection Eu' as <-.
  assert (Hdb : db_filename (self st3) = db) by apply C1.
  assert (Hdb4 : db_filename (self st4) = db) by (rewrite S4; exact Hdb).
  rewrite Hdb4 in F2.
  assert (Hbk : forall ts, backup_name (with_pending None (self st3)) ts
                           = backup_name (self st) ts).
  { intros ts. unfold backup_name. cbn. by rewrite Hdb. }
  assert (Hlock : db <> db +:+ ".lock").
  { intros H. by apply (lock_name_not_db (self st)). }
  assert (Hlock' : forall ts, backup_name (self st) ts <> db +:+ ".lock").
  { intros ts. apply backup_name_not_lock. }
  cbn [self env committed db_filename with_pending] in Hcases.
  rewrite Hdb in Hcases.
  destruct Hcases as [(Hnone & _)|(content' & Hfile & Hshape)].
  { cbn in Hnone. by rewrite lookup_insert_eq in Hnone. }
  cbn in Hfile. rewrite lookup_insert_eq in Hfile. injection Hfile as <-.
  destruct Hshape as [(T & B)|[(ts & Hts & T & B)|(ts & Hts & T & B)]];
    cbn in T, B.
  - exists before, [Print (ErrorUploadingDatabase StoreError);
                    Request (OpWrite db content) false], after.
    split; [|split; [exact F1|split; [exact F2|left; split; [done|]]]].
    + apply since_app. rewrite T2. cbn. rewrite T. cbn. rewrite T1.
      by rewrite <- !app_assoc.
    + rewrite B2. cbn. rewrite (replay_lock_only db) by done.
      rewrite B, B1. by rewrite (replay_lock_only db).
  - exists before, [Print (ErrorUploadingDatabase StoreError);
                    Request (OpWrite (backup_name (self st) ts) content) false;
                    Request (OpWrite db content) true], after.
    split; [|split; [exact F1|split; [exact F2|right; left]]].
    + apply since_app. rewrite T2. cbn. rewrite T. cbn. rewrite T1.
      rewrite Hbk. by rewrite <- !app_assoc.
    + eexists. rewrite <- Hts. split; [done|].
      rewrite B2. cbn. rewrite (replay_lock_only db) by done.
      rewrite B. apply lookup_insert_eq.
  - exists before, [Print (CreatedBackup ts); Print UploadedDatabase;
                    Request (OpWrite (backup_name (self st) ts) content) true;
                    Request (OpWrite db content) true], after.
    split; [|split; [exact F1|split; [exact F2|right; right]]].
    + apply since_app. rewrite T2. cbn. rewrite T. cbn. rewrite T1.
      rewrite Hbk. by rewrite <- !app_assoc.
    + eexists. rewrite <- Hts. split; [done|].
      rewrite B2. cbn. rewrite !(replay_lock_only db) by done.
      rewrite B, Hbk. split; [|apply lookup_insert_eq].
      rewrite lookup_insert_ne; [apply lookup_insert_eq|].
      apply backup_name_not_db.
Qed.

End Frames.

(** * The claims *)

Section Claims.
Context {lib : Library}.

(** C5.  An instance whose [lock_id] is not the one in the lease blob
    releases nothing: whatever the requests do, [release_lock] returns,
    the bucket is as before, the warning "Not releasing lock as it's owned
    by another process" is printed, and [lock_id] is cleared.  An instance
    that holds no [lock_id] ([st0]) does nothing at all. *)
Theorem release_by_non_holder st st0 b id text fields other :
  bucket (self st) = Some b ->
  lock_id (self st) = Some id -> id <> EmptyString ->
  blobs (env st) !! _get_lock_blob_name (self st) = Some text ->
  json_loads text = Some (JObj fields) ->
  Py.field "lock_id" fields = Some other -> other <> JStr id ->
  lock_id (self st0) = None ->
  (exists st',
      release_lock st = (Ok tt, st') /\
      blobs (env st') = blobs (env st) /\
      In (Print NotReleasingLockOwnedByAnother) (since st st') /\
      lock_id (self st') = None) /\
  release_lock st0 = (Ok tt, st0).
Proof.
  intros Hb Hid Hne Hblob Hjson Hfield Hother Hnone. split.
  - assert (Hheld : Py.held (Some id) = true).
    { cbn. destruct (String.eqb_spec id EmptyString); [done|reflexivity]. }
    unfold release_lock. mred. rewrite Hid, Hheld. mred.
    unfold _release_lock. mred. rewrite Hb, Hid, Hheld. cbn.
    destruct (get_lock_info_spec st) as (info & st1 & E & S & B & (new & T & F) & V).
    rewrite E.
    assert (Hdiff : exists stored, Py.get "lock_id" info = Ok stored /\
                                   Py.differs stored id = true).
    { destruct V as [->|(text' & Ht & Hj)].
      - exists None. by cbn.
      - rewrite Hblob in Ht. injection Ht as <-. rewrite Hjson in Hj. injection Hj as <-.
        exists (Some other). cbn. split; [by rewrite Hfield|].
        destruct other; try reflexivity. cbn.
        destruct (String.eqb_spec s id); [congruence|reflexivity]. }
    destruct Hdiff as (stored & G & D). rewrite G. cbn. rewrite D. mred.
    eexists. split; [reflexivity|]. split; [exact B|]. split; [|reflexivity].
    erewrite since_app; [|cbn; rewrite T; by rewrite app_comm_cons].
    by left.
  - apply release_lock_not_held. by rewrite Hnone.
Qed.

(** C4.  A turn of the loop of [acquire_lock] that reads a lease whose
    timestamp is older than [lock_timeout] at that moment deletes the lease
    and writes its own at once: the turn ends with the lock acquired, the
    delete and the write are its last two requests with nothing but a
    message between them, and it does not sleep.  The number of turns that
    went before plays no part.  The requests of the turn are taken to go
    through, and the timeout not to have passed when it starts. *)
Theorem expired_lease_is_replaced
    fuel timeout start attempt st b text fields s t s1 s2 s3 s4 s5 s6 rest :
  bucket (self st) = Some b ->
  blobs (env st) !! _get_lock_blob_name (self st) = Some text ->
  json_loads text = Some (JObj fields) ->
  Py.field "timestamp" fields = Some (JStr s) ->
  fromisoformat s = Some t ->
  oracle (env st) = s1 :: s2 :: s3 :: s4 :: s5 :: s6 :: rest ->
  fails s1 = false -> fails s2 = false -> fails s3 = false ->
  fails s4 = false -> fails s5 = false -> fails s6 = false ->
  seconds (lock_timeout (self st))
    < clock (env st) + latency s1 + latency s2 + latency s3 - t ->
  clock (env st) - start <= seconds timeout ->
  exists id content earlier st',
    acquire_loop (S fuel) timeout start attempt st = (Ok true, st') /\
    since st st' =
      [Print (CreatedDatabaseLock id);
       Request (OpWrite (_get_lock_blob_name (self st)) content) true;
       Print ForceReleasedDatabaseLock;
       Request (OpDelete (_get_lock_blob_name (self st))) true;
       Request (OpExists (_get_lock_blob_name (self st))) true;
       Print FoundExpiredLock] ++ earlier /\
    Forall (read_only (db_filename (self st))) earlier /\
    Forall (fun ev => is_sleep ev = false) (since st st') /\
    blobs (env st') !! _get_lock_blob_name (self st) = Some content /\
    content = json_dumps (JObj [("lock_id", JStr id);
                                ("timestamp", JStr (isoformat (clock (env st')
                                                                 - latency s6)));
                                ("hostname", JStr (hostname (env st)));
                                ("pid", JNum (pid (env st)))]) /\
    lock_id (self st') = Some id.
Proof.
  intros Hb Hblob Hjson Hfield Hiso Ho F1 F2 F3 F4 F5 F6 Hold Hstart.
  destruct (try_acquire_takes_over st b text s1 s2 s3 s4 s5 s6 rest (JObj fields))
    as (id & content & earlier & st' & E & T & R & B & C & L); try assumption.
  { by rewrite F3, Hjson. }
  { intros st3 Hs Hc. exists []. rewrite said_nil.
    rewrite (verdict_on_timestamp fields s t) by assumption.
    rewrite Hs, Hc. destruct (Z.ltb_spec (seconds (lock_timeout (self st)))
      (clock (env st) + latency s1 + latency s2 + latency s3 - t)); [done|lia]. }
  exists id, content, earlier, st'.
  assert (Hsince : since st st' = [Print (CreatedDatabaseLock id);
       Request (OpWrite (_get_lock_blob_name (self st)) content) true;
       Print ForceReleasedDatabaseLock;
       Request (OpDelete (_get_lock_blob_name (self st))) true;
       Request (OpExists (_get_lock_blob_name (self st))) true;
       Print FoundExpiredLock] ++ earlier).
  { apply since_app. rewrite T. by rewrite <- app_assoc. }
  split; [by apply acquire_loop_acquires|]. split; [exact Hsince|].
  split; [exact R|]. split; [|by repeat split].
  rewrite Hsince. apply Forall_app. split; [by repeat constructor|].
  eapply no_sleep_in_read_only, R.
Qed.


(** C10.  [upload_db] writes the canonical blob before the backup.  When
    the write of the canonical blob fails, the call makes no attempt at
    all to write a backup; and every attempt to write a backup comes, in
    the same call, after the write of the same content to the canonical
    key, which went through. *)
Theorem canonical_write_comes_first st :
  exists st',
    upload_db st = (Ok tt, st') /\
    (forall content,
        In (Request (OpWrite (db_filename (self st)) content) false) (since st st') ->
        forall ts, count (is_write_attempt (backup_name (self st) ts)) (since st st') = 0%nat) /\
    (forall ts content ok pre post,
        since st st' = pre ++ Request (OpWrite (backup_name (self st) ts) content) ok :: post ->
        In (Request (OpWrite (db_filename (self st)) content) true) post).
Proof.
  destruct (bucket (self st)) as [b|] eqn:Hb.
  2: { eexists. split; [by apply upload_db_local|].
       rewrite (since_app st _ [Print SkippingUpload]) by by destruct st as [m []].
       split.
       - intros content [|[]]. discriminate.
       - intros ts content ok [|? [|? ?]] post; cbn; intros [= ]. }
  destruct (upload_db_cases st b Hb) as (st' & E & _ & _ & Hcases).
  exists st'. split; [exact E|].
  assert (Hne : forall ts, String.eqb (db_filename (self st)) (backup_name (self st) ts) = false).
  { intros ts. apply String.eqb_neq. intros H. by apply (backup_name_not_db (self st) ts). }
  destruct Hcases as [(_ & T & _)|(content & _ & [(T & _)|[(ts0 & _ & T & _)|(ts0 & _ & T & _)]])];
    rewrite (since_app _ _ _ T); split.
  - intros c [|[]]. discriminate.
  - intros ts c ok [|? [|? ?]] post; cbn; intros [= ].
  - intros c _ ts. cbn. by rewrite Hne.
  - intros ts c ok [|? [|? [|? ?]]] post; cbn; intros [= ].
    exfalso. by apply (backup_name_not_db (self st) ts).
  - intros c Hin. exfalso. cbn in Hin.
    destruct Hin as [Hin|[Hin|[Hin|[]]]]; try discriminate Hin.
    injection Hin as Hin _. by apply (backup_name_not_db (self st) ts0).
  - intros ts c ok [|? [|? [|? [|? ?]]]] post; cbn; intros [= ]; subst.
    + by left.
    + exfalso. by apply (backup_name_not_db (self st) ts).
  - intros c Hin. exfalso. cbn in Hin.
    destruct Hin as [Hin|[Hin|[Hin|[Hin|[]]]]]; discriminate Hin.
  - intros ts c ok [|? [|? [|? [|? [|? ?]]]]] post; cbn; intros [= ]; subst.
    + by left.
    + exfalso. by apply (backup_name_not_db (self st) ts).
Qed.

(** C3, as the code has it.  [download_db] leaves the bucket as it was,
    and no failure of a request makes it raise: when the look for the blob
    or the download fails, or when there is no blob, it goes on with the
    file at [local_path].  It returns [local_path], with the file that
    [after_download] gives there: the blob when it is there and is
    downloaded; the result of [models.initialize_db] on what was at the
    path when there is no blob; and, when a request fails, the file that
    is at the path (from before, or left by the failed download), a
    brand-new store being made only where there is none.  It raises in one
    case: a store has to be made where no file is, outside the [try], and
    [models.initialize_db] raises; the exception is that one.  So it
    returns whenever a file is at [local_path], and whenever the store can
    be made. *)
Theorem download_raises_only_for_the_store st :
  exists st',
    download_db st =
      (match (after_download st).1 with
       | Some e => Raise e
       | None => Ok (local_path (self st))
       end, st') /\
    blobs (env st') = blobs (env st) /\
    files (env st') !! local_path (self st) = (after_download st).2 /\
    (forall e, (after_download st).1 = Some e ->
               exists debris,
                 create_error (local_path (self st)) None = Some (e, debris) /\
                 (after_download st).2 = debris) /\
    (is_Some (files (env st) !! local_path (self st)) -> (after_download st).1 = None) /\
    (create_error (local_path (self st)) None = None -> (after_download st).1 = None) /\
    ((after_download st).1 = None -> is_Some (after_download st).2) /\
    (forall content,
        bucket (self st) <> None ->
        blobs (env st) !! db_filename (self st) = Some content ->
        fails (coming (env st) 0) = false -> fails (coming (env st) 1) = false ->
        after_download st = (None, Some content)).
Proof.
  destruct (download_db_spec st) as (st' & E & F & _). exists st'.
  split; [exact E|]. split.
  { pose proof (reads_download_db st) as K. unfold keeps in K. rewrite E in K.
    apply read_only_blobs in K. exact (proj1 K). }
  split; [exact F|].
  assert (Hrecover : forall (now : option string) e,
             (match now with
              | Some content => (None, Some content)
              | None => bootstrap (local_path (self st)) None
              end).1 = Some e ->
             exists debris,
               create_error (local_path (self st)) None = Some (e, debris) /\
               (match now with
                | Some content => (None : option exn, Some content)
                | None => bootstrap (local_path (self st)) None
                end).2 = debris).
  { intros [content|] e; cbn; [done|]. unfold bootstrap.
    destruct (create_error _ None) as [[e0 [junk|]]|]; cbn; intros [= <-]; eauto. }
  split; [|split; [apply after_download_kept|split; [|split; [apply after_download_file|]]]].
  - intros e. unfold after_download.
    destruct (bucket (self st)); [|apply Hrecover].
    destruct (fails (coming (env st) 0)); [apply Hrecover|].
    destruct (blobs (env st) !! db_filename (self st)).
    + destruct (fails (coming (env st) 1)); [apply Hrecover|done].
    + destruct (bootstrap _ (files (env st) !! local_path (self st))) as [[e0|] now] eqn:B;
        [apply Hrecover|done].
  - intros Hc. destruct ((after_download st).1) as [e|] eqn:H; [|done].
    exfalso. revert H. unfold after_download, bootstrap.
    assert (Hr : forall now : option string,
               (match now with
                | Some content => (None : option exn, Some content)
                | None => match create_error (local_path (self st)) None with
                          | Some (e, debris) =>
                              (Some e,
                               match debris with Some junk => Some junk | None => None end)
                          | None => (None, Some (new_store None))
                          end
                end).1 = Some e -> False).
    { intros [content|]; cbn; [done|]. by rewrite Hc. }
    destruct (bucket (self st)); [|apply Hr].
    destruct (fails (coming (env st) 0)); [apply Hr|].
    destruct (blobs (env st) !! db_filename (self st)).
    + destruct (fails (coming (env st) 1)); [apply Hr|done].
    + destruct (create_error _ (files (env st) !! local_path (self st))) as [[e0 debris]|];
        [apply Hr|done].
  - intros content Hb Hblob F0 F1. unfold after_download.
    destruct (bucket (self st)); [|done]. by rewrite F0, Hblob, F1.
Qed.


(** C2, as the code has it.  [acquire_lock] is called before the [try]
    whose [finally] releases the lock.  When it returns, the last step of
    [with_session] is one call of [release_lock], made once the session is
    closed (or before a session was opened, when [download_db] raised for
    the local store) and with the [lock_id] that [acquire_lock] left, and
    at the end the instance holds no [lock_id]: this on every path, whether
    the caller's function returned or raised.  When [acquire_lock] raises,
    [with_session] ends there with the same exception and [release_lock]
    is not called: [lock_id] is what it was on entry, or [None]. *)
Theorem release_is_the_last_step {R} (func : Transform R) st res st' :
  with_session func st = (res, st') ->
  match acquire_lock 60 st with
  | (Ok _, st1) =>
      exists st_end,
        release_lock st_end = (Ok tt, st') /\
        (pending (self st_end) = None \/
         exists e, download_db st1 = (Raise e, st_end) /\ res = Raise e /\
                   pending (self st_end) = pending (self st1)) /\
        lock_id (self st_end) = lock_id (self st1) /\
        Py.held (lock_id (self st')) = false
  | (Raise e, st1) =>
      res = Raise e /\ st' = st1 /\
      (lock_id (self st') = lock_id (self st) \/ lock_id (self st') = None)
  | (OutOfFuel, _) => False
  end.
Proof.
  intros E. apply with_session_path in E.
  assert (Hheld : forall st0, release_lock st0 = (Ok tt, st') ->
                              Py.held (lock_id (self st')) = false).
  { intros st0 Er. destruct (release_lock_outcome st0) as (st'' & Er' & _ & H & _).
    rewrite Er in Er'. by injection Er' as <-. }
  assert (Hkept : forall st1 p st2 st3,
             download_db st1 = (Ok p, st2) -> get_session st2 = (Ok tt, st3) ->
             lock_id (self st3) = lock_id (self st1)).
  { intros st1 p st2 st3 Ed Eg.
    destruct (get_session_after_download _ _ _ Ed) as (? & Eg' & L2). rewrite Eg in Eg'.
    injection Eg' as <-.
    destruct (download_db_returns _ _ _ Ed) as (_ & _ & L1 & _). congruence. }
  inversion E as [e' st1 Ea|b st1 e' st2 st0 Ea Ed Er
                 |b st1 p st2 st3 e0 content st0 Ea Ed Eg Ef Er
                 |b st1 p st2 st3 r content e0 st0 Ea Ed Eg Ef Ec Er
                 |b st1 p st2 st3 r content st4 st0 Ea Ed Eg Ef Ec Eu Er]; subst;
    rewrite Ea.
  - split; [done|]. split; [done|].
    destruct (bucket (self st)) as [bk|] eqn:Hb.
    + rewrite (acquire_lock_run _ _ bk Hb) in Ea.
      destruct (acquire_loop_spec (S LOCK_RETRY_ATTEMPTS) 60 (clock (env st)) 0 st)
        as (r & st1 & E1 & _ & H1); [lia|].
      rewrite Ea in E1. injection E1 as <- <-. apply H1.
    + rewrite acquire_lock_local in Ea by done. discriminate.
  - destruct (unmade_path _ _ _ _ _ _ Ea Ed Er) as (_ & P & L).
    exists st2. split; [exact Er|]. split; [right; eauto|].
    split; [exact L|by eapply Hheld].
  - exists (rolled_back e0 st3). split; [exact Er|]. split; [by left|].
    split; [cbn; by eapply Hkept|by eapply Hheld].
  - exists (rolled_back e0 st3). split; [exact Er|]. split; [by left|].
    split; [cbn; by eapply Hkept|by eapply Hheld].
  - exists (closed st4). split; [exact Er|]. split; [by left|].
    split; [|by eapply Hheld]. cbn.
    assert (Hs : self st4 = self (committed content st3)).
    { destruct (bucket (self st3)) as [bk|] eqn:Hb.
      - destruct (upload_db_cases (committed content st3) bk Hb) as (? & Eu' & S & _).
        rewrite Eu in Eu'. by injection Eu' as <-.
      - rewrite upload_db_local in Eu by done. by injection Eu as <-. }
    rewrite Hs. cbn. by eapply Hkept.
Qed.


(** C7, as the code has it.  When a write of the upload fails, the only
    way it can fail with the file in place, [with_session] still returns
    what the caller's function returned: the session was committed and is
    not rolled back, and the failure is printed, not raised.  The canonical
    blob is what it was before the call when it is its own write that
    failed, and then no backup is attempted; when the write that failed is
    the backup's, the canonical blob already holds the new content. *)
Theorem failed_upload_is_absorbed {R} (func : Transform R) st b res st' k written :
  bucket (self st) = Some b ->
  with_session func st = (res, st') ->
  k <> _get_lock_blob_name (self st) ->
  In (Request (OpWrite k written) false) (since st st') ->
  exists r found,
    func found = (Returns r, written) /\
    res = Ok r /\
    In Commit (since st st') /\
    ~ In Rollback (since st st') /\
    In (Print (ErrorUploadingDatabase StoreError)) (since st st') /\
    ((k = db_filename (self st) /\
      blobs (env st') !! db_filename (self st) = blobs (env st) !! db_filename (self st) /\
      forall ts, count (is_write_attempt (backup_name (self st) ts)) (since st st') = 0%nat) \/
     (exists t,
         k = backup_name (self st) (strftime_compact t) /\
         In (Request (OpWrite (db_filename (self st)) written) true) (since st st') /\
         blobs (env st') !! db_filename (self st) = Some written)).
Proof.
  intros Hb E Hk Hin. apply with_session_path in E.
  assert (Hlk : forall evs, Forall (lock_only (db_filename (self st))) evs ->
                            ~ In (Request (OpWrite k written) false) evs).
  { intros evs F Hin'. rewrite Forall_forall in F.
    apply list_elem_of_In, F in Hin'. by apply Hk. }
  inversion E as [e' st1 Ea|b0 st1 e' st2 st0 Ea Ed Er
                 |b0 st1 p st2 st3 e0 content st0 Ea Ed Eg Ef Er
                 |b0 st1 p st2 st3 r content e0 st0 Ea Ed Eg Ef Ec Er
                 |b0 st1 p st2 st3 r content st4 st0 Ea Ed Eg Ef Ec Eu Er]; subst.
  - exfalso. pose proof (keeps_acquire_lock 60 st) as K. unfold keeps in K.
    rewrite Ea in K. apply grows_since in K. by apply (Hlk _ (proj2 K)).
  - exfalso. destruct (unmade_path _ _ _ _ _ _ Ea Ed Er) as (K & _).
    apply grows_since in K. by apply (Hlk _ (proj2 K)).
  - exfalso.
    destruct (failed_path _ _ _ _ _ _ _ _ Ea Ed Eg Er) as (bf & af & S & F1 & F2 & _).
    rewrite S, !in_app_iff in Hin. destruct Hin as [Hin|[Hin|Hin]].
    + by apply (Hlk _ F2).
    + cbn in Hin. intuition discriminate.
    + by apply (Hlk _ F1).
  - exfalso.
    destruct (failed_path _ _ _ _ _ _ _ _ Ea Ed Eg Er) as (bf & af & S & F1 & F2 & _).
    rewrite S, !in_app_iff in Hin. destruct Hin as [Hin|[Hin|Hin]].
    + by apply (Hlk _ F2).
    + cbn in Hin. intuition discriminate.
    + by apply (Hlk _ F1).
  - destruct (uploaded_path _ _ _ _ _ _ _ _ _ _ Hb Ea Ed Eg Eu Er)
      as (bf & up & af & S & F1 & F2 & Hup).
    destruct (lock_only_not_step _ _ F1) as (_ & R1 & _).
    destruct (lock_only_not_step _ _ F2) as (_ & R2 & _).
    assert (Hinup : In (Request (OpWrite k written) false) up).
    { rewrite S, !in_app_iff in Hin. destruct Hin as [Hin|[Hin|[Hin|[Hin|Hin]]]].
      - by apply Hlk in Hin.
      - cbn in Hin. intuition discriminate.
      - exact Hin.
      - cbn in Hin. intuition discriminate.
      - by apply Hlk in Hin. }
    assert (Hne : forall ts, String.eqb (db_filename (self st)) (backup_name (self st) ts)
                             = false).
    { intros ts. apply String.eqb_neq. intros H. by apply (backup_name_not_db (self st) ts). }
    destruct Hup as [(-> & B)|[(t & -> & B)|(t & -> & _)]]; cbn in Hinup.
    + destruct Hinup as [Hinup|[Hinup|[]]]; [discriminate|]. injection Hinup as <- <-.
      exists r, (found_by st3). split; [exact Ef|]. split; [done|]. rewrite S.
      split; [rewrite !in_app_iff; cbn; tauto|].
      split; [rewrite !in_app_iff; cbn; intuition discriminate|].
      split; [rewrite !in_app_iff; cbn; tauto|].
      left. split; [done|]. split; [exact B|].
      intros ts. rewrite !count_app.
      rewrite (proj2 (count_write_lock_only _ _ _ F1 (backup_name_not_lock _ ts))).
      rewrite (proj2 (count_write_lock_only _ _ _ F2 (backup_name_not_lock _ ts))).
      unfold count. cbn. by rewrite Hne.
    + destruct Hinup as [Hinup|[Hinup|[Hinup|[]]]]; try discriminate.
      injection Hinup as <- <-.
      exists r, (found_by st3). split; [exact Ef|]. split; [done|]. rewrite S.
      split; [rewrite !in_app_iff; cbn; tauto|].
      split; [rewrite !in_app_iff; cbn; intuition discriminate|].
      split; [rewrite !in_app_iff; cbn; tauto|].
      right. exists t. split; [done|]. split; [|exact B].
      rewrite !in_app_iff. cbn. tauto.
    + destruct Hinup as [Hinup|[Hinup|[Hinup|[Hinup|[]]]]]; discriminate.
Qed.

(** C8, as the code has it.  With a bucket, a call of [with_session] that
    returns and prints no upload error writes the canonical key once and
    one backup key once, "backups/<db_filename>.<timestamp>" with the
    timestamp [strftime("%Y%m%d%H%M%S")] of a time of the call, both with
    the content the session committed; it makes no other attempt to write
    either, and every other blob it writes is the lock. *)
Theorem successful_session_writes_twice {R} (func : Transform R) st b r st' :
  bucket (self st) = Some b ->
  with_session func st = (Ok r, st') ->
  (forall e, ~ In (Print (ErrorUploadingDatabase e)) (since st st')) ->
  exists t content,
    let db := db_filename (self st) in
    let backup := backup_name (self st) (strftime_compact t) in
    count (is_write db) (since st st') = 1%nat /\
    count (is_write_attempt db) (since st st') = 1%nat /\
    count (is_write backup) (since st st') = 1%nat /\
    count (is_write_attempt backup) (since st st') = 1%nat /\
    (forall key text ok,
        In (Request (OpWrite key text) ok) (since st st') ->
        key = db \/ key = backup \/ key = _get_lock_blob_name (self st)) /\
    blobs (env st') !! db = Some content /\
    blobs (env st') !! backup = Some content.
Proof.
  intros Hb E Hquiet. apply with_session_path in E.
  inversion E as [|
                 |
                 |
                 |b0 st1 p st2 st3 r0 content st4 st0 Ea Ed Eg Ef Ec Eu Er]; subst.
  destruct (uploaded_path _ _ _ _ _ _ _ _ _ _ Hb Ea Ed Eg Eu Er)
    as (bf & up & af & S & F1 & F2 & Hup).
  assert (Hne : forall ts, String.eqb (db_filename (self st)) (backup_name (self st) ts)
                           = false).
  { intros ts. apply String.eqb_neq. intros H. by apply (backup_name_not_db (self st) ts). }
  assert (Hne' : forall ts, String.eqb (backup_name (self st) ts) (db_filename (self st))
                            = false).
  { intros ts. apply String.eqb_neq. apply backup_name_not_db. }
  assert (Hlock : db_filename (self st) <> db_filename (self st) +:+ ".lock").
  { intros H. by apply (lock_name_not_db (self st)). }
  destruct Hup as [(-> & _)|[(t & -> & _)|(t & -> & B1 & B2)]].
  - exfalso. apply (Hquiet StoreError). rewrite S, !in_app_iff. cbn. tauto.
  - exfalso. apply (Hquiet StoreError). rewrite S, !in_app_iff. cbn. tauto.
  - exists t, content. cbn zeta.
    assert (Hkeys : forall key text ok,
               In (Request (OpWrite key text) ok) (since st st') ->
               key = db_filename (self st) \/
               key = backup_name (self st) (strftime_compact t) \/
               key = _get_lock_blob_name (self st)).
    { intros key text ok Hin. rewrite S, !in_app_iff in Hin.
      rewrite Forall_forall in F1, F2.
      destruct Hin as [Hin|[Hin|[Hin|[Hin|Hin]]]].
      + right. right. apply list_elem_of_In, F2 in Hin. exact Hin.
      + cbn in Hin. intuition discriminate.
      + cbn in Hin. destruct Hin as [Hin|[Hin|[Hin|[Hin|[]]]]]; try discriminate.
        * injection Hin as <- _ _. tauto.
        * injection Hin as <- _ _. tauto.
      + cbn in Hin. intuition discriminate.
      + right. right. apply list_elem_of_In, F1 in Hin. exact Hin. }
    rewrite S, !count_app.
    rewrite (proj1 (count_write_lock_only _ _ _ F1 Hlock)).
    rewrite (proj2 (count_write_lock_only _ _ _ F1 Hlock)).
    rewrite (proj1 (count_write_lock_only _ _ _ F2 Hlock)).
    rewrite (proj2 (count_write_lock_only _ _ _ F2 Hlock)).
    rewrite (proj1 (count_write_lock_only _ _ _ F1 (backup_name_not_lock _ (strftime_compact t)))).
    rewrite (proj2 (count_write_lock_only _ _ _ F1 (backup_name_not_lock _ (strftime_compact t)))).
    rewrite (proj1 (count_write_lock_only _ _ _ F2 (backup_name_not_lock _ (strftime_compact t)))).
    rewrite (proj2 (count_write_lock_only _ _ _ F2 (backup_name_not_lock _ (strftime_compact t)))).
    unfold count. cbn. rewrite !String.eqb_refl, Hne, Hne'. cbn.
    split; [done|]. split; [done|]. split; [done|]. split; [done|].
    split; [|by split].
    intros key text ok Hin. apply (Hkeys key text ok). by rewrite S.
Qed.

End Claims.

(** * Further properties *)

(** ** Requests that go through *)

Lemma smooth_coming d w :
  smooth d w = true -> 0 <= d ->
  fails (coming w 0) = false /\ 0 <= latency (coming w 0) <= d.
Proof.
  unfold smooth, coming. destruct (oracle w) as [|s rest]; cbn.
  - intros _ Hd. split; [done|lia].
  - intros H Hd. apply andb_prop in H as [H _].
    apply andb_prop in H as [H H3]. apply andb_prop in H as [H1 H2].
    apply negb_true_iff in H1. split; [done|]. lia.
Qed.

Lemma smooth_served d op w : smooth d w = true -> smooth d (served op w) = true.
Proof.
  unfold smooth, served. cbn. destruct (oracle w) as [|s rest]; cbn; [done|].
  intros H. by apply andb_prop in H as [_ H].
Qed.

Lemma request_served {A} op (effect : World -> outcome A * World) st :
  fails (coming (env st) 0) = false ->
  request op effect st =
    (let (r, w') := effect (served op (env st)) in (r, {| self := self st; env := w' |})).
Proof.
  intros F. unfold request, request_leaving, served, coming in *. cbn.
  destruct (oracle (env st)) as [|s rest]; cbn in *; [done|]. by rewrite F.
Qed.

Lemma blob_exists_served key st :
  fails (coming (env st) 0) = false ->
  blob_exists key st =
    (Ok (bool_decide (is_Some (blobs (env st) !! key))),
     {| self := self st; env := served (OpExists key) (env st) |}).
Proof. intros F. unfold blob_exists. by rewrite request_served. Qed.

Lemma blob_download_as_text_served key text st :
  fails (coming (env st) 0) = false ->
  blobs (env st) !! key = Some text ->
  blob_download_as_text key st =
    (Ok text, {| self := self st; env := served (OpRead key) (env st) |}).
Proof.
  intros F B. unfold blob_download_as_text. rewrite request_served by done.
  cbn. by rewrite B.
Qed.

Lemma blob_upload_served key content st :
  fails (coming (env st) 0) = false ->
  blob_upload key content st =
    (Ok tt, {| self := self st;
               env := with_blobs (<[key := content]> (blobs (env st)))
                        (served (OpWrite key content) (env st)) |}).
Proof. intros F. unfold blob_upload. by rewrite request_served. Qed.

Lemma blob_delete_served key text st :
  fails (coming (env st) 0) = false ->
  blobs (env st) !! key = Some text ->
  blob_delete key st =
    (Ok tt, {| self := self st;
               env := with_blobs (delete key (blobs (env st)))
                        (served (OpDelete key) (env st)) |}).
Proof.
  intros F B. unfold blob_delete. rewrite request_served by done. cbn. by rewrite B.
Qed.

Lemma blob_download_to_filename_served key path content st :
  fails (coming (env st) 0) = false ->
  blobs (env st) !! key = Some content ->
  blob_download_to_filename key path st =
    (Ok tt, {| self := self st;
               env := with_files (<[path := content]> (files (env st)))
                        (served (OpFetch key path) (env st)) |}).
Proof.
  intros F B. unfold blob_download_to_filename, request_leaving, served, coming in *.
  cbn. destruct (oracle (env st)) as [|s rest]; cbn in *; rewrite ?F, B; done.
Qed.

(** ** Waiting for a lease *)

#[global] Arguments served : simpl never.
#[global] Arguments smooth : simpl never.

Lemma served_blobs op w : blobs (served op w) = blobs w.
Proof. reflexivity. Qed.
Lemma served_files op w : files (served op w) = files w.
Proof. reflexivity. Qed.
Lemma served_clock op w : clock (served op w) = clock w + latency (coming w 0).
Proof. reflexivity. Qed.
Lemma served_trace op w : trace (served op w) = Request op true :: trace w.
Proof. reflexivity. Qed.
Lemma served_hostname op w : hostname (served op w) = hostname w.
Proof. reflexivity. Qed.
Lemma served_pid op w : pid (served op w) = pid w.
Proof. reflexivity. Qed.
Lemma served_uuids op w : uuids (served op w) = uuids w.
Proof. reflexivity. Qed.

Lemma served_clock_le d op w :
  smooth d w = true -> 0 <= d -> clock w <= clock (served op w) <= clock w + d.
Proof.
  intros Hs Hd. rewrite served_clock. destruct (smooth_coming d w Hs Hd). lia.
Qed.

Lemma lingers_refl st : lingers 0 st st.
Proof.
  split; [done|]. split; [done|]. split; [done|]. split; [lia|]. split; [done|].
  by exists [].
Qed.

(** A block that only raises has waited for nothing. *)
Lemma lingers_raise {A} (e : exn) st : lingers 0 st (raise (A:=A) e st).2.
Proof. apply lingers_refl. Qed.

Lemma lingers_trans b1 b2 st1 st2 st3 :
  lingers b1 st1 st2 -> lingers b2 st2 st3 -> lingers (b1 + b2) st1 st3.
Proof.
  intros (S1 & B1 & F1 & C1 & M1 & new1 & T1 & W1) (S2 & B2 & F2 & C2 & M2 & new2 & T2 & W2).
  split; [congruence|]. split; [congruence|]. split; [congruence|]. split; [lia|].
  split; [auto|]. exists (new2 ++ new1). split.
  - rewrite T2, T1. by rewrite app_assoc.
  - apply Forall_app. split; [by rewrite <- S1|done].
Qed.

Lemma lingers_weaken b b' st st' : b <= b' -> lingers b st st' -> lingers b' st st'.
Proof.
  intros Hb (S1 & B1 & F1 & C1 & M1 & W1). repeat split; try done; lia.
Qed.

Lemma lingers_served op st d :
  smooth d (env st) = true -> 0 <= d ->
  match op with OpWrite _ _ | OpDelete _ => False | _ => True end ->
  lingers d st {| self := self st; env := served op (env st) |}.
Proof.
  intros Hs Hd Hop. destruct (smooth_coming _ _ Hs Hd) as [_ Hl].
  split; [done|]. split; [done|]. split; [done|]. cbn [env].
  split; [rewrite served_clock; lia|]. split; [intros; by apply smooth_served|].
  exists [Request op true]. split; [done|]. constructor; [|done].
  by destruct op.
Qed.

Section Live.
Context {lib : Library}.

(** A turn of the loop that finds a lease which has not expired. *)
Lemma try_acquire_waits st b d text fields s t :
  bucket (self st) = Some b ->
  smooth d (env st) = true -> 0 <= d ->
  blobs (env st) !! _get_lock_blob_name (self st) = Some text ->
  json_loads text = Some (JObj fields) ->
  Py.field "timestamp" fields = Some (JStr s) ->
  fromisoformat s = Some t ->
  clock (env st) + 3 * d - t <= seconds (lock_timeout (self st)) ->
  exists st', try_acquire st = (Ok false, st') /\ lingers (3 * d) st st'.
Proof.
  intros Hb Hs Hd Hblob Hjson Hfield Hiso Hlive.
  set (lk := _get_lock_blob_name (self st)) in *.
  set (st1 := {| self := self st; env := served (OpExists lk) (env st) |}).
  set (st2 := {| self := self st; env := served (OpExists lk) (env st1) |}).
  set (st3 := {| self := self st; env := served (OpRead lk) (env st2) |}).
  assert (L1 : lingers d st st1) by by apply lingers_served.
  assert (L2 : lingers d st1 st2).
  { apply (lingers_served (OpExists lk) st1); [by apply L1|done|done]. }
  assert (L3 : lingers d st2 st3).
  { apply (lingers_served (OpRead lk) st2); [apply L2; by apply L1|done|done]. }
  assert (L : lingers (3 * d) st st3).
  { replace (3 * d) with (d + d + d) by lia.
    eapply lingers_trans; [eapply lingers_trans|]; eassumption. }
  assert (S1 : smooth d (env st1) = true) by by apply L1.
  assert (S2 : smooth d (env st2) = true) by by apply L2.
  exists st3. split; [|exact L].
  assert (B1 : blobs (env st1) !! lk = Some text) by (by rewrite (proj1 (proj2 L1))).
  assert (B2 : blobs (env st2) !! lk = Some text).
  { by rewrite (proj1 (proj2 L2)). }
  unfold try_acquire, _lock_exists. mred. rewrite Hb. mred.
  rewrite blob_exists_served by by apply smooth_coming with d.
  fold lk. rewrite Hblob. mred. fold st1.
  unfold _get_lock_info. mred. rewrite Hb. mred.
  rewrite blob_exists_served by by apply smooth_coming with d.
  fold lk. rewrite B1. mred. change (self st1) with (self st). fold st2.
  rewrite (blob_download_as_text_served lk text)
    by (by apply smooth_coming with d || done).
  change (self st2) with (self st). fold st3. rewrite Hjson. mred.
  rewrite (verdict_on_timestamp fields s t) by assumption.
  destruct L as (_ & _ & _ & C & _).
  subst st3 st2 st1. cbn [self env] in *.
  rewrite (proj2 (Z.ltb_ge _ _)) by lia. done.
Qed.

Lemma get_lock_info_reads st b d text info :
  bucket (self st) = Some b ->
  smooth d (env st) = true -> 0 <= d ->
  blobs (env st) !! _get_lock_blob_name (self st) = Some text ->
  json_loads text = Some info ->
  exists st',
    _get_lock_info st = (Ok info, st') /\ lingers (2 * d) st st' /\
    trace (env st') =
      [Request (OpRead (_get_lock_blob_name (self st))) true;
       Request (OpExists (_get_lock_blob_name (self st))) true] ++ trace (env st).
Proof.
  intros Hb Hs Hd Hblob Hjson.
  set (lk := _get_lock_blob_name (self st)) in *.
  set (st1 := {| self := self st; env := served (OpExists lk) (env st) |}).
  set (st2 := {| self := self st; env := served (OpRead lk) (env st1) |}).
  assert (L1 : lingers d st st1) by by apply lingers_served.
  assert (L2 : lingers d st1 st2).
  { apply (lingers_served (OpRead lk) st1); [by apply L1|done|done]. }
  assert (L : lingers (2 * d) st st2).
  { replace (2 * d) with (d + d) by lia. eapply lingers_trans; eassumption. }
  assert (S1 : smooth d (env st1) = true) by by apply L1.
  exists st2. split; [|by split].
  unfold _get_lock_info. mred. rewrite Hb. mred.
  rewrite blob_exists_served by by apply smooth_coming with d.
  fold lk. rewrite Hblob. mred. fold st1.
  rewrite (blob_download_as_text_served lk text)
    by (by apply smooth_coming with d || done).
  change (self st1) with (self st). fold st2. rewrite Hjson. by mred.
Qed.

Lemma lingers_said_slept st msg n :
  0 <= n ->
  lingers (seconds n) st
    {| self := self st;
       env := log (Sleep n) (advance (seconds n) (log (Print msg) (env st))) |}.
Proof.
  intros Hn. split; [done|]. split; [done|]. split; [done|].
  split; [cbn; unfold seconds; lia|].
  split; [done|]. exists [Sleep n; Print msg]. split; [done|]. by repeat constructor.
Qed.

(** The loop of [acquire_lock] before a lease that stays live. *)
Lemma acquire_loop_waits fuel timeout start attempt st b d text fields s t :
  (attempt <= LOCK_RETRY_ATTEMPTS < fuel + attempt)%nat ->
  bucket (self st) = Some b ->
  smooth d (env st) = true -> 0 <= d ->
  blobs (env st) !! _get_lock_blob_name (self st) = Some text ->
  json_loads text = Some (JObj fields) ->
  Py.field "timestamp" fields = Some (JStr s) ->
  fromisoformat s = Some t ->
  clock (env st) + (6 - Z.of_nat attempt) * (5 * d + seconds LOCK_RETRY_DELAY) - t
    <= seconds (lock_timeout (self st)) ->
  exists why st',
    acquire_loop fuel timeout start attempt st = (Raise (DatabaseLockException why), st') /\
    lingers ((6 - Z.of_nat attempt) * (5 * d + seconds LOCK_RETRY_DELAY)) st st' /\
    ((why = AfterSeconds timeout /\
      seconds timeout < clock (env st) - start
                        + (6 - Z.of_nat attempt) * (5 * d + seconds LOCK_RETRY_DELAY)) \/
     why = AfterAttempts (S LOCK_RETRY_ATTEMPTS)
             (default (JStr "unknown") (Py.field "lock_id" fields))).
Proof.
  revert attempt st. induction fuel as [|fuel IH];
    intros attempt st Hfuel Hb Hs Hd Hblob Hjson Hfield Hiso Hlive; [lia|].
  assert (Hdelay : seconds LOCK_RETRY_DELAY = 2000000) by reflexivity.
  unfold LOCK_RETRY_ATTEMPTS in Hfuel.
  cbn [acquire_loop].
  remember (LOCK_RETRY_ATTEMPTS <? S attempt)%nat as last eqn:Hcmp. symmetry in Hcmp.
  mred.
  destruct (Z.ltb_spec (seconds timeout) (clock (env st) - start)) as [Hlate|Hearly]; mred.
  { do 2 eexists. split; [reflexivity|]. split; [|left; split; [done|nia]].
    eapply lingers_weaken; [|apply lingers_refl]. nia. }
  destruct (try_acquire_waits st b d text fields s t) as (st1 & E1 & L1); try assumption.
  { nia. }
  rewrite E1. mred.
  pose proof L1 as (S1 & B1 & _ & C1 & M1 & _).
  unfold LOCK_RETRY_ATTEMPTS in Hcmp.
  destruct last; [apply Nat.ltb_lt in Hcmp|apply Nat.ltb_ge in Hcmp]; mred.
  - destruct (get_lock_info_reads st1 b d text (JObj fields)) as (st2 & E2 & L2 & _);
      rewrite ?S1, ?B1; try assumption; [by apply M1|].
    rewrite E2. mred.
    do 2 eexists. split; [reflexivity|]. split.
    + eapply lingers_weaken; [|eapply lingers_trans; [exact L1|exact L2]]. nia.
    + right. unfold LOCK_RETRY_ATTEMPTS. do 2 f_equal. lia.
  - set (st1' := {| self := self st1;
                    env := log (Sleep LOCK_RETRY_DELAY)
                             (advance (seconds LOCK_RETRY_DELAY)
                                (log (Print (DatabaseLockedWaiting (S attempt)))
                                   (env st1))) |}).
    assert (L1' : lingers (seconds LOCK_RETRY_DELAY) st1 st1').
    { by apply lingers_said_slept. }
    pose proof L1' as (S1' & B1' & _ & C1' & M1' & _).
    destruct (IH (S attempt) st1') as (why & st' & E & L & W);
      rewrite ?S1', ?S1, ?B1', ?B1; try assumption.
    + unfold LOCK_RETRY_ATTEMPTS. lia.
    + apply M1'. by apply M1.
    + nia.
    + exists why, st'. split; [exact E|]. split.
      * eapply lingers_weaken;
          [|eapply lingers_trans; [eapply lingers_trans|]; eassumption].
        nia.
      * destruct W as [[-> W]|W]; [left; split; [done|]|by right].
        cbn [env self] in *. nia.
Qed.

End Live.

(** ** Taking and giving back the lock *)

Section Holder.
Context {lib : Library}.

Lemma lock_id_at_held w : Py.held (Some (lock_id_at w)) = true.
Proof.
  unfold lock_id_at. cbn.
  destruct (hostname w +:+ "-" +:+ pretty (pid w) +:+ "-" +:+ hd EmptyString (uuids w)
              +:+ "-" +:+ strftime_compact (clock w)) eqn:E; [|done].
  apply (f_equal String.length) in E. rewrite !string_length_app in E. cbn in E. lia.
Qed.

(** [acquire_lock] where no lease is: one look and one write. *)
Lemma acquire_lock_free timeout st b d :
  bucket (self st) = Some b ->
  smooth d (env st) = true -> 0 <= d ->
  blobs (env st) !! _get_lock_blob_name (self st) = None ->
  0 <= timeout ->
  let lk := _get_lock_blob_name (self st) in
  let w1 := served (OpExists lk) (env st) in
  exists st1,
    acquire_lock timeout st = (Ok true, st1) /\
    self st1 = with_lock_id (Some (lock_id_at w1)) (self st) /\
    blobs (env st1) = <[lk := json_dumps (lease_at w1)]> (blobs (env st)) /\
    files (env st1) = files (env st) /\
    smooth d (env st1) = true /\
    clock w1 <= clock (env st) + d /\
    clock w1 <= clock (env st1) <= clock w1 + d /\
    trace (env st1) =
      [Print (CreatedDatabaseLock (lock_id_at w1));
       Request (OpWrite lk (json_dumps (lease_at w1))) true;
       Request (OpExists lk) true] ++ trace (env st).
Proof.
  intros Hb Hs Hd Hfree Ht. cbv zeta.
  set (lk := _get_lock_blob_name (self st)) in *.
  set (w1 := served (OpExists lk) (env st)).
  rewrite (acquire_lock_run timeout st b Hb).
  cbn [acquire_loop]. mred.
  rewrite (proj2 (Z.ltb_ge _ _)) by (unfold seconds; lia). mred.
  unfold try_acquire, _lock_exists. mred. rewrite Hb. mred.
  rewrite blob_exists_served by by apply smooth_coming with d.
  fold lk. rewrite Hfree. mred. fold w1.
  unfold _create_lock, _generate_lock_id. mred. rewrite Hb. mred.
  assert (S1 : smooth d w1 = true) by by apply smooth_served.
  set (w2 := {| blobs := blobs w1; files := files w1; clock := clock w1;
                oracle := oracle w1; hostname := hostname w1; pid := pid w1;
                uuids := tl (uuids w1); trace := trace w1 |}).
  assert (S2 : smooth d w2 = true) by exact S1.
  rewrite blob_upload_served by (by apply (smooth_coming d w2)).
  mred.
  destruct (smooth_coming d (env st) Hs Hd) as [_ L1].
  destruct (smooth_coming d w2 S2 Hd) as [_ L2].
  eexists. split; [reflexivity|]. cbn.
  split; [done|]. split; [done|]. split; [done|].
  split; [by apply (smooth_served d (OpWrite lk (json_dumps (lease_at w1))) w2)|].
  split; [subst w1; rewrite served_clock; lia|].
  split; [rewrite served_clock; change (clock w2) with (clock w1); lia|]. done.
Qed.

(** [release_lock] by the instance that the lease names. *)
Lemma release_lock_holder st b d id text fields :
  bucket (self st) = Some b ->
  smooth d (env st) = true -> 0 <= d ->
  lock_id (self st) = Some id -> Py.held (Some id) = true ->
  blobs (env st) !! _get_lock_blob_name (self st) = Some text ->
  json_loads text = Some (JObj fields) ->
  Py.field "lock_id" fields = Some (JStr id) ->
  let lk := _get_lock_blob_name (self st) in
  exists st',
    release_lock st = (Ok tt, st') /\
    self st' = with_lock_id None (self st) /\
    blobs (env st') = delete lk (blobs (env st)) /\
    files (env st') = files (env st) /\
    smooth d (env st') = true /\
    clock (env st) <= clock (env st') <= clock (env st) + 3 * d /\
    trace (env st') =
      [Print (ReleasedDatabaseLock id); Request (OpDelete lk) true;
       Request (OpRead lk) true; Request (OpExists lk) true] ++ trace (env st).
Proof.
  intros Hb Hs Hd Hid Hheld Hblob Hjson Hfield. cbv zeta.
  unfold release_lock. mred. rewrite Hid, Hheld. mred.
  unfold _release_lock. mred. rewrite Hb, Hid, Hheld. cbn.
  destruct (get_lock_info_reads st b d text (JObj fields)) as (st1 & E1 & L1 & T0);
    try assumption.
  rewrite E1. cbn. rewrite Hfield. cbn. rewrite String.eqb_refl. cbn.
  destruct L1 as (S1 & B1 & F1 & C1 & M1 & new & T1 & W1).
  destruct (smooth_coming d (env st1) (M1 d Hs) Hd) as [F2 L2].
  rewrite (blob_delete_served _ text) by (exact F2 || by rewrite B1).
  mred.
  eexists. split; [reflexivity|]. cbn [self env].
  split; [by rewrite ?S1|]. split; [cbn; by rewrite ?S1, ?B1|].
  split; [exact F1|].
  split; [apply (smooth_served d (OpDelete (_get_lock_blob_name (self st1))) (env st1)); auto|].
  split; [cbn; rewrite ?served_clock; lia|].
  cbn. rewrite ?served_trace, T0, ?S1. done.
Qed.

End Holder.

Lemma waiting_not_step db evs :
  Forall (waiting db) evs ->
  ~ In Commit evs /\ ~ In Rollback evs /\ ~ In Close evs /\
  forall k c ok, ~ In (Request (OpWrite k c) ok) evs.
Proof.
  induction 1 as [|ev evs Hev _ (IH1 & IH2 & IH3 & IH4)].
  { repeat split; try intros k c ok; intros []. }
  repeat split; try intros k c ok; intros [Heq|Hin]; subst; try done; try by eapply IH4.
Qed.

Lemma lingers_since b st st' :
  lingers b st st' ->
  exists new, since st st' = new /\ Forall (waiting (db_filename (self st))) new.
Proof.
  intros (_ & _ & _ & _ & _ & new & T & W). exists new. split; [|done].
  by apply since_app.
Qed.

Section LockAround.
Context {lib : Library}.

Lemma acquire_lock_waits timeout st b d text fields s t :
  bucket (self st) = Some b ->
  smooth d (env st) = true -> 0 <= d ->
  blobs (env st) !! _get_lock_blob_name (self st) = Some text ->
  json_loads text = Some (JObj fields) ->
  Py.field "timestamp" fields = Some (JStr s) ->
  fromisoformat s = Some t ->
  clock (env st) + 6 * (5 * d + seconds LOCK_RETRY_DELAY) - t
    <= seconds (lock_timeout (self st)) ->
  exists why st',
    acquire_lock timeout st = (Raise (DatabaseLockException why), st') /\
    lingers (6 * (5 * d + seconds LOCK_RETRY_DELAY)) st st' /\
    (why = AfterSeconds timeout \/
     why = AfterAttempts (S LOCK_RETRY_ATTEMPTS)
             (default (JStr "unknown") (Py.field "lock_id" fields))) /\
    (6 * (5 * d + seconds LOCK_RETRY_DELAY) <= seconds timeout ->
     why = AfterAttempts (S LOCK_RETRY_ATTEMPTS)
             (default (JStr "unknown") (Py.field "lock_id" fields))).
Proof.
  intros Hb Hs Hd Hblob Hjson Hfield Hiso Hlive.
  rewrite (acquire_lock_run timeout st b Hb).
  destruct (acquire_loop_waits (S LOCK_RETRY_ATTEMPTS) timeout (clock (env st)) 0 st
              b d text fields s t) as (why & st' & E & L & W); try assumption.
  { unfold LOCK_RETRY_ATTEMPTS. lia. }
  exists why, st'. split; [exact E|]. split; [exact L|].
  split.
  - destruct W as [[W _]|W]; [by left|by right].
  - intros Hlong. destruct W as [[_ W]|W]; [|done].
    change (Z.of_nat 0) with 0 in W. lia.
Qed.


(** The lock around a block that leaves the manager, the bucket and the
    files alone. *)
Lemma DatabaseLock_frame {A} timeout (body : M A) st b d bound :
  bucket (self st) = Some b ->
  smooth d (env st) = true -> 0 <= d -> 0 <= timeout ->
  blobs (env st) !! _get_lock_blob_name (self st) = None ->
  let w1 := served (OpExists (_get_lock_blob_name (self st))) (env st) in
  json_loads (json_dumps (lease_at w1)) = Some (lease_at w1) ->
  let st1 := (acquire_lock timeout st).2 in
  lingers bound st1 (body st1).2 ->
  (body st1).1 <> OutOfFuel ->
  exists st' mid,
    with_DatabaseLock timeout body st = ((body st1).1, st') /\
    same_config (self st) (self st') /\
    lock_id (self st') = None /\
    pending (self st') = pending (self st) /\
    engine (self st') = engine (self st) /\
    blobs (env st') = blobs (env st) /\
    files (env st') = files (env st) /\
    since st st' =
      [Print (ReleasedDatabaseLock (lock_id_at w1));
       Request (OpDelete (_get_lock_blob_name (self st))) true] ++ mid ++
      [Print (CreatedDatabaseLock (lock_id_at w1));
       Request (OpWrite (_get_lock_blob_name (self st)) (json_dumps (lease_at w1))) true;
       Request (OpExists (_get_lock_blob_name (self st))) true] /\
    Forall (waiting (db_filename (self st))) mid.
Proof.
  intros Hb Hs Hd Ht Hfree w1 Hjson st1 Hbody Hend.
  destruct (acquire_lock_free timeout st b d Hb Hs Hd Hfree Ht)
    as (st1' & E1 & S1 & B1 & F1 & M1 & _ & _ & T1).
  fold w1 in S1, B1, T1.
  assert (st1 = st1') as Heq by (subst st1; by rewrite E1).
  clearbody st1. subst st1'.
  destruct (body st1) as [r st2] eqn:E2. cbn [fst snd] in *.
  destruct Hbody as (S2 & B2 & F2 & _ & M2 & new & T2 & W2).
  destruct (release_lock_holder st2 b d (lock_id_at w1) (json_dumps (lease_at w1))
              [("lock_id", JStr (lock_id_at w1));
               ("timestamp", JStr (isoformat (clock w1)));
               ("hostname", JStr (hostname w1)); ("pid", JNum (pid w1))])
    as (st' & E3 & S3 & B3 & F3 & _ & _ & T3).
  { by rewrite S2, S1. }
  { by apply M2. }
  { done. }
  { by rewrite S2, S1. }
  { apply lock_id_at_held. }
  { rewrite B2, B1, S2, S1. apply lookup_insert_eq. }
  { exact Hjson. }
  { reflexivity. }
  exists st', ([Request (OpRead (_get_lock_blob_name (self st))) true;
                Request (OpExists (_get_lock_blob_name (self st))) true] ++ new).
  unfold with_DatabaseLock, __enter__, __exit__. mred. rewrite E1. mred. rewrite E2.
  rewrite S2, S1 in S3, B3, T3. cbn in S3, B3, T3.
  assert (Hout : (match r with
                  | OutOfFuel => (OutOfFuel, st2)
                  | _ => match release_lock st2 with
                         | (Ok _, st'') => (r, st'')
                         | (Raise e, st'') => (Raise e, st'')
                         | (OutOfFuel, st'') => (OutOfFuel, st'')
                         end
                  end) = (r, st')).
  { rewrite E3. by destruct r. }
  split; [destruct r; exact Hout|].
  rewrite S3. split; [done|]. split; [done|]. split; [done|]. split; [done|].
  split; [rewrite B3, B2, B1; by apply delete_insert_id|].
  split; [congruence|]. split.
  - apply since_app. rewrite T3, T2, T1. cbn. by rewrite <- !app_assoc.
  - rewrite S1 in W2. by repeat constructor.
Qed.

End LockAround.

Section LiveLease.
Context {lib : Library}.

Lemma with_session_waits {R} (func : Transform R) st b d text fields s t :
  bucket (self st) = Some b ->
  smooth d (env st) = true -> 0 <= d ->
  blobs (env st) !! _get_lock_blob_name (self st) = Some text ->
  json_loads text = Some (JObj fields) ->
  Py.field "timestamp" fields = Some (JStr s) ->
  fromisoformat s = Some t ->
  clock (env st) + 6 * (5 * d + seconds LOCK_RETRY_DELAY) - t
    <= seconds (lock_timeout (self st)) ->
  exists why st',
    with_session func st = (Raise (DatabaseLockException why), st') /\
    lingers (6 * (5 * d + seconds LOCK_RETRY_DELAY)) st st' /\
    (why = AfterSeconds 60 \/
     why = AfterAttempts (S LOCK_RETRY_ATTEMPTS)
             (default (JStr "unknown") (Py.field "lock_id" fields))) /\
    (6 * (5 * d + seconds LOCK_RETRY_DELAY) <= seconds 60 ->
     why = AfterAttempts (S LOCK_RETRY_ATTEMPTS)
             (default (JStr "unknown") (Py.field "lock_id" fields))).
Proof.
  intros Hb Hs Hd Hblob Hjson Hfield Hiso Hlive.
  destruct (acquire_lock_waits 60 st b d text fields s t) as (why & st' & E & L & W);
    try assumption.
  exists why, st'. split; [|by split].
  unfold with_session. by rewrite (bind_raise _ _ _ _ _ E).
Qed.

(** X1.  While a lease that has not expired is in the bucket and the
    requests go through, [acquire_lock] acquires nothing: it raises
    [DatabaseLockException] and leaves the manager, the bucket and the
    files as they were, having asked the bucket for no write and no delete.
    The exception names the [lock_id] of the lease after
    [LOCK_RETRY_ATTEMPTS + 1] attempts, unless [timeout] is shorter than
    the attempts take. *)
Theorem live_lease_is_respected timeout st b d text fields s t :
  bucket (self st) = Some b ->
  smooth d (env st) = true -> 0 <= d ->
  blobs (env st) !! _get_lock_blob_name (self st) = Some text ->
  json_loads text = Some (JObj fields) ->
  Py.field "timestamp" fields = Some (JStr s) ->
  fromisoformat s = Some t ->
  clock (env st) + 6 * (5 * d + seconds LOCK_RETRY_DELAY) - t
    <= seconds (lock_timeout (self st)) ->
  exists why st',
    acquire_lock timeout st = (Raise (DatabaseLockException why), st') /\
    self st' = self st /\
    blobs (env st') = blobs (env st) /\
    files (env st') = files (env st) /\
    (forall k c ok, ~ In (Request (OpWrite k c) ok) (since st st')) /\
    (forall k ok, ~ In (Request (OpDelete k) ok) (since st st')) /\
    (why = AfterSeconds timeout \/
     why = AfterAttempts (S LOCK_RETRY_ATTEMPTS)
             (default (JStr "unknown") (Py.field "lock_id" fields))) /\
    (6 * (5 * d + seconds LOCK_RETRY_DELAY) <= seconds timeout ->
     why = AfterAttempts (S LOCK_RETRY_ATTEMPTS)
             (default (JStr "unknown") (Py.field "lock_id" fields))).
Proof.
  intros Hb Hs Hd Hblob Hjson Hfield Hiso Hlive.
  destruct (acquire_lock_waits timeout st b d text fields s t)
    as (why & st' & E & L & W); try assumption.
  exists why, st'. split; [exact E|].
  destruct (lingers_since _ _ _ L) as (new & -> & Wt).
  destruct L as (S' & B' & F' & _).
  split; [exact S'|]. split; [exact B'|]. split; [exact F'|].
  split; [by apply (waiting_not_step _ _ Wt)|].
  split; [|exact W].
  intros k ok Hin. rewrite Forall_forall in Wt.
  apply list_elem_of_In in Hin. by apply Wt in Hin.
Qed.

(** X2.  [with DatabaseLock(db_manager): db_manager.with_session(func)], as
    the handlers have it, on a bucket where the lock is free and every
    request goes through: [__enter__] writes the lease, [with_session]
    finds that lease, waits for it and raises [DatabaseLockException]
    without calling [func], and [__exit__] deletes the lease.  The bucket
    and the files end as they began and nothing was committed. *)
Theorem nested_session_waits_for_its_own_lock {R} (func : Transform R) timeout st b d :
  bucket (self st) = Some b ->
  smooth d (env st) = true -> 0 <= d -> 0 <= timeout ->
  blobs (env st) !! _get_lock_blob_name (self st) = None ->
  let w1 := served (OpExists (_get_lock_blob_name (self st))) (env st) in
  json_loads (json_dumps (lease_at w1)) = Some (lease_at w1) ->
  fromisoformat (isoformat (clock w1)) = Some (clock w1) ->
  31 * d + 6 * seconds LOCK_RETRY_DELAY <= seconds (lock_timeout (self st)) ->
  exists why st',
    with_DatabaseLock timeout (with_session func) st
      = (Raise (DatabaseLockException why), st') /\
    (why = AfterSeconds 60 \/
     why = AfterAttempts (S LOCK_RETRY_ATTEMPTS) (JStr (lock_id_at w1))) /\
    (6 * (5 * d + seconds LOCK_RETRY_DELAY) <= seconds 60 ->
     why = AfterAttempts (S LOCK_RETRY_ATTEMPTS) (JStr (lock_id_at w1))) /\
    blobs (env st') = blobs (env st) /\
    files (env st') = files (env st) /\
    lock_id (self st') = None /\
    pending (self st') = pending (self st) /\
    ~ In Commit (since st st') /\ ~ In Rollback (since st st') /\
    ~ In Close (since st st').
Proof.
  intros Hb Hs Hd Ht Hfree w1 Hjson Hiso Hlong.
  destruct (acquire_lock_free timeout st b d Hb Hs Hd Hfree Ht)
    as (st1 & E1 & S1 & B1 & F1 & M1 & _ & C1 & T1).
  fold w1 in S1, B1, C1, T1.
  destruct (with_session_waits func st1 b d (json_dumps (lease_at w1))
              [("lock_id", JStr (lock_id_at w1));
               ("timestamp", JStr (isoformat (clock w1)));
               ("hostname", JStr (hostname w1)); ("pid", JNum (pid w1))]
              (isoformat (clock w1)) (clock w1))
    as (why & st2 & E2 & L2 & W2 & W2'); try done.
  { by rewrite S1. }
  { rewrite B1, S1. apply lookup_insert_eq. }
  { rewrite S1. cbn [lock_timeout with_lock_id]. lia. }
  destruct (DatabaseLock_frame timeout (with_session func) st b d
              (6 * (5 * d + seconds LOCK_RETRY_DELAY)))
    as (st' & mid & E & _ & Lid & P & _ & B & F & T & W); try assumption.
  { rewrite E1. cbn [snd]. by rewrite E2. }
  { rewrite E1. cbn [snd]. by rewrite E2. }
  rewrite E1 in E. cbn [snd] in E. rewrite E2 in E. cbn [fst] in E.
  exists why, st'. split; [exact E|]. split; [exact W2|]. split; [exact W2'|].
  split; [exact B|]. split; [exact F|]. split; [exact Lid|]. split; [exact P|].
  fold w1 in T. rewrite T.
  destruct (waiting_not_step _ _ W) as (N1 & N2 & N3 & _).
  repeat split; intros Hin; cbn in Hin;
    destruct Hin as [Hin|[Hin|Hin]]; try discriminate Hin;
    apply in_app_iff in Hin as [Hin|Hin]; try done;
    cbn in Hin; by repeat destruct Hin as [Hin|Hin].
Qed.

(** X3.  [with DatabaseLock(db_manager, timeout): body] where the lock is
    free and the requests go through, for a block that leaves the manager,
    the bucket and the files alone: the lease is written before the block
    and deleted after it, the block's result or exception is that of the
    statement, and the bucket ends as it began, with no [lock_id] left in
    the instance. *)
Theorem DatabaseLock_gives_back_the_lease {A} timeout (body : M A) st b d bound :
  bucket (self st) = Some b ->
  smooth d (env st) = true -> 0 <= d -> 0 <= timeout ->
  blobs (env st) !! _get_lock_blob_name (self st) = None ->
  let w1 := served (OpExists (_get_lock_blob_name (self st))) (env st) in
  json_loads (json_dumps (lease_at w1)) = Some (lease_at w1) ->
  let st1 := (acquire_lock timeout st).2 in
  lingers bound st1 (body st1).2 ->
  (body st1).1 <> OutOfFuel ->
  exists st' mid,
    with_DatabaseLock timeout body st = ((body st1).1, st') /\
    lock_id (self st1) = Some (lock_id_at w1) /\
    blobs (env st1) !! _get_lock_blob_name (self st) = Some (json_dumps (lease_at w1)) /\
    lock_id (self st') = None /\
    blobs (env st') = blobs (env st) /\
    since st st' =
      [Print (ReleasedDatabaseLock (lock_id_at w1));
       Request (OpDelete (_get_lock_blob_name (self st))) true] ++ mid ++
      [Print (CreatedDatabaseLock (lock_id_at w1));
       Request (OpWrite (_get_lock_blob_name (self st)) (json_dumps (lease_at w1))) true;
       Request (OpExists (_get_lock_blob_name (self st))) true] /\
    Forall (waiting (db_filename (self st))) mid.
Proof.
  intros Hb Hs Hd Ht Hfree w1 Hjson st1 Hbody Hend.
  destruct (DatabaseLock_frame timeout body st b d bound)
    as (st' & mid & E & _ & Lid & _ & _ & B & _ & T & W); try assumption.
  destruct (acquire_lock_free timeout st b d Hb Hs Hd Hfree Ht)
    as (st1' & E1 & S1 & B1 & _).
  exists st', mid. split; [exact E|].
  subst st1. rewrite E1. cbn [snd]. rewrite S1, B1.
  split; [done|]. split; [apply lookup_insert_eq|]. by repeat split.
Qed.

End LiveLease.

(** ** What a release and a wait leave behind *)

Ltac lock_only_side ::=
  try intros ?;
  unfold retrying, releasing, lock_only, quiet, read_only, _get_lock_blob_name; cbn;
  config_facts;
  first [exact I | congruence | reflexivity | apply same_config_refl
        | (repeat split; cbn; congruence)].

Lemma replay_releasing db new b :
  Forall (releasing db) new ->
  replay new b = b \/ replay new b = delete (db +:+ ".lock") b.
Proof.
  induction 1 as [|ev new Hev _ IH]; [by left|].
  change (replay (ev :: new) b) with (apply_event ev (replay new b)).
  destruct ev as [[] []| | | | |]; cbn in Hev |- *; try done; subst.
  destruct IH as [->| ->]; [by right|]. right. apply delete_delete_eq.
Qed.

Lemma quiet_retrying db ev : quiet db ev -> retrying db ev.
Proof. by destruct ev as [[] []| | | | |]. Qed.

Lemma count_delete_waiting db k evs :
  Forall (waiting db) evs -> count (is_delete k) evs = 0%nat.
Proof.
  induction 1 as [|ev evs Hev _ IH]; [done|].
  destruct ev as [[] []| | | | |]; cbn in *; done.
Qed.

Lemma count_sleep_releasing db evs :
  Forall (releasing db) evs -> count is_sleep evs = 0%nat.
Proof.
  induction 1 as [|ev evs Hev _ IH]; [done|].
  destruct ev as [[] []| | | | |]; cbn in *; done.
Qed.

Lemma since_refl st : since st st = [].
Proof. by apply since_app. Qed.

Section ReleaseFrames.
Context {lib : Library}.

Lemma releases_get_lock_info st : keeps releasing _get_lock_info st.
Proof. unfold _get_lock_info. repeat keeps_step. Qed.

Lemma releases_release_lock' st : keeps releasing _release_lock st.
Proof.
  unfold _release_lock. do 2 keeps_step; [repeat keeps_step|].
  keeps_step; [|repeat keeps_step].
  keeps_step; [apply releases_get_lock_info|]. repeat keeps_step.
Qed.

Lemma releases_release_lock st : keeps releasing release_lock st.
Proof.
  unfold release_lock. do 2 keeps_step; [|keeps_step].
  keeps_step; [apply releases_release_lock'|]. keeps_step.
Qed.

Lemma retries_acquire_loop fuel timeout start attempt st :
  keeps retrying (acquire_loop fuel timeout start attempt) st.
Proof.
  revert attempt st. induction fuel as [|fuel IH]; intros attempt st; cbn [acquire_loop].
  - keeps_step.
  - keeps_step. keeps_step; [keeps_step|].
    keeps_step; [eapply grows_weaken; [apply quiet_retrying|apply keeps_try_acquire]|].
    keeps_step; [keeps_step|].
    keeps_step.
    + keeps_step;
        [eapply grows_weaken; [apply quiet_retrying|apply keeps_get_lock_info]|].
      repeat keeps_step.
    + do 2 (keeps_step; [keeps_step|]). apply IH.
Qed.

Lemma retries_acquire_lock timeout st : keeps retrying (acquire_lock timeout) st.
Proof.
  unfold acquire_lock. do 2 keeps_step; [|keeps_step].
  keeps_step. apply retries_acquire_loop.
Qed.

Lemma acquire_loop_sleeps fuel timeout start attempt st r st' :
  (attempt <= LOCK_RETRY_ATTEMPTS)%nat ->
  acquire_loop fuel timeout start attempt st = (r, st') ->
  (count is_sleep (since st st') <= LOCK_RETRY_ATTEMPTS - attempt)%nat.
Proof.
  revert attempt st. induction fuel as [|fuel IH]; intros attempt st Ha.
  { cbn. intros [= _ <-]. rewrite since_refl. cbn. lia. }
  cbn [acquire_loop].
  remember (LOCK_RETRY_ATTEMPTS <? S attempt)%nat as last eqn:Hcmp. symmetry in Hcmp.
  mred.
  destruct (Z.ltb_spec (seconds timeout) (clock (env st) - start)) as [Hlate|Hearly]; mred.
  { intros [= _ <-]. rewrite since_refl. cbn. lia. }
  pose proof (keeps_try_acquire st) as Kt. unfold keeps in Kt.
  destruct (try_acquire st) as [[b| |] st1] eqn:E; cbn in Kt;
    apply grows_since in Kt; destruct Kt as [T1 Q1].
  2,3: intros [= _ <-];
       rewrite (count_sleep_quiet (db_filename (self st)) (since st st1)) by exact Q1; lia.
  destruct b; mred.
  { intros [= _ <-].
    rewrite (count_sleep_quiet (db_filename (self st)) (since st st1)) by exact Q1. lia. }
  unfold LOCK_RETRY_ATTEMPTS in *.
  destruct last; [apply Nat.ltb_lt in Hcmp|apply Nat.ltb_ge in Hcmp]; mred.
  - pose proof (keeps_get_lock_info st1) as Kg. unfold keeps in Kg.
    destruct (_get_lock_info st1) as [[info| |] st2] eqn:E2; cbn in Kg;
      apply grows_since in Kg; destruct Kg as [T2 Q2].
    all: assert (Hquiet : count is_sleep (since st st2) = 0%nat)
      by (rewrite (since_app st st2 (since st1 st2 ++ since st st1));
          [rewrite count_app,
             (count_sleep_quiet (db_filename (self st)) (since st st1)) by exact Q1;
           by rewrite (count_sleep_quiet (db_filename (self st1)) (since st1 st2))
          |rewrite T2, T1; by rewrite app_assoc]).
    2,3: intros [= _ <-]; lia.
    destruct (Py.get "lock_id" info) as [stored|e|]; mred; intros [= _ <-]; lia.
  - set (st1' := {| self := self st1;
                    env := log (Sleep LOCK_RETRY_DELAY)
                             (advance (seconds LOCK_RETRY_DELAY)
                                (log (Print (DatabaseLockedWaiting (S attempt)))
                                   (env st1))) |}).
    intros Er. pose proof (IH (S attempt) st1' ltac:(lia) Er) as Hc.
    pose proof (keeps_acquire_loop fuel timeout start (S attempt) st1') as Kl.
    unfold keeps in Kl. rewrite Er in Kl. cbn in Kl.
    apply grows_since in Kl. destruct Kl as [T3 _].
    rewrite (since_app st st'
               (since st1' st' ++ [Sleep LOCK_RETRY_DELAY;
                                   Print (DatabaseLockedWaiting (S attempt))]
                  ++ since st st1)).
    + rewrite !count_app.
      rewrite (count_sleep_quiet (db_filename (self st)) (since st st1)) by exact Q1.
      cbn. lia.
    + rewrite T3. cbn. rewrite T1. by rewrite <- app_assoc.
Qed.

End ReleaseFrames.

Section LockEdges.
Context {lib : Library}.

(** A lease that [json.loads] turns into a number other than zero, or into
    [True]: the test ["timestamp" not in lock_info] raises. *)
Lemma try_acquire_scalar st b d text info :
  bucket (self st) = Some b ->
  smooth d (env st) = true -> 0 <= d ->
  blobs (env st) !! _get_lock_blob_name (self st) = Some text ->
  json_loads text = Some info ->
  (exists n, info = JNum n /\ n <> 0) \/ info = JBool true ->
  exists st', try_acquire st = (Raise TypeError, st') /\ lingers (3 * d) st st'.
Proof.
  intros Hb Hs Hd Hblob Hjson Hinfo.
  set (lk := _get_lock_blob_name (self st)) in *.
  set (st1 := {| self := self st; env := served (OpExists lk) (env st) |}).
  assert (L1 : lingers d st st1) by by apply lingers_served.
  pose proof L1 as (S1 & B1 & _ & _ & M1 & _).
  destruct (get_lock_info_reads st1 b d text info) as (st2 & E2 & L2 & _);
    rewrite ?S1, ?B1; try assumption; [by apply M1|].
  exists st2. split.
  - unfold try_acquire, _lock_exists. mred. rewrite Hb. mred.
    rewrite blob_exists_served by by apply smooth_coming with d.
    fold lk. rewrite Hblob. mred. fold st1. rewrite E2.
    unfold _is_lock_expired.
    destruct Hinfo as [(n & -> & Hn)| ->]; mred; [|done].
    destruct (Z.eqb_spec n 0); [done|]. by mred.
  - replace (3 * d) with (d + 2 * d) by lia. eapply lingers_trans; eassumption.
Qed.

(** X4.  A lock blob whose content [json.loads] turns into a number other
    than zero, or into [True], stops every acquisition: with the requests
    going through, [acquire_lock] raises [TypeError] on its first attempt,
    and so does [with_session], before its function is called.  The blob is
    neither deleted nor replaced. *)
Theorem scalar_lease_blocks_the_lock {R} (func : Transform R) timeout st b d text info :
  bucket (self st) = Some b ->
  smooth d (env st) = true -> 0 <= d -> 0 <= timeout ->
  blobs (env st) !! _get_lock_blob_name (self st) = Some text ->
  json_loads text = Some info ->
  (exists n, info = JNum n /\ n <> 0) \/ info = JBool true ->
  exists st' st'',
    acquire_lock timeout st = (Raise TypeError, st') /\
    self st' = self st /\ blobs (env st') = blobs (env st) /\
    with_session func st = (Raise TypeError, st'') /\
    self st'' = self st /\ blobs (env st'') = blobs (env st) /\
    files (env st'') = files (env st) /\
    count is_sleep (since st st'') = 0%nat /\
    ~ In Commit (since st st'') /\ ~ In Rollback (since st st'').
Proof.
  intros Hb Hs Hd Ht Hblob Hjson Hinfo.
  destruct (try_acquire_scalar st b d text info) as (st' & E & L); try assumption.
  assert (Hrun : forall timeout, 0 <= timeout ->
                   acquire_lock timeout st = (Raise TypeError, st')).
  { intros t0 Ht0. rewrite (acquire_lock_run t0 st b Hb). cbn [acquire_loop]. mred.
    rewrite (proj2 (Z.ltb_ge _ _)) by (unfold seconds; lia). mred. by rewrite E. }
  exists st', st'. split; [by apply Hrun|].
  pose proof L as (S' & B' & F' & _).
  split; [exact S'|]. split; [exact B'|].
  split. { unfold with_session. by rewrite (bind_raise _ _ _ _ _ (Hrun 60 ltac:(lia))). }
  split; [exact S'|]. split; [exact B'|]. split; [exact F'|].
  destruct (lingers_since _ _ _ L) as (new & Hsince & W).
  rewrite Hsince. destruct (waiting_not_step _ _ W) as (N1 & N2 & _).
  split; [|by split].
  pose proof (keeps_try_acquire st) as K. unfold keeps in K. rewrite E in K.
  apply grows_since in K. destruct K as [_ Q]. cbn [snd] in Q. rewrite Hsince in Q.
  by apply (count_sleep_quiet (db_filename (self st))).
Qed.

(** X5.  Where no lease is in the bucket and the requests go through,
    [acquire_lock] returns [True] after one look and one write, without a
    wait: the lease it wrote names the [lock_id] the instance now holds,
    made of the host name, the process id, eight characters of a UUID and
    the time, and carries the time of its making. *)
Theorem free_lock_is_taken timeout st b d :
  bucket (self st) = Some b ->
  smooth d (env st) = true -> 0 <= d -> 0 <= timeout ->
  blobs (env st) !! _get_lock_blob_name (self st) = None ->
  exists st' t,
    let id := hostname (env st) +:+ "-" +:+ pretty (pid (env st)) +:+ "-"
                +:+ hd EmptyString (uuids (env st)) +:+ "-" +:+ strftime_compact t in
    let lease := JObj [("lock_id", JStr id); ("timestamp", JStr (isoformat t));
                       ("hostname", JStr (hostname (env st)));
                       ("pid", JNum (pid (env st)))] in
    acquire_lock timeout st = (Ok true, st') /\
    clock (env st) <= t <= clock (env st') /\
    lock_id (self st') = Some id /\ Py.held (Some id) = true /\
    same_config (self st) (self st') /\
    blobs (env st') = <[_get_lock_blob_name (self st) := json_dumps lease]> (blobs (env st)) /\
    since st st' =
      [Print (CreatedDatabaseLock id);
       Request (OpWrite (_get_lock_blob_name (self st)) (json_dumps lease)) true;
       Request (OpExists (_get_lock_blob_name (self st))) true].
Proof.
  intros Hb Hs Hd Ht Hfree.
  destruct (acquire_lock_free timeout st b d Hb Hs Hd Hfree Ht)
    as (st' & E & S' & B' & _ & M' & _ & C' & T').
  set (w1 := served (OpExists (_get_lock_blob_name (self st))) (env st)) in *.
  exists st', (clock w1). cbv zeta. split; [exact E|].
  destruct (smooth_coming d (env st) Hs Hd) as [_ L1].
  assert (S1 : smooth d w1 = true) by by apply smooth_served.
  split.
  { split; [|lia]. subst w1. rewrite served_clock. lia. }
  rewrite S'. split; [done|]. split; [exact (lock_id_at_held w1)|].
  split; [done|]. split; [exact B'|]. by apply since_app.
Qed.


(** X6.  The instance that the lease names releases it: with the requests
    going through, [release_lock] reads the lease, deletes the lock blob
    and forgets its [lock_id]; no other blob changes. *)
Theorem holder_release_deletes_the_lease st b d id text fields :
  bucket (self st) = Some b ->
  smooth d (env st) = true -> 0 <= d ->
  lock_id (self st) = Some id -> id <> EmptyString ->
  blobs (env st) !! _get_lock_blob_name (self st) = Some text ->
  json_loads text = Some (JObj fields) ->
  Py.field "lock_id" fields = Some (JStr id) ->
  exists st',
    release_lock st = (Ok tt, st') /\
    lock_id (self st') = None /\
    blobs (env st') = delete (_get_lock_blob_name (self st)) (blobs (env st)) /\
    blobs (env st') !! _get_lock_blob_name (self st) = None /\
    In (Print (ReleasedDatabaseLock id)) (since st st') /\
    count (is_delete (_get_lock_blob_name (self st))) (since st st') = 1%nat.
Proof.
  intros Hb Hs Hd Hid Hne Hblob Hjson Hfield.
  assert (Hheld : Py.held (Some id) = true).
  { cbn. destruct (String.eqb_spec id EmptyString); [done|reflexivity]. }
  destruct (release_lock_holder st b d id text fields)
    as (st' & E & S' & B' & _ & _ & _ & T'); try assumption.
  exists st'. split; [exact E|]. rewrite S', B'. split; [done|]. split; [done|].
  split; [apply lookup_delete_eq|].
  rewrite (since_app _ _ _ T'). split; [by left|].
  cbn. by rewrite String.eqb_refl.
Qed.

(** X7.  [release_lock] never raises, whatever the bucket does: it
    returns, the instance holds no [lock_id] afterwards, it asks for no
    write, and the bucket is as before or without the lock blob. *)
Theorem release_lock_never_raises st :
  exists st',
    release_lock st = (Ok tt, st') /\
    Py.held (lock_id (self st')) = false /\
    same_config (self st) (self st') /\
    pending (self st') = pending (self st) /\
    (blobs (env st') = blobs (env st) \/
     blobs (env st') = delete (_get_lock_blob_name (self st)) (blobs (env st))) /\
    (forall k c ok, ~ In (Request (OpWrite k c) ok) (since st st')) /\
    count is_sleep (since st st') = 0%nat.
Proof.
  destruct (release_lock_outcome st) as (st' & E & C & H & P).
  exists st'. split; [exact E|]. split; [exact H|]. split; [exact C|]. split; [exact P|].
  pose proof (releases_release_lock st) as K. unfold keeps in K. rewrite E in K.
  cbn [snd] in K. pose proof K as (_ & new & T & F & B).
  rewrite (since_app _ _ _ T). split; [|split].
  - rewrite B. apply (replay_releasing _ _ _ F).
  - intros k c ok Hin. rewrite Forall_forall in F.
    apply list_elem_of_In in Hin. by apply F in Hin.
  - apply (count_sleep_releasing _ _ F).
Qed.

(** X8.  A failed look for the lock counts as no lock: when the request of
    [_lock_exists] fails and the write that follows goes through,
    [acquire_lock] returns [True] at once and the lock blob holds the lease
    of this instance, whatever lease it held before. *)
Theorem failed_look_overwrites_the_lease timeout st b s1 s2 rest :
  bucket (self st) = Some b ->
  oracle (env st) = s1 :: s2 :: rest ->
  fails s1 = true -> fails s2 = false -> 0 <= timeout ->
  exists st',
    let w1 := advance (latency s1) (env st) in
    acquire_lock timeout st = (Ok true, st') /\
    lock_id (self st') = Some (lock_id_at w1) /\
    blobs (env st') =
      <[_get_lock_blob_name (self st) := json_dumps (lease_at w1)]> (blobs (env st)) /\
    since st st' =
      [Print (CreatedDatabaseLock (lock_id_at w1));
       Request (OpWrite (_get_lock_blob_name (self st)) (json_dumps (lease_at w1))) true;
       Print (ErrorCheckingForLock StoreError);
       Request (OpExists (_get_lock_blob_name (self st))) false].
Proof.
  intros Hb Ho F1 F2 Ht.
  rewrite (acquire_lock_run timeout st b Hb).
  destruct st as [m w]. destruct w as [bl fl cl orc hn pd uu tr]. cbn in *. subst orc.
  mred. rewrite (proj2 (Z.ltb_ge _ _)) by (unfold seconds; lia). mred.
  unfold try_acquire, _lock_exists, _create_lock, _generate_lock_id. unfold_requests.
  repeat (progress (mred; rewrite ?Hb, ?F1, ?F2)).
  eexists. cbv zeta. split; [reflexivity|]. split; [done|]. split; [done|].
  by apply since_app.
Qed.

(** X9.  [acquire_lock] never waits long: whatever the bucket does, the
    call comes to an end having slept [LOCK_RETRY_ATTEMPTS] times at most,
    [LOCK_RETRY_DELAY] seconds each time, and every blob it wrote or
    deleted is the lock. *)
Theorem acquire_lock_sleeps_five_times_at_most timeout st :
  (acquire_lock timeout st).1 <> OutOfFuel /\
  (count is_sleep (since st (acquire_lock timeout st).2) <= LOCK_RETRY_ATTEMPTS)%nat /\
  Forall (fun ev => is_sleep ev = true -> ev = Sleep LOCK_RETRY_DELAY)
    (since st (acquire_lock timeout st).2) /\
  forall k, k <> _get_lock_blob_name (self st) ->
    blobs (env (acquire_lock timeout st).2) !! k = blobs (env st) !! k.
Proof.
  split; [apply acquire_lock_terminates|].
  destruct (acquire_lock timeout st) as [r st'] eqn:E. cbn [snd]. split; [|split].
  - destruct (bucket (self st)) as [b|] eqn:Hb.
    + rewrite (acquire_lock_run timeout st b Hb) in E.
      apply acquire_loop_sleeps in E; [lia|]. unfold LOCK_RETRY_ATTEMPTS. lia.
    + rewrite (acquire_lock_local timeout st Hb) in E. injection E as _ <-.
      rewrite since_refl. cbn. lia.
  - pose proof (retries_acquire_lock timeout st) as K. unfold keeps in K.
    rewrite E in K. apply grows_since in K. destruct K as [_ Q].
    eapply Forall_impl; [exact Q|]. intros ev Hev Hs.
    destruct ev; try discriminate Hs. cbn in Hev. by subst.
  - intros k Hk. pose proof (keeps_acquire_lock timeout st) as K. unfold keeps in K.
    rewrite E in K. destruct K as (_ & new & _ & F & B). cbn [snd] in B. rewrite B.
    by apply (replay_lock_only (db_filename (self st))).
Qed.

End LockEdges.

(** ** The steps of a session *)

Section SyncSteps.
Context {lib : Library}.

(** [download_db] where the blob is there and the requests go through. *)
Lemma download_db_fetches st b d content :
  bucket (self st) = Some b ->
  smooth d (env st) = true -> 0 <= d ->
  blobs (env st) !! db_filename (self st) = Some content ->
  exists st',
    download_db st = (Ok (local_path (self st)), st') /\
    self st' = self st /\
    blobs (env st') = blobs (env st) /\
    files (env st') = <[local_path (self st) := content]> (files (env st)) /\
    smooth d (env st') = true /\
    clock (env st) <= clock (env st') <= clock (env st) + 2 * d /\
    trace (env st') =
      [Print DownloadedDatabase;
       Request (OpFetch (db_filename (self st)) (local_path (self st))) true;
       Request (OpExists (db_filename (self st))) true] ++ trace (env st).
Proof.
  intros Hb Hs Hd Hblob.
  set (st1 := {| self := self st;
                 env := served (OpExists (db_filename (self st))) (env st) |}).
  assert (S1 : smooth d (env st1) = true) by by apply smooth_served.
  destruct (smooth_coming d (env st) Hs Hd) as [F0 L0].
  destruct (smooth_coming d (env st1) S1 Hd) as [F1 L1].
  unfold download_db. mred. rewrite Hb. mred.
  rewrite blob_exists_served by exact F0. rewrite Hblob. mred. fold st1.
  rewrite (blob_download_to_filename_served _ _ content) by (exact F1 || exact Hblob).
  mred. eexists. split; [reflexivity|]. cbn.
  split; [done|]. split; [done|]. split; [done|].
  split; [by apply (smooth_served d (OpFetch (db_filename (self st)) (local_path (self st)))
                      (env st1))|].
  split; [|done].
  pose proof (served_clock_le d (OpExists (db_filename (self st))) (env st) Hs Hd) as C1.
  pose proof (served_clock_le d (OpFetch (db_filename (self st)) (local_path (self st)))
                (env st1) S1 Hd) as C2.
  cbn [env st1] in C2. lia.
Qed.

(** [download_db] where there is no blob and the store can be made. *)
Lemma download_db_bootstraps st b d :
  bucket (self st) = Some b ->
  smooth d (env st) = true -> 0 <= d ->
  blobs (env st) !! db_filename (self st) = None ->
  create_error (local_path (self st)) (files (env st) !! local_path (self st)) = None ->
  exists st',
    download_db st = (Ok (local_path (self st)), st') /\
    self st' = with_engine (self st) /\
    blobs (env st') = blobs (env st) /\
    files (env st') =
      <[local_path (self st) := new_store (files (env st) !! local_path (self st))]>
        (files (env st)) /\
    smooth d (env st') = true /\
    clock (env st) <= clock (env st') <= clock (env st) + d /\
    trace (env st') =
      [Print NoExistingDatabase; Request (OpExists (db_filename (self st))) true]
        ++ trace (env st).
Proof.
  intros Hb Hs Hd Hblob Hmade.
  destruct (smooth_coming d (env st) Hs Hd) as [F0 L0].
  unfold download_db. mred. rewrite Hb. mred.
  rewrite blob_exists_served by exact F0. rewrite Hblob. mred.
  unfold initialize_db. mred. rewrite served_files, Hmade. mred.
  eexists. split; [reflexivity|]. cbn.
  split; [done|]. split; [done|]. split; [done|].
  split; [by apply (smooth_served d (OpExists (db_filename (self st))) (env st))|].
  split; [|done].
  apply (served_clock_le d (OpExists (db_filename (self st))) (env st) Hs Hd).
Qed.

(** [upload_db] where the file is there and the requests go through. *)
Lemma upload_db_writes st b d content :
  bucket (self st) = Some b ->
  smooth d (env st) = true -> 0 <= d ->
  files (env st) !! local_path (self st) = Some content ->
  exists st' t,
    upload_db st = (Ok tt, st') /\
    self st' = self st /\
    clock (env st) <= t <= clock (env st') /\
    clock (env st') <= clock (env st) + 2 * d /\
    blobs (env st') =
      <[backup_name (self st) (strftime_compact t) := content]>
        (<[db_filename (self st) := content]> (blobs (env st))) /\
    files (env st') = files (env st) /\
    smooth d (env st') = true /\
    trace (env st') =
      [Print (CreatedBackup (strftime_compact t)); Print UploadedDatabase;
       Request (OpWrite (backup_name (self st) (strftime_compact t)) content) true;
       Request (OpWrite (db_filename (self st)) content) true] ++ trace (env st).
Proof.
  intros Hb Hs Hd Hfile.
  destruct (smooth_coming d (env st) Hs Hd) as [F0 L0].
  set (w1 := with_blobs (<[db_filename (self st) := content]> (blobs (env st)))
               (served (OpWrite (db_filename (self st)) content) (env st))).
  assert (S1 : smooth d w1 = true).
  { by apply (smooth_served d (OpWrite (db_filename (self st)) content) (env st)). }
  destruct (smooth_coming d w1 S1 Hd) as [F1 L1].
  unfold upload_db. mred. rewrite Hb. mred.
  unfold blob_upload_from_filename. rewrite Hfile.
  rewrite blob_upload_served by exact F0. mred. fold w1.
  rewrite served_files, Hfile.
  rewrite blob_upload_served by exact F1. mred.
  eexists _, (clock w1). split; [reflexivity|]. cbn.
  pose proof (served_clock_le d (OpWrite (db_filename (self st)) content) (env st) Hs Hd)
    as C1.
  pose proof (served_clock_le d
                (OpWrite (backup_name (self st) (strftime_compact (clock w1))) content)
                w1 S1 Hd) as C2.
  change (clock w1)
    with (clock (served (OpWrite (db_filename (self st)) content) (env st))) in C2.
  split; [done|]. split; [lia|]. split; [lia|].
  split; [done|]. split; [done|]. split; [|done].
  by apply (smooth_served d
              (OpWrite (backup_name (self st) (strftime_compact (clock w1))) content) w1).
Qed.


(** The file after [download_db] where the requests go through and, if
    there is no blob, the store can be made. *)
Lemma replica_after_download_smooth st b d :
  bucket (self st) = Some b ->
  smooth d (env st) = true -> 0 <= d ->
  (blobs (env st) !! db_filename (self st) = None ->
   create_error (local_path (self st)) (files (env st) !! local_path (self st)) = None) ->
  replica_after_download st =
    match blobs (env st) !! db_filename (self st) with
    | Some content => content
    | None => new_store (files (env st) !! local_path (self st))
    end.
Proof.
  intros Hb Hs Hd Hmade. unfold replica_after_download, after_download, bootstrap.
  rewrite Hb.
  destruct (smooth_coming d (env st) Hs Hd) as [F0 _]. rewrite F0.
  destruct (blobs (env st) !! db_filename (self st)); [|by rewrite Hmade].
  assert (F1 : fails (coming (env st) 1) = false).
  { pose proof (smooth_served d (OpExists "") (env st) Hs) as S1.
    destruct (smooth_coming d _ S1 Hd) as [F1 _].
    unfold coming, served in *. cbn in F1.
    destruct (oracle (env st)) as [|s0 [|s1 rest]]; done. }
  by rewrite F1.
Qed.

(** [download_db] and [get_session], as [with_session] calls them, where
    the requests go through. *)
Lemma prelude_smooth st b d :
  bucket (self st) = Some b ->
  smooth d (env st) = true -> 0 <= d ->
  (blobs (env st) !! db_filename (self st) = None ->
   create_error (local_path (self st)) (files (env st) !! local_path (self st)) = None) ->
  exists p st2 st3 pre,
    download_db st = (Ok p, st2) /\
    get_session st2 = (Ok tt, st3) /\
    self st3 = with_engine (self st) /\
    blobs (env st3) = blobs (env st) /\
    files (env st3) =
      <[local_path (self st) := replica_after_download st]> (files (env st)) /\
    smooth d (env st3) = true /\
    clock (env st) <= clock (env st3) <= clock (env st) + 4 * d /\
    trace (env st3) = pre ++ trace (env st) /\
    Forall (read_only (db_filename (self st))) pre /\
    count (is_fetch (db_filename (self st))) pre =
      match blobs (env st) !! db_filename (self st) with
      | None => 0%nat
      | Some _ => if engine (self st) then 1%nat else 2%nat
      end.
Proof.
  intros Hb Hs Hd Hmade. rewrite (replica_after_download_smooth st b d Hb Hs Hd Hmade).
  destruct (blobs (env st) !! db_filename (self st)) as [content|] eqn:Hblob.
  - destruct (download_db_fetches st b d content Hb Hs Hd Hblob)
      as (st2 & E2 & S2 & B2 & F2 & M2 & C2 & T2).
    destruct (engine (self st)) eqn:Heng.
    + eexists (local_path (self st)), st2, st2, _. split; [exact E2|].
      split. { unfold get_session. mred. by rewrite S2, Heng. }
      rewrite S2. split; [by destruct (self st); cbn in *; subst|].
      split; [exact B2|]. split; [exact F2|]. split; [exact M2|]. split; [lia|].
      split; [exact T2|]. split; [by repeat constructor|].
      cbn. by rewrite String.eqb_refl.
    + destruct (download_db_fetches st2 b d content)
        as (st3 & E3 & S3 & B3 & F3 & M3 & C3 & T3); rewrite ?S2, ?B2; try done.
      eexists (local_path (self st)), st2, _, _. split; [exact E2|].
      split. { unfold get_session. mred. rewrite S2, Heng. mred. rewrite E3. by mred. }
      cbn. rewrite S3, S2, B3, B2, F3, F2, T3, T2, S2.
      split; [done|]. split; [done|]. split; [apply insert_insert_eq|].
      split; [exact M3|]. split; [lia|].
      split; [by rewrite app_assoc|]. split; [by repeat constructor|].
      cbn. by rewrite String.eqb_refl.
  - destruct (download_db_bootstraps st b d Hb Hs Hd Hblob (Hmade eq_refl))
      as (st2 & E2 & S2 & B2 & F2 & M2 & C2 & T2).
    eexists (local_path (self st)), st2, st2, _. split; [exact E2|].
    split. { unfold get_session. mred. by rewrite S2. }
    split; [exact S2|]. split; [exact B2|]. split; [exact F2|]. split; [exact M2|].
    split; [lia|]. split; [exact T2|]. split; [by repeat constructor|]. done.
Qed.

End SyncSteps.

Section SessionRun.
Context {lib : Library}.

(** [with_session] where the lock is free and every request goes
    through. *)
Lemma with_session_commits {R} (func : Transform R) st b d r content :
  bucket (self st) = Some b ->
  smooth d (env st) = true -> 0 <= d ->
  blobs (env st) !! _get_lock_blob_name (self st) = None ->
  pending (self st) = None ->
  let w1 := served (OpExists (_get_lock_blob_name (self st))) (env st) in
  json_loads (json_dumps (lease_at w1)) = Some (lease_at w1) ->
  (blobs (env st) !! db_filename (self st) = None ->
   create_error (local_path (self st)) (files (env st) !! local_path (self st)) = None) ->
  func (replica_after_download st) = (Returns r, content) ->
  commit_error (replica_after_download st) content = None ->
  exists st' t,
    with_session func st = (Ok r, st') /\
    same_config (self st) (self st') /\
    lock_id (self st') = None /\ engine (self st') = true /\
    pending (self st') = None /\
    blobs (env st') =
      <[backup_name (self st) (strftime_compact t) := content]>
        (<[db_filename (self st) := content]> (blobs (env st))) /\
    files (env st') = <[local_path (self st) := content]> (files (env st)) /\
    clock (env st) <= t <= clock (env st) + 8 * d /\
    clock (env st) <= clock (env st') <= clock (env st) + 11 * d /\
    smooth d (env st') = true /\
    count (is_fetch (db_filename (self st))) (since st st') =
      match blobs (env st) !! db_filename (self st) with
      | None => 0%nat
      | Some _ => if engine (self st) then 1%nat else 2%nat
      end.
Proof.
  intros Hb Hs Hd Hfree Hpend w1 Hjson Hmade Hfunc Hcommit.
  destruct (acquire_lock_free 60 st b d Hb Hs Hd Hfree ltac:(lia))
    as (st1 & E1 & S1 & B1 & F1 & M1 & C0 & C1 & T1).
  fold w1 in S1, B1, C0, C1, T1.
  assert (Hb1 : bucket (self st1) = Some b) by (by rewrite S1).
  assert (Hdb1 : db_filename (self st1) = db_filename (self st)) by (by rewrite S1).
  assert (Hpath1 : local_path (self st1) = local_path (self st)) by (by rewrite S1).
  assert (Hlk : _get_lock_blob_name (self st) <> db_filename (self st))
    by apply lock_name_not_db.
  assert (Hmade1 : blobs (env st1) !! db_filename (self st1) = None ->
                   create_error (local_path (self st1))
                     (files (env st1) !! local_path (self st1)) = None).
  { rewrite Hdb1, Hpath1, B1, F1. by rewrite lookup_insert_ne. }
  destruct (prelude_smooth st1 b d Hb1 M1 Hd Hmade1)
    as (p & st2 & st3 & pre & E2 & E3 & S3 & B3 & F3 & M3 & C3 & T3 & R3 & N3).
  assert (Hrep : replica_after_download st1 = replica_after_download st).
  { rewrite (replica_after_download_smooth st1 b d), (replica_after_download_smooth st b d)
      by assumption.
    rewrite Hdb1, Hpath1, B1, F1. by rewrite lookup_insert_ne. }
  rewrite Hrep, Hpath1, Hdb1 in *.
  assert (Hfile3 : files (env st3) !! local_path (self st3)
                   = Some (replica_after_download st)).
  { rewrite S3, F3. cbn. rewrite Hpath1. apply lookup_insert_eq. }
  assert (Hpend3 : pending (self st3) = None) by (by rewrite S3, S1).
  assert (Hfound : found_by st3 = replica_after_download st).
  { unfold found_by. by rewrite Hfile3, Hpend3. }
  assert (Hb3 : bucket (self st3) = Some b) by (by rewrite S3, S1).
  assert (Hdb3 : db_filename (self st3) = db_filename (self st)) by (by rewrite S3, S1).
  assert (Hpath3 : local_path (self st3) = local_path (self st)) by (by rewrite S3, S1).
  destruct (upload_db_writes (committed content st3) b d content)
    as (st4 & t & E4 & S4 & Ct & C4 & B4 & F4 & M4 & T4); try done.
  { cbn. apply lookup_insert_eq. }
  cbn [self env committed with_pending db_filename local_path clock blobs files trace
         log with_files] in S4, Ct, C4, B4, F4, T4.
  assert (Hbk : backup_name (with_pending None (self st3)) (strftime_compact t)
                = backup_name (self st) (strftime_compact t)).
  { unfold backup_name. cbn. by rewrite Hdb3. }
  rewrite Hbk, Hdb3, Hpath3 in *.
  assert (Hlk4 : _get_lock_blob_name (self (closed st4)) = _get_lock_blob_name (self st)).
  { unfold _get_lock_blob_name. cbn. rewrite S4. cbn. by rewrite Hdb3. }
  destruct (release_lock_holder (closed st4) b d (lock_id_at w1) (json_dumps (lease_at w1))
              [("lock_id", JStr (lock_id_at w1));
               ("timestamp", JStr (isoformat (clock w1)));
               ("hostname", JStr (hostname w1)); ("pid", JNum (pid w1))])
    as (st5 & E5 & S5 & B5 & F5 & M5 & C5 & T5).
  { cbn. rewrite S4. cbn. by rewrite S3, S1. }
  { exact M4. }
  { exact Hd. }
  { cbn. rewrite S4. cbn. by rewrite S3, S1. }
  { apply lock_id_at_held. }
  { rewrite Hlk4. cbn. rewrite B4, B3, B1.
    rewrite lookup_insert_ne by apply backup_name_not_lock.
    rewrite lookup_insert_ne by (intros H; by apply Hlk).
    apply lookup_insert_eq. }
  { exact Hjson. }
  { reflexivity. }
  rewrite Hlk4 in B5, T5.
  cbn [self env closed with_pending db_filename clock blobs files trace log]
    in S5, B5, F5, C5, T5.
  destruct (with_session_run func st) as (r' & st' & E & P).
  exists st', t.
  destruct P as [e st1' A1
                |b' st1' e st2' st'' A1 A2 A3
                |b' st1' p' st2' st3' e c' st'' A1 A2 A3 A4 A5
                |b' st1' p' st2' st3' r0 c' e st'' A1 A2 A3 A4 A5 A6
                |b' st1' p' st2' st3' r0 c' st4' st'' A1 A2 A3 A4 A5 A6 A7];
    rewrite E1 in A1; try discriminate A1; injection A1 as <- <-;
    rewrite E2 in A2; try discriminate A2; injection A2 as <- <-;
    rewrite E3 in A3; injection A3 as <-;
    rewrite Hfound, Hfunc in A4; try discriminate A4.
  { injection A4 as <- <-. rewrite Hpath3, Hfile3 in A5. cbn in A5. congruence. }
  injection A4 as <- <-. rewrite E4 in A6. injection A6 as <-.
  rewrite E5 in A7. injection A7 as <-.
  split; [exact E|].
  rewrite S5, S4, S3, S1. cbn.
  split; [done|]. split; [done|]. split; [done|]. split; [done|].
  assert (C00 : clock (env st) <= clock w1).
  { apply (served_clock_le d _ _ Hs Hd). }
  split.
  { rewrite B5, B4, B3, B1.
    rewrite delete_insert_ne by (intros H; by apply (backup_name_not_lock (self st) (strftime_compact t))).
    rewrite delete_insert_ne by done.
    by rewrite delete_insert_id. }
  split. { rewrite F5, F4, F3, F1. apply insert_insert_eq. }
  split; [lia|]. split; [lia|]. split; [exact M5|].
  rewrite (since_app st st5
             ([Print (ReleasedDatabaseLock (lock_id_at w1));
               Request (OpDelete (_get_lock_blob_name (self st))) true;
               Request (OpRead (_get_lock_blob_name (self st))) true;
               Request (OpExists (_get_lock_blob_name (self st))) true; Close;
               Print (CreatedBackup (strftime_compact t)); Print UploadedDatabase;
               Request (OpWrite (backup_name (self st) (strftime_compact t)) content) true;
               Request (OpWrite (db_filename (self st)) content) true; Commit]
              ++ pre ++
              [Print (CreatedDatabaseLock (lock_id_at w1));
               Request (OpWrite (_get_lock_blob_name (self st))
                          (json_dumps (lease_at w1))) true;
               Request (OpExists (_get_lock_blob_name (self st))) true])).
  2: { rewrite T5, T4, T3, T1. cbn. by rewrite <- !app_assoc. }
  rewrite !count_app, N3. cbn. rewrite B1, S1. cbn.
  rewrite lookup_insert_ne by done. lia.
Qed.

End SessionRun.

Section Sessions.
Context {lib : Library}.

(** X10.  [with_session] on an instance that has no engine yet, where the
    lock is free and every request goes through: the function is called
    on the content of the canonical blob (on a new store where there is
    none and one can be made), its result is returned, and what its
    session holds is committed to the file and uploaded to the canonical
    blob and to one backup; the lock blob is gone again and the instance
    holds no [lock_id]. *)
Theorem session_commits_and_uploads {R} (func : Transform R) st b d r content :
  bucket (self st) = Some b ->
  engine (self st) = false ->
  smooth d (env st) = true -> 0 <= d ->
  blobs (env st) !! _get_lock_blob_name (self st) = None ->
  pending (self st) = None ->
  let w1 := served (OpExists (_get_lock_blob_name (self st))) (env st) in
  json_loads (json_dumps (lease_at w1)) = Some (lease_at w1) ->
  (blobs (env st) !! db_filename (self st) = None ->
   create_error (local_path (self st)) (files (env st) !! local_path (self st)) = None) ->
  let found := match blobs (env st) !! db_filename (self st) with
               | Some remote => remote
               | None => new_store (files (env st) !! local_path (self st))
               end in
  func found = (Returns r, content) ->
  commit_error found content = None ->
  exists st' t,
    with_session func st = (Ok r, st') /\
    clock (env st) <= t <= clock (env st) + 8 * d /\
    blobs (env st') =
      <[backup_name (self st) (strftime_compact t) := content]>
        (<[db_filename (self st) := content]> (blobs (env st))) /\
    blobs (env st') !! db_filename (self st) = Some content /\
    blobs (env st') !! _get_lock_blob_name (self st) = None /\
    files (env st') !! local_path (self st) = Some content /\
    lock_id (self st') = None /\ pending (self st') = None.
Proof.
  intros Hb _ Hs Hd Hfree Hpend w1 Hjson Hmade found Hfunc Hcommit.
  assert (Hfound : replica_after_download st = found).
  { by apply replica_after_download_smooth with b d. }
  destruct (with_session_commits func st b d r content)
    as (st' & t & E & _ & L & _ & P & B & F & C & _); rewrite ?Hfound; try assumption.
  exists st', t. split; [exact E|]. split; [exact C|]. split; [exact B|].
  rewrite B, F.
  split. { rewrite lookup_insert_ne by apply backup_name_not_db. apply lookup_insert_eq. }
  split. { rewrite lookup_insert_ne by apply backup_name_not_lock.
           rewrite lookup_insert_ne; [exact Hfree|].
           intros H. by apply (lock_name_not_db (self st)). }
  split; [apply lookup_insert_eq|]. by split.
Qed.


(** X12.  What the session of one instance commits, the first session of
    another instance on the same bucket finds: with the requests going
    through and neither instance having an engine yet, the second function
    is called on the content the first one left, whatever file the second
    instance had. *)
Theorem next_session_finds_the_commit {R1 R2}
    (first : Transform R1) (second : Transform R2) st b d r1 content1 r2 content2 m2 :
  bucket (self st) = Some b ->
  engine (self st) = false ->
  smooth d (env st) = true -> 0 <= d ->
  blobs (env st) !! _get_lock_blob_name (self st) = None ->
  pending (self st) = None ->
  let w1 := served (OpExists (_get_lock_blob_name (self st))) (env st) in
  json_loads (json_dumps (lease_at w1)) = Some (lease_at w1) ->
  (blobs (env st) !! db_filename (self st) = None ->
   create_error (local_path (self st)) (files (env st) !! local_path (self st)) = None) ->
  let found := match blobs (env st) !! db_filename (self st) with
               | Some remote => remote
               | None => new_store (files (env st) !! local_path (self st))
               end in
  first found = (Returns r1, content1) ->
  commit_error found content1 = None ->
  bucket m2 = Some b -> db_filename m2 = db_filename (self st) -> pending m2 = None ->
  engine m2 = false ->
  let st1 := {| self := m2; env := env (with_session first st).2 |} in
  let w2 := served (OpExists (_get_lock_blob_name m2)) (env st1) in
  json_loads (json_dumps (lease_at w2)) = Some (lease_at w2) ->
  second content1 = (Returns r2, content2) ->
  commit_error content1 content2 = None ->
  exists st2,
    with_session first st = (Ok r1, (with_session first st).2) /\
    with_session second st1 = (Ok r2, st2) /\
    blobs (env st2) !! db_filename (self st) = Some content2 /\
    files (env st2) !! local_path m2 = Some content2.
Proof.
  intros Hb _ Hs Hd Hfree Hpend w1 Hjson Hmade found Hfirst Hcommit1 Hb2 Hdb2 Hpend2 _
    st1 w2 Hjson2 Hsecond Hcommit2.
  assert (Hfound : replica_after_download st = found).
  { by apply replica_after_download_smooth with b d. }
  destruct (with_session_commits first st b d r1 content1)
    as (st' & t & E & _ & _ & _ & _ & B & _ & _ & _ & M & _);
    rewrite ?Hfound; try assumption.
  subst st1 w2. rewrite E in *. cbn [snd] in *.
  set (st1 := {| self := m2; env := env st' |}) in *.
  assert (Hblob1 : blobs (env st1) !! db_filename (self st1) = Some content1).
  { cbn. rewrite Hdb2, B.
    rewrite lookup_insert_ne by apply backup_name_not_db. apply lookup_insert_eq. }
  assert (Hfree1 : blobs (env st1) !! _get_lock_blob_name (self st1) = None).
  { cbn. unfold _get_lock_blob_name. rewrite Hdb2, B.
    rewrite lookup_insert_ne by apply backup_name_not_lock.
    rewrite lookup_insert_ne; [exact Hfree|].
    intros H. by apply (lock_name_not_db (self st)). }
  assert (Hmade1 : blobs (env st1) !! db_filename (self st1) = None ->
                   create_error (local_path (self st1))
                     (files (env st1) !! local_path (self st1)) = None).
  { by rewrite Hblob1. }
  assert (Hfound1 : replica_after_download st1 = content1).
  { rewrite (replica_after_download_smooth st1 b d) by done. by rewrite Hblob1. }
  destruct (with_session_commits second st1 b d r2 content2)
    as (st2 & t2 & E2 & _ & _ & _ & _ & B2 & F2 & _); rewrite ?Hfound1; try done.
  exists st2. split; [done|]. split; [exact E2|].
  rewrite B2, F2. cbn. rewrite Hdb2. split; [|apply lookup_insert_eq].
  rewrite lookup_insert_ne; [apply lookup_insert_eq|].
  intros H. apply (backup_name_not_db m2 (strftime_compact t2)). by rewrite Hdb2.
Qed.

End Sessions.

Section SessionEdges.
Context {lib : Library}.


(** X14.  When the delete of the lock blob fails, [release_lock] still
    returns and the instance forgets its [lock_id]; the lease stays in the
    bucket as it was. *)
Theorem failed_delete_leaves_the_lease st b id text fields s1 s2 s3 rest :
  bucket (self st) = Some b ->
  lock_id (self st) = Some id -> id <> EmptyString ->
  blobs (env st) !! _get_lock_blob_name (self st) = Some text ->
  json_loads text = Some (JObj fields) ->
  Py.field "lock_id" fields = Some (JStr id) ->
  oracle (env st) = s1 :: s2 :: s3 :: rest ->
  fails s1 = false -> fails s2 = false -> fails s3 = true ->
  exists st',
    release_lock st = (Ok tt, st') /\
    lock_id (self st') = None /\
    blobs (env st') = blobs (env st) /\
    since st st' =
      [Print (ErrorReleasingLock StoreError);
       Request (OpDelete (_get_lock_blob_name (self st))) false;
       Request (OpRead (_get_lock_blob_name (self st))) true;
       Request (OpExists (_get_lock_blob_name (self st))) true].
Proof.
  intros Hb Hid Hne Hblob Hjson Hfield Ho F1 F2 F3.
  assert (Hheld : Py.held (Some id) = true).
  { cbn. destruct (String.eqb_spec id EmptyString); [done|reflexivity]. }
  destruct st as [m w]. destruct w as [bl fl cl orc hn pd uu tr]. cbn in *. subst orc.
  unfold release_lock, _release_lock, _get_lock_info. unfold_requests.
  repeat (progress (mred; rewrite ?Hb, ?Hid, ?Hheld, ?F1, ?F2, ?F3, ?Hblob, ?Hjson,
                      ?Hfield, ?String.eqb_refl)).
  eexists. split; [reflexivity|]. split; [done|]. split; [done|].
  by apply since_app.
Qed.

(** X15.  Without a bucket, [with_session] asks for no request and takes
    no lock: the function is called on the file at [local_path] (on a new
    store where there is none and one can be made), its session is
    committed to the file, and the upload is skipped. *)
Theorem local_session_commits_to_the_file {R} (func : Transform R) st r content :
  bucket (self st) = None ->
  pending (self st) = None ->
  (files (env st) !! local_path (self st) = None ->
   create_error (local_path (self st)) None = None) ->
  let found := keep_or_new (files (env st) !! local_path (self st)) in
  func found = (Returns r, content) ->
  commit_error found content = None ->
  exists st',
    with_session func st = (Ok r, st') /\
    blobs (env st') = blobs (env st) /\
    files (env st') = <[local_path (self st) := content]> (files (env st)) /\
    since st st' = [Close; Print SkippingUpload; Commit] /\
    Py.held (lock_id (self st')) = false /\ engine (self st') = true.
Proof.
  intros Hb Hpend Hmade found Hfunc Hcommit. subst found.
  destruct st as [m w]. destruct w as [bl fl cl orc hn pd uu tr]. cbn in *.
  unfold with_session, in_session, acquire_lock, get_session, download_db, initialize_db,
    upload_db, release_lock, _release_lock, session_commit, session_close, call.
  destruct (fl !! local_path m) as [file|] eqn:Hfile; destruct (engine m) eqn:Heng;
    cbn in Hfunc, Hcommit; try specialize (Hmade eq_refl);
    repeat (progress (mred; rewrite ?Hb, ?Hpend, ?Hfile, ?Heng, ?Hmade, ?lookup_insert_eq,
                        ?Hfunc, ?Hcommit));
    destruct (Py.held (lock_id m)) eqn:Hheld;
    repeat (progress (mred; rewrite ?Hb, ?Hpend, ?Hfile, ?Heng, ?Hmade, ?lookup_insert_eq,
                        ?Hfunc, ?Hcommit, ?Hheld));
    (eexists; split; [reflexivity|];
     split; [done|]; split; [cbn; by rewrite ?insert_insert_eq|];
     split; [by apply since_app|]; cbn; by rewrite ?Hheld).
Qed.

End SessionEdges.

Section FailedCommit.
Context {lib : Library}.


End FailedCommit.

(** ** The models *)

(** ** Splitting and joining *)

Lemma str_app_nil_l (s : string) : EmptyString +:+ s = s.
Proof. reflexivity. Qed.

Lemma str_app_cons x (a b : string) : String x a +:+ b = String x (a +:+ b).
Proof. reflexivity. Qed.

Lemma str_app_assoc (a b c : string) : (a +:+ b) +:+ c = a +:+ (b +:+ c).
Proof.
  induction a as [|x a IH]; [done|].
  change (String x ((a +:+ b) +:+ c) = String x (a +:+ (b +:+ c))). by rewrite IH.
Qed.

Lemma str_app_empty (a b : string) : a +:+ b = EmptyString -> a = EmptyString /\ b = EmptyString.
Proof. by destruct a. Qed.

Lemma str_split_not_nil c s : str_split c s <> [].
Proof.
  destruct s as [|x s]; cbn; [done|].
  destruct (Ascii.eqb x c); [done|]. by destruct (str_split c s).
Qed.

Lemma str_split_pieces c s : Forall (fun x => has_char c x = false) (str_split c s).
Proof.
  induction s as [|x s IH]; cbn; [by repeat constructor|].
  destruct (Ascii.eqb x c) eqn:E; [by constructor|].
  destruct (str_split c s) as [|piece pieces]; [by repeat constructor; cbn; rewrite E|].
  inversion IH; subst. constructor; [|done]. cbn. by rewrite E.
Qed.

Lemma str_split_plain c p : has_char c p = false -> str_split c p = [p].
Proof.
  induction p as [|x p IH]; cbn; [done|]. intros H.
  apply orb_false_elim in H as [E H]. rewrite E, (IH H). done.
Qed.

Lemma str_split_app c a b :
  str_split c (a +:+ String c b) = str_split c a ++ str_split c b.
Proof.
  induction a as [|x a IH]; rewrite ?str_app_nil_l, ?str_app_cons; cbn [str_split].
  - by rewrite Ascii.eqb_refl.
  - destruct (Ascii.eqb x c); [by rewrite IH|]. rewrite IH.
    pose proof (str_split_not_nil c a). by destruct (str_split c a).
Qed.

Lemma str_split_empty c s : str_split c s = [EmptyString] -> s = EmptyString.
Proof.
  destruct s as [|x s]; cbn; [done|].
  destruct (Ascii.eqb x c).
  - intros [= H]. by apply str_split_not_nil in H.
  - by destruct (str_split c s).
Qed.

Lemma str_join_cons sep p q rest :
  str_join sep (p :: q :: rest) = p +:+ sep +:+ str_join sep (q :: rest).
Proof. reflexivity. Qed.

Lemma str_join_split s : str_join "," (str_split comma s) = s.
Proof.
  induction s as [|x s IH]; [done|]. cbn [str_split].
  destruct (Ascii.eqb_spec x comma) as [->|N].
  - pose proof (str_split_not_nil comma s).
    destruct (str_split comma s) as [|q rest] eqn:E; [done|].
    rewrite str_join_cons, IH. done.
  - destruct (str_split comma s) as [|piece [|q rest]] eqn:E.
    + by apply str_split_not_nil in E.
    + cbn in *. by rewrite IH.
    + rewrite str_join_cons in *. cbn. by rewrite <- IH.
Qed.

Lemma str_split_join l :
  l <> [] -> Forall (fun p => has_char comma p = false) l ->
  str_split comma (str_join "," l) = l.
Proof.
  induction l as [|p [|q rest] IH]; [done| |]; intros _ H; inversion H; subst.
  - by apply str_split_plain.
  - rewrite str_join_cons.
    change (p +:+ "," +:+ str_join "," (q :: rest))
      with (p +:+ String comma (str_join "," (q :: rest))).
    rewrite str_split_app, IH by done. by rewrite str_split_plain.
Qed.

Lemma str_join_snoc sep l p :
  l <> [] -> str_join sep (l ++ [p]) = str_join sep l +:+ sep +:+ p.
Proof.
  induction l as [|x [|y rest] IH]; [done| |]; intros _.
  - reflexivity.
  - change ((x :: y :: rest) ++ [p]) with (x :: (y :: rest) ++ [p]).
    change ((y :: rest) ++ [p]) with (y :: rest ++ [p]) at 1.
    rewrite str_join_cons, str_join_cons.
    change (y :: rest ++ [p]) with ((y :: rest) ++ [p]). rewrite IH by done.
    by rewrite !str_app_assoc.
Qed.

Lemma str_in_In x xs : str_in x xs = true <-> In x xs.
Proof.
  unfold str_in. rewrite existsb_exists. split.
  - intros (y & Hin & E). apply String.eqb_eq in E. by subst.
  - intros Hin. exists x. split; [done|apply String.eqb_refl].
Qed.

(** ** The plugins of a secret *)

Lemma plugin_ids_pieces s :
  Forall (fun p => has_char comma p = false) (Secret.plugin_ids s).
Proof.
  unfold Secret.plugin_ids. destruct (str_truthy (Secret.used_by s)); cbn; [|done].
  apply str_split_pieces.
Qed.

Lemma plugin_ids_not_blank s : Secret.plugin_ids s <> [EmptyString].
Proof.
  unfold Secret.plugin_ids. destruct (Secret.used_by s) as [u|]; cbn; [|done].
  destruct (String.eqb_spec u EmptyString); cbn; [done|].
  intros H. by apply str_split_empty in H.
Qed.

Lemma plugin_ids_join s :
  str_join "," (Secret.plugin_ids s) =
    if str_truthy (Secret.used_by s) then default EmptyString (Secret.used_by s)
    else EmptyString.
Proof.
  unfold Secret.plugin_ids. destruct (str_truthy (Secret.used_by s)); cbn; [|done].
  apply str_join_split.
Qed.

Lemma plugin_ids_of_text name status u :
  Secret.plugin_ids {| Secret.name := name; Secret.status := status;
                       Secret.used_by := Some u |} =
    if String.eqb u EmptyString then [] else str_split comma u.
Proof. unfold Secret.plugin_ids. cbn. by destruct (String.eqb u EmptyString). Qed.

(** What [add_plugin] makes of the list. *)
Lemma add_plugin_ids p s :
  Secret.plugin_ids (Secret.add_plugin p s) =
    if str_in p (Secret.plugin_ids s) then Secret.plugin_ids s
    else
      match Secret.plugin_ids s with
      | [] => if String.eqb p EmptyString then [] else str_split comma p
      | _ :: _ => Secret.plugin_ids s ++ str_split comma p
      end.
Proof.
  unfold Secret.add_plugin.
  destruct (str_in p (Secret.plugin_ids s)) eqn:Hin; cbn [negb]; [done|].
  rewrite plugin_ids_of_text.
  destruct (Secret.plugin_ids s) as [|q rest] eqn:Hids; [done|].
  rewrite <- Hids. rewrite str_join_snoc by (by rewrite Hids).
  change (str_join "," (Secret.plugin_ids s) +:+ "," +:+ p)
    with (str_join "," (Secret.plugin_ids s) +:+ String comma p).
  rewrite str_split_app.
  rewrite str_split_join; [| by rewrite Hids | apply plugin_ids_pieces].
  destruct (String.eqb_spec (str_join "," (Secret.plugin_ids s) +:+ String comma p)
              EmptyString) as [E|_]; [|done].
  apply str_app_empty in E as [_ E]. discriminate E.
Qed.

(** ** Rows found and changed *)

Lemma first_app {A} (p : A -> bool) rows x :
  first p (rows ++ [x]) =
    match first p rows with
    | Some y => Some y
    | None => if p x then Some x else None
    end.
Proof.
  unfold first. induction rows as [|y rows IH]; cbn; [done|].
  by destruct (p y).
Qed.

Lemma first_amend {A} (p : A -> bool) f rows :
  (forall x, p x = true -> p (f x) = true) ->
  first p (amend p f rows) = option_map f (first p rows).
Proof.
  intros Hp. unfold first. induction rows as [|y rows IH]; cbn; [done|].
  destruct (p y) eqn:E; cbn; [by rewrite (Hp y E)|]. by rewrite E.
Qed.

Lemma amend_none {A} (p : A -> bool) f rows :
  first p rows = None -> amend p f rows = rows.
Proof.
  unfold first. induction rows as [|y rows IH]; cbn; [done|].
  destruct (p y); [done|]. intros H. by rewrite IH.
Qed.

Lemma map_amend {A B} (key : A -> B) (p : A -> bool) f rows :
  (forall x, key (f x) = key x) -> map key (amend p f rows) = map key rows.
Proof.
  intros Hk. induction rows as [|y rows IH]; cbn; [done|].
  destruct (p y); cbn; [by rewrite Hk|]. by rewrite IH.
Qed.

Lemma first_none_key {A} (key : A -> string) k rows :
  first (fun x => String.eqb (key x) k) rows = None <-> ~ In k (map key rows).
Proof.
  unfold first. induction rows as [|y rows IH]; cbn; [tauto|].
  destruct (String.eqb_spec (key y) k); [split; [done|tauto]|].
  rewrite IH. tauto.
Qed.

Lemma first_some_key {A} (key : A -> string) k rows x :
  first (fun x => String.eqb (key x) k) rows = Some x -> In x rows /\ key x = k.
Proof.
  intros H. apply find_some in H as [H1 H2]. split; [done|]. by apply String.eqb_eq.
Qed.

(** With a key that no two rows share, the row that [amend] changed is the
    only one with its key. *)
Lemma amend_unique {A} (key : A -> string) k f rows x :
  NoDup (map key rows) -> (forall y, key (f y) = key y) ->
  In x (amend (fun y => String.eqb (key y) k) f rows) -> key x = k ->
  exists y, first (fun y => String.eqb (key y) k) rows = Some y /\ x = f y.
Proof.
  intros Hnd Hk. unfold first. induction rows as [|y rows IH]; cbn; [done|].
  inversion Hnd as [|? ? Hy Hnd']; subst.
  destruct (String.eqb_spec (key y) k) as [E|N]; cbn.
  - intros [<-|Hin] Hx; [by exists y|].
    exfalso. apply Hy. rewrite E, <- Hx. apply list_elem_of_In. by apply in_map.
  - intros [<-|Hin] Hx; [done|]. by apply IH.
Qed.

Lemma amend_others {A} (key : A -> string) k f rows x :
  (forall y, key (f y) = key y) -> key x <> k ->
  In x (amend (fun y => String.eqb (key y) k) f rows) <-> In x rows.
Proof.
  intros Hk Hx. induction rows as [|y rows IH]; cbn; [done|].
  destruct (String.eqb_spec (key y) k) as [E|N]; cbn; [|by rewrite IH].
  split; intros [<-|Hin]; try (by right); try done.
  by rewrite Hk in Hx.
Qed.

Lemma NoDup_snoc {A} (l : list A) x : NoDup l -> ~ In x l -> NoDup (l ++ [x]).
Proof.
  intros Hl Hx. apply NoDup_app. split; [done|]. split; [|by apply NoDup_singleton].
  intros y Hy Hy'. apply list_elem_of_In in Hy. apply list_elem_of_singleton in Hy'.
  by subst.
Qed.

(** The dictionary of [get_plugin_registry], key by key. *)
Lemma registry_lookup rows k :
  NoDup (map PluginRegistry.plugin_id rows) ->
  foldl (fun d p => <[PluginRegistry.plugin_id p := p]> d)
    (∅ : gmap string PluginRegistry.t) rows !! k =
    first (fun p => String.eqb (PluginRegistry.plugin_id p) k) rows.
Proof.
  induction rows as [|x rows IH] using rev_ind; [done|]. intros Hnd.
  rewrite map_app in Hnd. apply NoDup_app in Hnd as (Hnd & Hx & _).
  rewrite foldl_app, first_app. cbn.
  destruct (String.eqb_spec (PluginRegistry.plugin_id x) k) as [<-|N].
  - rewrite lookup_insert_eq.
    assert (H : first (fun p => String.eqb (PluginRegistry.plugin_id p)
                                  (PluginRegistry.plugin_id x)) rows = None).
    { apply first_none_key. intros Hin. apply (Hx (PluginRegistry.plugin_id x)).
      - by apply list_elem_of_In.
      - cbn. apply list_elem_of_singleton. done. }
    by rewrite H.
  - rewrite lookup_insert_ne by done. rewrite IH by done.
    by destruct (first _ rows).
Qed.

Lemma plain_parts p : plain p = true -> p <> EmptyString /\ has_char comma p = false.
Proof.
  unfold plain. intros H. apply andb_prop in H as [H1 H2].
  apply negb_true_iff in H1, H2. split; [|done]. by apply String.eqb_neq.
Qed.

Lemma add_plugin_keeps p s q :
  In q (Secret.plugin_ids s) -> In q (Secret.plugin_ids (Secret.add_plugin p s)).
Proof.
  intros Hq. rewrite add_plugin_ids.
  destruct (str_in p (Secret.plugin_ids s)); [done|].
  destruct (Secret.plugin_ids s) as [|x xs]; [done|]. apply in_app_iff. by left.
Qed.

Lemma add_plugin_lists p s :
  plain p = true -> In p (Secret.plugin_ids (Secret.add_plugin p s)).
Proof.
  intros Hp. apply plain_parts in Hp as [Hne Hc]. rewrite add_plugin_ids.
  destruct (str_in p (Secret.plugin_ids s)) eqn:Hin; [by apply str_in_In|].
  rewrite (str_split_plain comma p Hc).
  destruct (Secret.plugin_ids s) as [|x xs].
  - destruct (String.eqb_spec p EmptyString); [done|by left].
  - apply in_app_iff. right. by left.
Qed.

Lemma add_plugin_name p s : Secret.name (Secret.add_plugin p s) = Secret.name s.
Proof. unfold Secret.add_plugin. by destruct (negb _). Qed.

Lemma add_plugin_status p s : Secret.status (Secret.add_plugin p s) = Secret.status s.
Proof. unfold Secret.add_plugin. by destruct (negb _). Qed.

Lemma add_plugins_name l s :
  Secret.name (foldl (fun x plugin_id => Secret.add_plugin plugin_id x) s l) = Secret.name s.
Proof.
  revert s. induction l as [|p l IH]; intros s; cbn; [done|].
  by rewrite IH, add_plugin_name.
Qed.

Lemma add_plugins_status l s :
  Secret.status (foldl (fun x plugin_id => Secret.add_plugin plugin_id x) s l)
    = Secret.status s.
Proof.
  revert s. induction l as [|p l IH]; intros s; cbn; [done|].
  by rewrite IH, add_plugin_status.
Qed.

Lemma add_plugins_keep l s q :
  In q (Secret.plugin_ids s) ->
  In q (Secret.plugin_ids (foldl (fun x plugin_id => Secret.add_plugin plugin_id x) s l)).
Proof.
  revert s. induction l as [|p l IH]; intros s Hq; cbn; [done|].
  apply IH. by apply add_plugin_keeps.
Qed.

Lemma add_plugins_list l s p :
  Forall (fun p => plain p = true) l -> In p l ->
  In p (Secret.plugin_ids (foldl (fun x plugin_id => Secret.add_plugin plugin_id x) s l)).
Proof.
  revert s. induction l as [|q l IH]; intros s Hl Hin; [done|].
  inversion Hl; subst. cbn. destruct Hin as [->|Hin]; [|by apply IH].
  apply add_plugins_keep. by apply add_plugin_lists.
Qed.

Lemma str_join_blank l :
  l <> [] -> str_join "," l = EmptyString -> l = [EmptyString].
Proof.
  destruct l as [|p [|q rest]]; [done| |]; intros _ H.
  - cbn in H. by subst.
  - rewrite str_join_cons in H. apply str_app_empty in H as [_ H]. discriminate H.
Qed.

Lemma create_plugin_ids name l :
  Forall (fun p => has_char comma p = false) l -> l <> [EmptyString] ->
  Secret.plugin_ids (Secret.create name (Some l)) = l.
Proof.
  intros Hl Hb. destruct l as [|p ps]; [done|].
  unfold Secret.create. rewrite plugin_ids_of_text.
  destruct (String.eqb_spec (str_join "," (p :: ps)) EmptyString) as [E|_].
  - by apply str_join_blank in E.
  - by apply str_split_join.
Qed.

Section Secrets.
Context {lib : Library}.

(** X17.  The plugin names of a secret are kept as one text with commas
    between: [plugin_ids] gives back the list that [Secret.create] was
    given exactly when no name in it has a comma and the list is not the
    single empty name. *)
Theorem secret_plugins_round_trip name l :
  Secret.plugin_ids (Secret.create name (Some l)) = l <->
  Forall (fun p => has_char comma p = false) l /\ l <> [EmptyString].
Proof.
  split; [|intros [H1 H2]; by apply create_plugin_ids].
  intros H. split.
  - rewrite <- H. apply plugin_ids_pieces.
  - rewrite <- H. apply plugin_ids_not_blank.
Qed.

(** X18.  [add_plugin] with a name that is not empty and has no comma: the
    name is in [plugin_ids] afterwards, the names that were there are still
    there, the status is the same, and a second call changes nothing. *)
Theorem add_plugin_registers_plain_names p s :
  plain p = true ->
  In p (Secret.plugin_ids (Secret.add_plugin p s)) /\
  (forall q, In q (Secret.plugin_ids s) -> In q (Secret.plugin_ids (Secret.add_plugin p s))) /\
  Secret.status (Secret.add_plugin p s) = Secret.status s /\
  Secret.add_plugin p (Secret.add_plugin p s) = Secret.add_plugin p s.
Proof.
  intros Hp. pose proof (add_plugin_lists p s Hp) as Hin.
  split; [exact Hin|]. split; [intros q; apply add_plugin_keeps|].
  split; [apply add_plugin_status|].
  apply str_in_In in Hin. unfold Secret.add_plugin at 1. by rewrite Hin.
Qed.

(** X19.  [add_plugin] with a name that has a comma: the name is cut at its
    commas, so that it is never in [plugin_ids] itself and every further
    call adds its pieces once more.  The empty name, added to a secret
    without plugins, leaves it without plugins. *)
Theorem add_plugin_cuts_names_at_commas p s :
  has_char comma p = true ->
  ~ In p (Secret.plugin_ids (Secret.add_plugin p s)) /\
  Secret.plugin_ids (Secret.add_plugin p s) = Secret.plugin_ids s ++ str_split comma p /\
  Secret.plugin_ids (Secret.add_plugin p (Secret.add_plugin p s))
    = Secret.plugin_ids s ++ str_split comma p ++ str_split comma p /\
  (Secret.plugin_ids s = [] ->
   Secret.plugin_ids (Secret.add_plugin EmptyString s) = []).
Proof.
  intros Hp.
  assert (Hnot : forall x, ~ In p (Secret.plugin_ids x)).
  { intros x Hin. pose proof (plugin_ids_pieces x) as H.
    rewrite Forall_forall in H. apply list_elem_of_In in Hin. apply H in Hin. congruence. }
  assert (Hne : p <> EmptyString) by (by destruct p).
  assert (Hstep : forall x,
             Secret.plugin_ids (Secret.add_plugin p x)
             = Secret.plugin_ids x ++ str_split comma p).
  { intros x. rewrite add_plugin_ids.
    destruct (str_in p (Secret.plugin_ids x)) eqn:Hin.
    { apply str_in_In in Hin. by apply Hnot in Hin. }
    destruct (Secret.plugin_ids x); [|done].
    by destruct (String.eqb_spec p EmptyString). }
  split; [apply Hnot|]. split; [apply Hstep|].
  split; [by rewrite !Hstep, <- app_assoc|].
  intros Hids. rewrite add_plugin_ids, Hids. done.
Qed.

(** X20.  [track_secret]: the secret of that name is in the table afterwards
    and is what the operation returns; it lists every plugin given (names
    not empty and without commas) and the plugins it listed before; a
    secret that was there keeps its status, a new one is "missing"; and no
    second row of the name is made. *)
Theorem track_secret_upserts name used_by s :
  Forall (fun p => plain p = true) (default [] used_by) ->
  let found := fun x => String.eqb (Secret.name x) name in
  let r := track_secret._track name used_by s in
  first found (secrets r.2) = Some r.1 /\
  Secret.name r.1 = name /\
  Secret.status r.1 = match first found (secrets s) with
                      | Some old => Secret.status old
                      | None => "missing"%string
                      end /\
  (forall p, In p (default [] used_by) -> In p (Secret.plugin_ids r.1)) /\
  (forall old q, first found (secrets s) = Some old ->
                 In q (Secret.plugin_ids old) -> In q (Secret.plugin_ids r.1)) /\
  (NoDup (map Secret.name (secrets s)) -> NoDup (map Secret.name (secrets r.2))) /\
  (forall x, Secret.name x <> name -> In x (secrets r.2) <-> In x (secrets s)).
Proof.
  intros Hplain found r. subst r. unfold track_secret._track. fold found.
  set (change := fun x : Secret.t =>
         match used_by with
         | Some (p :: ps) =>
             foldl (fun x plugin_id => Secret.add_plugin plugin_id x) x (p :: ps)
         | _ => x
         end).
  assert (Hname : forall x, Secret.name (change x) = Secret.name x).
  { intros x. subst change. cbv beta. destruct used_by as [[|p ps]|]; try done.
    apply add_plugins_name. }
  destruct (first found (secrets s)) as [old|] eqn:Hfirst; cbn [fst snd secrets with_secrets].
  - apply first_some_key in Hfirst as Hold. destruct Hold as [Hin Hn].
    split.
    { rewrite first_amend, Hfirst; [done|].
      intros x Hx. subst found. cbv beta in *. by rewrite Hname. }
    split; [exact (eq_trans (Hname old) Hn)|]. split.
    { subst change. cbv beta. destruct used_by as [[|p ps]|]; try done.
      apply add_plugins_status. }
    split.
    { intros p Hp. subst change. cbv beta. destruct used_by as [[|p' ps]|]; try done.
      by apply add_plugins_list. }
    split.
    { intros old' q [= <-] Hq. subst change. cbv beta.
      destruct used_by as [[|p' ps]|]; try done. by apply add_plugins_keep. }
    split; [by rewrite map_amend|].
    intros x Hx. by apply (amend_others Secret.name).
  - split.
    { rewrite first_app, Hfirst. subst found. cbv beta.
      destruct used_by as [[|p ps]|]; cbn; by rewrite String.eqb_refl. }
    split; [done|]. split; [done|]. split.
    { intros p Hp. destruct used_by as [l|]; [|done]. cbn in Hp, Hplain.
      rewrite create_plugin_ids; [done| |].
      - eapply Forall_impl; [exact Hplain|]. intros q Hq. by apply plain_parts in Hq as [_ Hq].
      - intros ->. inversion Hplain; subst. done. }
    split; [done|]. split.
    { intros Hnd. rewrite map_app. apply NoDup_snoc; [done|].
      apply first_none_key in Hfirst. intros Hin. apply Hfirst.
      by destruct used_by as [[|? ?]|]. }
    intros x Hx. rewrite in_app_iff. split; [|by left].
    intros [H|[<-|[]]]; [done|]. by destruct used_by as [[|? ?]|].
Qed.

End Secrets.

Lemma filter_deactivated rows :
  List.filter PersonaVersion.is_active
    (map (fun p => if PersonaVersion.is_active p
                   then PersonaVersion.set_is_active false p else p) rows) = [].
Proof.
  induction rows as [|p rows IH]; [done|]. cbn.
  destruct (PersonaVersion.is_active p) eqn:E; cbn; by rewrite ?E.
Qed.

Lemma filter_none_first {A} (p : A -> bool) rows :
  first p rows = None <-> List.filter p rows = [].
Proof.
  unfold first. induction rows as [|x rows IH]; cbn; [done|].
  by destruct (p x).
Qed.

Section Tables.
Context {lib : Library}.

(** X21.  [mark_secret_present], on a table where no two secrets have the
    same name: afterwards [get_missing_secrets] gives no secret of that
    name, and of the other names the secrets it gave before.  Where no
    secret has the name the operation returns [None] and changes
    nothing. *)
Theorem present_secret_is_not_missing name s :
  NoDup (map Secret.name (secrets s)) ->
  let found := fun x => String.eqb (Secret.name x) name in
  let r := mark_secret_present._update name s in
  let missing := (get_missing_secrets._query r.2).1 in
  (forall x, In x missing -> Secret.name x <> name) /\
  (forall x, Secret.name x <> name ->
             In x missing <-> In x (get_missing_secrets._query s).1) /\
  r.1 = option_map Secret.mark_present (first found (secrets s)) /\
  (first found (secrets s) = None -> r = (None, s)).
Proof.
  intros Hnd found r missing. subst r missing found.
  unfold mark_secret_present._update, get_missing_secrets._query.
  destruct (first _ (secrets s)) as [old|] eqn:Hfirst;
    cbn [fst snd secrets with_secrets option_map].
  - split.
    { intros x Hx Hname. apply filter_In in Hx as [Hin Hst].
      destruct (amend_unique Secret.name name Secret.mark_present (secrets s) x)
        as (y & _ & ->); try done. }
    split; [|done].
    intros x Hx. rewrite !filter_In.
    by rewrite (amend_others Secret.name name Secret.mark_present).
  - split.
    { intros x Hx Hname. apply filter_In in Hx as [Hin _].
      apply first_none_key in Hfirst. apply Hfirst. rewrite <- Hname. by apply in_map. }
    done.
Qed.

(** X22.  [create_persona_version] with [is_active=True] leaves one active
    persona, the new one: every persona that was active is deactivated.
    With [is_active=False] the active personas are the ones that were.  In
    both cases the new row comes last and no other row is added or
    dropped. *)
Theorem new_active_persona_is_the_only_one uuid name system_prompt summary s :
  let activating := create_persona_version._create uuid name system_prompt summary true s in
  let adding := create_persona_version._create uuid name system_prompt summary false s in
  List.filter PersonaVersion.is_active (persona_versions activating.2) = [activating.1] /\
  List.filter PersonaVersion.is_active (persona_versions adding.2)
    = List.filter PersonaVersion.is_active (persona_versions s) /\
  map PersonaVersion.id (persona_versions activating.2)
    = map PersonaVersion.id (persona_versions s) ++ [uuid] /\
  persona_versions adding.2 = persona_versions s ++ [adding.1].
Proof.
  cbv zeta. unfold create_persona_version._create. cbn.
  split; [by rewrite List.filter_app, filter_deactivated|].
  split; [rewrite List.filter_app; cbn; by rewrite app_nil_r|].
  split; [|done]. rewrite map_app, map_map. cbn. f_equal.
  apply map_ext. intros p. by destruct (PersonaVersion.is_active p).
Qed.

(** X23.  [models.initialize_db] leaves an active persona in the table: it
    adds the first one where none is active and nothing otherwise, so
    that a second run adds no second persona. *)
Theorem initialize_db_adds_one_persona_at_most uuid s :
  List.filter PersonaVersion.is_active (persona_versions (models.initialize_db uuid s)) <> [] /\
  (List.filter PersonaVersion.is_active (persona_versions s) <> [] ->
   models.initialize_db uuid s = s) /\
  (List.filter PersonaVersion.is_active (persona_versions s) = [] ->
   List.filter PersonaVersion.is_active (persona_versions (models.initialize_db uuid s))
     = [PersonaVersion.create uuid "Friendly Wellness Guide"
          "You are a friendly wellness assistant who helps users maintain their wellbeing through thoughtful check-ins and guidance."
          None true]) /\
  forall uuid',
    models.initialize_db uuid' (models.initialize_db uuid s) = models.initialize_db uuid s.
Proof.
  assert (Hsome : List.filter PersonaVersion.is_active
                    (persona_versions (models.initialize_db uuid s)) <> []).
  { unfold models.initialize_db.
    destruct (first PersonaVersion.is_active (persona_versions s)) as [p|] eqn:E.
    - intros H. apply filter_none_first in H. congruence.
    - cbn. rewrite List.filter_app. cbn. by destruct (List.filter _ _). }
  assert (Hkeep : forall u x,
             List.filter PersonaVersion.is_active (persona_versions x) <> [] ->
             models.initialize_db u x = x).
  { intros u x H. unfold models.initialize_db.
    destruct (first PersonaVersion.is_active (persona_versions x)) eqn:E; [done|].
    by apply filter_none_first in E. }
  split; [exact Hsome|]. split; [apply Hkeep|]. split; [|intros; by apply Hkeep].
  intros H. unfold models.initialize_db.
  rewrite (proj2 (filter_none_first _ _) H). cbn. rewrite List.filter_app, H. done.
Qed.

(** X24.  [register_plugin], on a registry where no two rows have the same
    [plugin_id]: afterwards [get_plugin_registry] maps the id to the row the
    operation returned, with the version given; the description is the one
    given unless it is [None] or empty and the plugin was there, in which
    case the old one is kept; the other ids map to what they did, and no
    two rows have the same id. *)
Theorem register_plugin_upserts now plugin_id version description s :
  NoDup (map PluginRegistry.plugin_id (plugin_registry s)) ->
  let r := register_plugin._register now plugin_id version description s in
  let registry := (get_plugin_registry._query r.2).1 in
  let before := (get_plugin_registry._query s).1 in
  NoDup (map PluginRegistry.plugin_id (plugin_registry r.2)) /\
  registry !! plugin_id = Some r.1 /\
  PluginRegistry.plugin_id r.1 = plugin_id /\
  PluginRegistry.version r.1 = version /\
  PluginRegistry.description r.1 =
    match before !! plugin_id with
    | Some old => if str_truthy description then description
                  else PluginRegistry.description old
    | None => description
    end /\
  (forall k, k <> plugin_id -> registry !! k = before !! k).
Proof.
  intros Hnd r registry before. subst r registry before.
  unfold get_plugin_registry._query. cbn [fst].
  rewrite (registry_lookup _ plugin_id Hnd).
  unfold register_plugin._register.
  set (found := fun p => String.eqb (PluginRegistry.plugin_id p) plugin_id).
  set (change := fun p =>
        {| PluginRegistry.plugin_id := PluginRegistry.plugin_id p;
           PluginRegistry.version := version;
           PluginRegistry.description :=
             if str_truthy description then description else PluginRegistry.description p;
           PluginRegistry.last_updated := Some now |}).
  destruct (first found (plugin_registry s)) as [old|] eqn:Hfirst;
    cbn [fst snd plugin_registry with_plugin_registry].
  - assert (Hnd' : NoDup (map PluginRegistry.plugin_id
                            (amend found change (plugin_registry s)))).
    { by rewrite map_amend. }
    apply first_some_key in Hfirst as Hold. destruct Hold as [_ Hid].
    split; [exact Hnd'|]. split.
    { rewrite (registry_lookup _ plugin_id Hnd'). fold found.
      rewrite first_amend, Hfirst; [done|]. intros x Hx. exact Hx. }
    split; [exact Hid|]. split; [done|]. split; [done|].
    intros k Hk. rewrite (registry_lookup _ k Hnd'), (registry_lookup _ k Hnd).
    unfold first. induction (plugin_registry s) as [|x rows IH]; [done|]. cbn.
    subst found. cbv beta.
    destruct (String.eqb_spec (PluginRegistry.plugin_id x) plugin_id) as [E|N]; cbn.
    + destruct (String.eqb_spec (PluginRegistry.plugin_id x) k); [congruence|done].
    + destruct (String.eqb_spec (PluginRegistry.plugin_id x) k); [done|].
      apply IH.
      * by inversion Hnd.
      * cbn in Hfirst. unfold first in Hfirst. cbn in Hfirst.
        by destruct (String.eqb_spec (PluginRegistry.plugin_id x) plugin_id).
      * cbn in Hnd'.
        destruct (String.eqb_spec (PluginRegistry.plugin_id x) plugin_id); [done|].
        by inversion Hnd'.
  - assert (Hnd' : NoDup (map PluginRegistry.plugin_id
                            (plugin_registry s
                               ++ [PluginRegistry.create plugin_id version description]))).
    { rewrite map_app. apply NoDup_snoc; [done|]. by apply first_none_key in Hfirst. }
    split; [exact Hnd'|]. split.
    { rewrite (registry_lookup _ plugin_id Hnd'). fold found.
      rewrite first_app, Hfirst. subst found. cbn. by rewrite String.eqb_refl. }
    split; [done|]. split; [done|]. split; [done|].
    intros k Hk. rewrite (registry_lookup _ k Hnd'), (registry_lookup _ k Hnd).
    rewrite first_app.
    destruct (first (fun p => String.eqb (PluginRegistry.plugin_id p) k)
                (plugin_registry s)); [done|].
    cbn. destruct (String.eqb_spec plugin_id k); [congruence|done].
Qed.

(** X25.  [store_checkin] makes sure that the user is there: a user of that
    id is in the table afterwards, added with no name and no email only
    where none was, so that no id comes twice; the check-in is the last
    row, and its [parsed_data] is the data given, when [json.loads] reads
    back what [json.dumps] wrote. *)
Theorem store_checkin_ensures_the_user uuid user_id raw_input structured_data s :
  let is_user := fun u => String.eqb (User.id u) user_id in
  let r := store_checkin._store uuid user_id raw_input structured_data s in
  first is_user (users r.2) =
    Some (default (User.of_id user_id) (first is_user (users s))) /\
  (first is_user (users s) <> None -> users r.2 = users s) /\
  (NoDup (map User.id (users s)) -> NoDup (map User.id (users r.2))) /\
  checkins r.2 = checkins s ++ [r.1] /\
  CheckIn.user_id r.1 = user_id /\ CheckIn.raw_input r.1 = raw_input /\
  (json_loads (json_dumps structured_data) = Some structured_data ->
   json_dumps structured_data <> EmptyString ->
   CheckIn.parsed_data r.1 = Some structured_data).
Proof.
  intros is_user r. subst r. unfold store_checkin._store. fold is_user.
  destruct (first is_user (users s)) as [u|] eqn:Hfirst; cbn.
  - split; [exact Hfirst|]. repeat split; try done.
    intros Hj Hne. unfold CheckIn.parsed_data. cbn.
    by destruct (String.eqb_spec (json_dumps structured_data) EmptyString).
  - split.
    { rewrite first_app, Hfirst. subst is_user. cbn. by rewrite String.eqb_refl. }
    split; [done|]. split.
    { intros Hnd. rewrite map_app. apply NoDup_snoc; [done|].
      by apply first_none_key in Hfirst. }
    repeat split.
    intros Hj Hne. unfold CheckIn.parsed_data. cbn.
    by destruct (String.eqb_spec (json_dumps structured_data) EmptyString).
Qed.

(** X26.  A goal that [create_goal] made under an id that no goal had is not
    achieved; [mark_goal_achieved] with that id then finds it, gives it the
    time of the call and returns it achieved, the other goals being as
    they were.  With an id that no goal has, [mark_goal_achieved] returns
    [None] and changes nothing. *)
Theorem new_goal_is_marked_achieved uuid user_id name description now s :
  first (fun g => String.eqb (Goal.id g) uuid) (goals s) = None ->
  let created := create_goal._create uuid user_id name description s in
  let marked := mark_goal_achieved._update now uuid created.2 in
  Goal.is_achieved created.1 = false /\
  marked.1 = Some (Goal.mark_achieved now created.1) /\
  Goal.is_achieved (Goal.mark_achieved now created.1) = true /\
  goals marked.2 = goals s ++ [Goal.mark_achieved now created.1] /\
  mark_goal_achieved._update now uuid s = (None, s).
Proof.
  intros Hfresh created marked. subst created marked.
  unfold mark_goal_achieved._update, create_goal._create.
  rewrite Hfresh.
  set (found := fun g => String.eqb (Goal.id g) uuid) in *.
  assert (Hgoals : forall x : Session,
            goals (match first (fun u => String.eqb (User.id u) user_id) (users s) with
                   | Some _ => s
                   | None => with_users (users s ++ [User.of_id user_id]) s
                   end) = goals s).
  { intros _. by destruct (first _ (users s)). }
  cbn [fst snd goals with_goals]. rewrite (Hgoals s).
  rewrite first_app, Hfresh. subst found. cbn [Goal.id Goal.create].
  rewrite String.eqb_refl. cbn [fst snd goals with_goals].
  split; [done|]. split; [done|]. split; [done|]. split; [|done].
  set (found := fun g => String.eqb (Goal.id g) uuid) in *.
  clear Hgoals. induction (goals s) as [|g rows IH]; cbn.
  - by rewrite String.eqb_refl.
  - unfold first in Hfresh. cbn in Hfresh. subst found. cbv beta in *.
    destruct (String.eqb (Goal.id g) uuid); [done|]. by rewrite IH.
Qed.

End Tables.

(** * The claims on examples *)

#[local] Existing Instance Fixture.library.

Import Fixture.


Lemma release_witness :
  Py.held (lock_id (self (with_session add_a_row free).2)) = false.
Proof.
  pose proof (release_is_the_last_step add_a_row free
                (with_session add_a_row free).1 (with_session add_a_row free).2
                (surjective_pairing _)) as H.
  destruct (acquire_lock 60 free) as [[b|e|] st1] eqn:E.
  - destruct H as (st_end & _ & _ & _ & H). exact H.
  - exfalso. revert E. vm_compute. discriminate.
  - destruct H.
Defined.

(** C2 fails where the instance holds the lock when it calls
    [with_session], as the handlers do that call the operations of the
    manager inside [with DatabaseLock(db_manager)]: [acquire_lock] finds
    the instance's own lease, gives up after six turns, and [with_session]
    raises with the lease in the bucket and in [lock_id]. *)
Lemma nested_session_keeps_the_lease :
  exists st',
    with_session add_a_row holding =
      (Raise (DatabaseLockException
                (AfterAttempts 6 (JStr "worker-b-23-9f8e7d6c-20240101000640"))), st') /\
    Py.held (lock_id (self st')) = true /\
    blobs (env st') !! lock_key = Some (dumps lease_b) /\
    count (is_delete lock_key) (since holding st') = 0%nat.
Proof. eexists. split; [vm_compute; reflexivity|]. vm_compute. by repeat split. Qed.

(** C3 fails where the download fails and a file is at [local_path]: what
    the failed download left of it stays, an empty file, and no store is
    made.  It fails again where no file is there, the look for the blob
    fails and the store cannot be made: the exception of
    [models.initialize_db] is raised by [download_db]. *)
Lemma failed_fetch_makes_no_store :
  (exists st',
      download_db fetch_fails = (Ok path, st') /\
      files (env st') !! path = Some EmptyString /\
      replica_as_specified fetch_fails = empty_store /\
      files (env st') !! path <> Some (replica_as_specified fetch_fails)) /\
  (exists st',
      @download_db no_disk_library blob_out_of_reach
        = (Raise (CallerError "OperationalError"), st') /\
      files (env st') !! path = None).
Proof.
  split.
  - eexists. split; [vm_compute; reflexivity|]. vm_compute.
    split; [reflexivity|]. split; [reflexivity|]. discriminate.
  - eexists. split; [vm_compute; reflexivity|]. vm_compute. reflexivity.
Qed.

Lemma expired_lease_witness :
  exists st',
    acquire_loop 3 60 (new_year + seconds 295) 3 stale_lease = (Ok true, st') /\
    Forall (fun ev => is_sleep ev = false) (since stale_lease st') /\
    lock_id (self st') = Some "worker-b-23-9f8e7d6c-20240101000501".
Proof.
  destruct (expired_lease_is_replaced 2 60 (new_year + seconds 295) 3 stale_lease
              "bucket" (dumps lease_a)
              (lease_fields "worker-a-17-0a1b2c3d-20240101000000" new_year "worker-a" 17)
              "2024-01-01T00:00:00" new_year works works works works works works [])
    as (id & content & earlier & st' & E & _ & _ & Hawake & _);
    try reflexivity.
  { vm_compute. discriminate. }
  exists st'. split; [exact E|]. split; [exact Hawake|].
  clear Hawake. revert E. vm_compute. intros [= <-]. reflexivity.
Defined.

Lemma release_by_non_holder_witness :
  (exists st',
      release_lock overtaken = (Ok tt, st') /\
      blobs (env st') = blobs (env overtaken) /\
      In (Print NotReleasingLockOwnedByAnother) (since overtaken st') /\
      lock_id (self st') = None) /\
  release_lock free = (Ok tt, free).
Proof.
  apply (release_by_non_holder overtaken free "bucket"
           "worker-b-23-9f8e7d6c-20231231235000" (dumps lease_a)
           (lease_fields "worker-a-17-0a1b2c3d-20240101000000" new_year "worker-a" 17)
           (JStr "worker-a-17-0a1b2c3d-20240101000000"));
    try reflexivity; discriminate.
Defined.



Lemma failed_upload_witness :
  (with_session add_a_row canonical_write_fails).1 = Ok 7%nat /\
  blobs (env (with_session add_a_row canonical_write_fails).2) !! data_key
    = Some "remote replica".
Proof.
  destruct (failed_upload_is_absorbed add_a_row canonical_write_fails "bucket"
              (with_session add_a_row canonical_write_fails).1
              (with_session add_a_row canonical_write_fails).2
              data_key "remote replica, one row" eq_refl (surjective_pairing _))
    as (r & found & Hf & Hres & _ & _ & _ & [(_ & Hsame & _)|(t & Hk & _)]).
  - vm_compute. discriminate.
  - vm_compute. tauto.
  - split.
    2: { change data_key with (db_filename (self canonical_write_fails)).
         rewrite Hsame. vm_compute. reflexivity. }
    rewrite Hres. injection Hf as <- _. reflexivity.
  - exfalso. by apply (backup_name_not_db (self canonical_write_fails) (strftime_compact t)).
Defined.

(** C7 fails where the write that fails is the backup's: the canonical
    blob has the new content by then. *)
Lemma failed_backup_leaves_new_canonical :
  exists st',
    with_session add_a_row backup_write_fails = (Ok 7%nat, st') /\
    In (Print (ErrorUploadingDatabase StoreError)) (since backup_write_fails st') /\
    blobs (env backup_write_fails) !! data_key = Some "remote replica" /\
    blobs (env st') !! data_key = Some "remote replica, one row".
Proof.
  eexists. split; [vm_compute; reflexivity|]. vm_compute.
  split; [tauto|]. by split.
Qed.

Lemma successful_session_witness :
  count (is_write data_key) (since free (with_session add_a_row free).2) = 1%nat.
Proof.
  assert (E : with_session add_a_row free = (Ok 7%nat, (with_session add_a_row free).2))
    by (vm_compute; reflexivity).
  destruct (successful_session_writes_twice add_a_row free "bucket" 7%nat _ eq_refl E)
    as (t & content & H & _).
  - intros e Hin. vm_compute in Hin. intuition discriminate.
  - exact H.
Defined.

(** C8 fails without a bucket: the session is committed, [upload_db]
    prints that it skips the upload, and nothing is written. *)
Lemma local_session_writes_nothing :
  exists st',
    with_session add_a_row local_only = (Ok 7%nat, st') /\
    (forall e, ~ In (Print (ErrorUploadingDatabase e)) (since local_only st')) /\
    count (is_write_attempt data_key) (since local_only st') = 0%nat /\
    files (env st') !! path = Some "local replica, one row".
Proof.
  eexists. split; [vm_compute; reflexivity|]. split.
  - intros e Hin. vm_compute in Hin. intuition discriminate.
  - vm_compute. by split.
Qed.



(** * The further properties on examples *)

Lemma live_lease_witness :
  exists why st',
    acquire_lock 60 live_lease = (Raise (DatabaseLockException why), st') /\
    blobs (env st') = blobs (env live_lease) /\
    why = AfterAttempts 6 (JStr "worker-a-17-0a1b2c3d-20240101000000").
Proof.
  destruct (live_lease_is_respected 60 live_lease "bucket" 0 (dumps lease_a)
              (lease_fields "worker-a-17-0a1b2c3d-20240101000000" new_year "worker-a" 17)
              "2024-01-01T00:00:00" new_year)
    as (why & st' & E & _ & B & _ & _ & _ & _ & W).
  - reflexivity.
  - vm_compute. reflexivity.
  - lia.
  - vm_compute. reflexivity.
  - vm_compute. reflexivity.
  - vm_compute. reflexivity.
  - vm_compute. reflexivity.
  - vm_compute. discriminate.
  - exists why, st'. split; [exact E|]. split; [exact B|]. apply W.
    vm_compute. discriminate.
Defined.

Lemma nested_session_witness :
  exists st',
    with_DatabaseLock 60 (with_session add_a_row) free =
      (Raise (DatabaseLockException
                (AfterAttempts 6 (JStr "worker-b-23-9f8e7d6c-20240101000640"))), st') /\
    blobs (env st') = blobs (env free) /\
    lock_id (self st') = None.
Proof.
  destruct (nested_session_waits_for_its_own_lock add_a_row 60 free "bucket" 0)
    as (why & st' & E & _ & W & B & _ & L & _).
  - reflexivity.
  - vm_compute. reflexivity.
  - lia.
  - lia.
  - vm_compute. reflexivity.
  - vm_compute. reflexivity.
  - vm_compute. reflexivity.
  - vm_compute. discriminate.
  - exists st'. split; [|by split].
    rewrite E. f_equal. f_equal. rewrite W; [vm_compute; reflexivity|].
    vm_compute. discriminate.
Defined.

Lemma DatabaseLock_witness :
  exists st',
    with_DatabaseLock 60 (raise (CallerError "boom") : M nat) free
      = (Raise (CallerError "boom"), st') /\
    lock_id (self st') = None /\
    blobs (env st') = blobs (env free).
Proof.
  pose proof (DatabaseLock_gives_back_the_lease 60 (raise (CallerError "boom") : M nat)
              free "bucket" 0 0) as H.
  cbv zeta in H.
  destruct H as (st' & mid & E & _ & _ & L & B & _).
  - reflexivity.
  - (vm_compute; reflexivity).
  - lia.
  - lia.
  - (vm_compute; reflexivity).
  - (vm_compute; reflexivity).
  - exact (lingers_raise _ _).
  - unfold raise. cbn [fst]. discriminate.
  - exists st'. split; [exact E|]. by split.
Defined.

Lemma scalar_lease_witness :
  exists st' st'',
    @acquire_lock number_library 60 scalar_lease = (Raise TypeError, st') /\
    @with_session number_library nat add_a_row scalar_lease = (Raise TypeError, st'') /\
    blobs (env st'') !! lock_key = Some "7".
Proof.
  destruct (@scalar_lease_blocks_the_lock number_library nat add_a_row 60 scalar_lease "bucket" 0 "7" (JNum 7))
    as (st' & st'' & E1 & _ & _ & E2 & _ & B & _).
  - reflexivity.
  - vm_compute. reflexivity.
  - lia.
  - lia.
  - vm_compute. reflexivity.
  - vm_compute. reflexivity.
  - left. exists 7. split; [reflexivity|discriminate].
  - exists st', st''. split; [exact E1|]. split; [exact E2|].
    rewrite B. vm_compute. reflexivity.
Defined.

Lemma free_lock_witness :
  exists st',
    acquire_lock 60 free = (Ok true, st') /\
    lock_id (self st') = Some "worker-b-23-9f8e7d6c-20240101000640" /\
    blobs (env st') !! lock_key = Some (dumps lease_b).
Proof.
  destruct (free_lock_is_taken 60 free "bucket" 0) as (st' & t & E & C & L & _ & _ & B & _).
  - reflexivity.
  - vm_compute. reflexivity.
  - lia.
  - lia.
  - vm_compute. reflexivity.
  - exists st'. split; [exact E|].
    revert E. vm_compute. intros [= <-]. by split.
Defined.

Lemma holder_release_witness :
  exists st',
    release_lock holding = (Ok tt, st') /\
    lock_id (self st') = None /\
    blobs (env st') !! lock_key = None /\
    blobs (env st') !! data_key = Some "remote replica".
Proof.
  destruct (holder_release_deletes_the_lease holding "bucket" 0
              "worker-b-23-9f8e7d6c-20240101000640" (dumps lease_b)
              (lease_fields "worker-b-23-9f8e7d6c-20240101000640" (new_year + seconds 400)
                 "worker-b" 23))
    as (st' & E & L & B & N & _).
  - reflexivity.
  - vm_compute. reflexivity.
  - lia.
  - reflexivity.
  - discriminate.
  - vm_compute. reflexivity.
  - vm_compute. reflexivity.
  - vm_compute. reflexivity.
  - exists st'. split; [exact E|]. split; [exact L|]. split; [exact N|].
    rewrite B. vm_compute. reflexivity.
Defined.

Lemma failed_look_witness :
  exists st',
    acquire_lock 60 look_fails = (Ok true, st') /\
    blobs (env look_fails) !! lock_key = Some (dumps lease_a) /\
    blobs (env st') !! lock_key <> Some (dumps lease_a) /\
    lock_id (self st') = Some "worker-b-23-9f8e7d6c-20240101000010".
Proof.
  destruct (failed_look_overwrites_the_lease 60 look_fails "bucket" breaks works [])
    as (st' & E & L & B & _).
  - reflexivity.
  - reflexivity.
  - reflexivity.
  - reflexivity.
  - lia.
  - exists st'. split; [exact E|]. split; [vm_compute; reflexivity|].
    rewrite B, L. split; [vm_compute; discriminate|vm_compute; reflexivity].
Defined.

Lemma session_commits_witness :
  exists st',
    with_session add_a_row free = (Ok 7%nat, st') /\
    blobs (env st') !! data_key = Some "remote replica, one row" /\
    blobs (env st') !! lock_key = None /\
    files (env st') !! path = Some "remote replica, one row".
Proof.
  destruct (session_commits_and_uploads add_a_row free "bucket" 0 7%nat
              "remote replica, one row")
    as (st' & t & E & _ & _ & B & L & F & _).
  - reflexivity.
  - reflexivity.
  - vm_compute. reflexivity.
  - lia.
  - vm_compute. reflexivity.
  - reflexivity.
  - vm_compute. reflexivity.
  - intros _. reflexivity.
  - vm_compute. reflexivity.
  - vm_compute. reflexivity.
  - exists st'. split; [exact E|]. split; [exact B|]. split; [exact L|exact F].
Defined.


Lemma next_session_witness :
  exists st2,
    with_session add_a_row
      {| self := other_instance; env := env (with_session add_a_row free).2 |}
      = (Ok 7%nat, st2) /\
    blobs (env st2) !! data_key = Some "remote replica, one row, one row" /\
    files (env st2) !! "/tmp/other.db" = Some "remote replica, one row, one row".
Proof.
  destruct (next_session_finds_the_commit add_a_row add_a_row free "bucket" 0
              7%nat "remote replica, one row" 7%nat "remote replica, one row, one row"
              other_instance)
    as (st2 & _ & E & B & F).
  - reflexivity.
  - reflexivity.
  - vm_compute. reflexivity.
  - lia.
  - vm_compute. reflexivity.
  - reflexivity.
  - vm_compute. reflexivity.
  - intros _. reflexivity.
  - vm_compute. reflexivity.
  - vm_compute. reflexivity.
  - reflexivity.
  - reflexivity.
  - reflexivity.
  - reflexivity.
  - vm_compute. reflexivity.
  - vm_compute. reflexivity.
  - vm_compute. reflexivity.
  - exists st2. split; [exact E|]. split; [exact B|exact F].
Defined.


Lemma failed_delete_witness :
  exists st',
    release_lock delete_fails = (Ok tt, st') /\
    lock_id (self st') = None /\
    blobs (env st') !! lock_key = Some (dumps lease_b).
Proof.
  destruct (failed_delete_leaves_the_lease delete_fails "bucket"
              "worker-b-23-9f8e7d6c-20240101000640" (dumps lease_b)
              (lease_fields "worker-b-23-9f8e7d6c-20240101000640" (new_year + seconds 400)
                 "worker-b" 23) works works breaks [])
    as (st' & E & L & B & _).
  - reflexivity.
  - reflexivity.
  - discriminate.
  - vm_compute. reflexivity.
  - vm_compute. reflexivity.
  - vm_compute. reflexivity.
  - reflexivity.
  - reflexivity.
  - reflexivity.
  - reflexivity.
  - exists st'. split; [exact E|]. split; [exact L|].
    rewrite B. vm_compute. reflexivity.
Defined.

Lemma local_session_witness :
  exists st',
    with_session add_a_row local_only = (Ok 7%nat, st') /\
    files (env st') !! path = Some "local replica, one row" /\
    since local_only st' = [Close; Print SkippingUpload; Commit].
Proof.
  destruct (local_session_commits_to_the_file add_a_row local_only 7%nat
              "local replica, one row")
    as (st' & E & _ & F & T & _).
  - reflexivity.
  - reflexivity.
  - intros _. reflexivity.
  - vm_compute. reflexivity.
  - vm_compute. reflexivity.
  - exists st'. split; [exact E|]. split; [|exact T].
    rewrite F. vm_compute. reflexivity.
Defined.


Lemma add_plugin_witness :
  In "slack"%string (Secret.plugin_ids (Secret.add_plugin "slack" api_key)) /\
  Secret.add_plugin "slack" (Secret.add_plugin "slack" api_key)
    = Secret.add_plugin "slack" api_key.
Proof.
  destruct (add_plugin_registers_plain_names "slack" api_key) as (H1 & _ & _ & H4).
  - reflexivity.
  - split; [exact H1|exact H4].
Defined.

Lemma add_plugin_comma_witness :
  Secret.plugin_ids (Secret.add_plugin "mail,chat" api_key)
    = ["calendar"; "weather"; "mail"; "chat"]%string /\
  ~ In "mail,chat"%string (Secret.plugin_ids (Secret.add_plugin "mail,chat" api_key)).
Proof.
  destruct (add_plugin_cuts_names_at_commas "mail,chat" api_key) as (H1 & H2 & _).
  - reflexivity.
  - split; [|exact H1]. rewrite H2. reflexivity.
Defined.

Lemma track_secret_witness :
  Secret.status (track_secret._track "API_KEY" (Some ["slack"%string]) tables).1
    = "missing"%string /\
  In "slack"%string
    (Secret.plugin_ids (track_secret._track "API_KEY" (Some ["slack"%string]) tables).1) /\
  In "weather"%string
    (Secret.plugin_ids (track_secret._track "API_KEY" (Some ["slack"%string]) tables).1).
Proof.
  destruct (track_secret_upserts "API_KEY" (Some ["slack"%string]) tables)
    as (_ & _ & S & P & Q & _).
  - repeat constructor.
  - split; [exact S|]. split.
    + apply P. left. reflexivity.
    + apply (Q api_key); [reflexivity|]. right. left. reflexivity.
Defined.

Lemma present_secret_witness :
  (get_missing_secrets._query tables).1 = [api_key] /\
  forall x, In x (get_missing_secrets._query
                    (mark_secret_present._update "API_KEY" tables).2).1 ->
            Secret.name x <> "API_KEY"%string.
Proof.
  destruct (present_secret_is_not_missing "API_KEY" tables) as (H & _).
  - apply NoDup_singleton.
  - split; [reflexivity|exact H].
Defined.

Lemma register_plugin_witness :
  (get_plugin_registry._query
     (register_plugin._register new_year "calendar" "v2.py" None tables).2).1
    !! "calendar"%string
  = Some {| PluginRegistry.plugin_id := "calendar"; PluginRegistry.version := "v2.py";
            PluginRegistry.description := Some "Calendar integration"%string;
            PluginRegistry.last_updated := Some new_year |}.
Proof.
  destruct (register_plugin_upserts new_year "calendar" "v2.py" None tables)
    as (_ & R & _).
  - apply NoDup_singleton.
  - rewrite R. reflexivity.
Defined.

Lemma new_goal_witness :
  (mark_goal_achieved._update new_year "g-1"
     (create_goal._create "g-1" "U1" "Run" None tables).2).1
  = Some {| Goal.id := "g-1"; Goal.user_id := "U1"; Goal.name := "Run";
            Goal.description := None; Goal.achieved_at := Some new_year |} /\
  mark_goal_achieved._update new_year "g-1" tables = (None, tables).
Proof.
  destruct (new_goal_is_marked_achieved "g-1" "U1" "Run" None new_year tables)
    as (_ & M & _ & _ & N).
  - reflexivity.
  - split; [rewrite M; reflexivity|exact N].
Defined.
